(** * threejs-sliders: the motion, distortion and wrap-layout engine

    A shallow embedding of the per-frame engine of the three slider
    components of the repository:

    - [Legacy]    : the first component of [src/app/components/ThreeSlider.tsx]
                    (hard-coded dimensions, wheel/touch input);
    - [Slider]    : the second component of the same file (dimensions from
                    props, wheel/touch input);
    - [Draggable] : [src/app/components/ThreeSliderDraggable.tsx]
                    (pointer drag input).

    JavaScript numbers are modelled by [num]: exact rationals together with
    the three special values [Infinity], [-Infinity] and [NaN].  Rounding and
    the sign of zero are abstracted away; everything else (division by zero,
    [NaN] propagation, comparisons with [NaN], the truncated remainder [%])
    follows the language.

    The refs of a component are one record, [Refs]; a handler or a frame is
    a function from refs to refs.  Scheduling ([requestAnimationFrame],
    [setTimeout]) appears as the order of the events of a run; the scene,
    the renderer, textures and the DOM are outside the model. *)

From Stdlib Require Import QArith Qround Qabs Qminmax Lqa Lia ZArith List Bool.
Import ListNotations.

Local Open Scope Q_scope.

(** ** JavaScript numbers *)

Inductive num : Type :=
| Fin (q : Q)
| PInf
| NInf
| NaN.

Declare Scope num_scope.
Delimit Scope num_scope with num.
Bind Scope num_scope with num.

Module Num.

Definition finite (a : num) : Prop :=
  match a with Fin _ => True | _ => False end.

Definition is_finite (a : num) : bool :=
  match a with Fin _ => true | _ => false end.

(** Equality of numbers: rationals are compared by value. *)
Definition eq (a b : num) : Prop :=
  match a, b with
  | Fin x, Fin y => x == y
  | PInf, PInf | NInf, NInf | NaN, NaN => True
  | _, _ => False
  end.

(** Order on finite numbers; false as soon as one side is not finite. *)
Definition le (a b : num) : Prop :=
  match a, b with Fin x, Fin y => x <= y | _, _ => False end.

Definition lt (a b : num) : Prop :=
  match a, b with Fin x, Fin y => x < y | _, _ => False end.

Definition Qltb (x y : Q) : bool :=
  match x ?= y with Lt => true | _ => false end.

Definition Qeqb0 (x : Q) : bool :=
  match x ?= 0 with Eq => true | _ => false end.

Definition neg (a : num) : num :=
  match a with
  | Fin x => Fin (- x)
  | PInf => NInf
  | NInf => PInf
  | NaN => NaN
  end.

Definition add (a b : num) : num :=
  match a, b with
  | NaN, _ | _, NaN => NaN
  | Fin x, Fin y => Fin (x + y)
  | PInf, NInf | NInf, PInf => NaN
  | PInf, _ | _, PInf => PInf
  | NInf, _ | _, NInf => NInf
  end.

Definition sub (a b : num) : num := add a (neg b).

(** An infinity scaled by the sign of a rational; [0 * Infinity] is [NaN]. *)
Definition scale_inf (positive : bool) (x : Q) : num :=
  match x ?= 0 with
  | Eq => NaN
  | Gt => if positive then PInf else NInf
  | Lt => if positive then NInf else PInf
  end.

Definition mul (a b : num) : num :=
  match a, b with
  | NaN, _ | _, NaN => NaN
  | Fin x, Fin y => Fin (x * y)
  | Fin x, PInf | PInf, Fin x => scale_inf true x
  | Fin x, NInf | NInf, Fin x => scale_inf false x
  | PInf, PInf | NInf, NInf => PInf
  | PInf, NInf | NInf, PInf => NInf
  end.

(** Division.  A zero divisor is the positive zero: [x / 0] is
    [Infinity], [-Infinity] or, for [0 / 0], [NaN]. *)
Definition div (a b : num) : num :=
  match a, b with
  | NaN, _ | _, NaN => NaN
  | Fin x, Fin y =>
      if Qeqb0 y then scale_inf true x else Fin (x / y)
  | Fin _, (PInf | NInf) => Fin 0
  | PInf, Fin y => if Qltb y 0 then NInf else PInf
  | NInf, Fin y => if Qltb y 0 then PInf else NInf
  | (PInf | NInf), (PInf | NInf) => NaN
  end.

(** [a > b] and [a < b]: false when an operand is [NaN]. *)
Definition gt (a b : num) : bool :=
  match a, b with
  | NaN, _ | _, NaN => false
  | Fin x, Fin y => Qltb y x
  | PInf, PInf | NInf, NInf => false
  | PInf, _ | _, NInf => true
  | _, PInf | NInf, _ => false
  end.

Definition ltb (a b : num) : bool := gt b a.

(** [Math.abs], [Math.max], [Math.min], [Math.sign]. *)
Definition abs (a : num) : num :=
  match a with
  | Fin x => Fin (Qabs x)
  | PInf | NInf => PInf
  | NaN => NaN
  end.

Definition max (a b : num) : num :=
  match a, b with
  | NaN, _ | _, NaN => NaN
  | _, _ => if gt b a then b else a
  end.

Definition min (a b : num) : num :=
  match a, b with
  | NaN, _ | _, NaN => NaN
  | _, _ => if gt a b then b else a
  end.

Definition sign (a : num) : num :=
  match a with
  | Fin x => match x ?= 0 with Eq => Fin 0 | Gt => Fin 1 | Lt => Fin (-1) end
  | PInf => Fin 1
  | NInf => Fin (-1)
  | NaN => NaN
  end.

(** Truthiness of a number in a condition: [0] and [NaN] are falsy. *)
Definition truthy (a : num) : bool :=
  match a with
  | Fin x => negb (Qeqb0 x)
  | PInf | NInf => true
  | NaN => false
  end.

(** Truncation toward zero and the remainder [x % t] on rationals
    (the result takes the sign of the dividend). *)
Definition Qtrunc (q : Q) : Z :=
  if Qltb q 0 then Qceiling q else Qfloor q.

Definition Qrem (x t : Q) : Q := x - t * inject_Z (Qtrunc (x / t)).

Definition rem (a b : num) : num :=
  match a, b with
  | NaN, _ | _, NaN => NaN
  | (PInf | NInf), _ => NaN
  | Fin x, (PInf | NInf) => Fin x
  | Fin x, Fin t => if Qeqb0 t then NaN else Fin (Qrem x t)
  end.

(** A number literal written as a decimal fraction. *)
Definition of_nat (n : nat) : num := Fin (inject_Z (Z.of_nat n)).

End Num.

Notation "a + b" := (Num.add a b) : num_scope.
Notation "a - b" := (Num.sub a b) : num_scope.
Notation "a * b" := (Num.mul a b) : num_scope.
Notation "a / b" := (Num.div a b) : num_scope.
(** [a %% b] is the remainder operator of the language. *)
Notation "a %% b" := (Num.rem a b) (at level 40, left associativity) : num_scope.
Notation "- a" := (Num.neg a) : num_scope.
Notation "a >? b" := (Num.gt a b) (at level 70, no associativity) : num_scope.
Notation "a <? b" := (Num.ltb a b) (at level 70, no associativity) : num_scope.
Notation "a =~ b" := (Num.eq a b) (at level 70, no associativity) : num_scope.

Local Open Scope num_scope.

(** ** Settings

    The [settings] object of the components.  The three components agree on
    every value they share. *)

Module settings.
Definition wheelSensitivity : num := Fin 0.01.
Definition touchSensitivity : num := Fin 0.01.
Definition dragSensitivity : num := Fin 0.02.
Definition momentumMultiplier : num := Fin 2.
Definition smoothing : num := Fin 0.1.
Definition slideLerp : num := Fin 0.075.
Definition distortionDecay : num := Fin 0.95.
Definition maxDistortion : num := Fin 2.5.
Definition distortionSensitivity : num := Fin 0.15.
Definition distortionSmoothing : num := Fin 0.075.
End settings.

(** ** Data *)

(** A slide: the fields of the [THREE.Mesh] and of its [userData] bag that
    the engine reads or writes.  [position_array] is the live vertex buffer
    [geometry.attributes.position.array] (x, y, z of every vertex in turn);
    [originalVertices] is the copy of it taken by [createSlide]. *)
Record Mesh : Type := mkMesh {
  position_x : num;
  scale_x : num;
  scale_y : num;
  position_array : list num;
  originalVertices : list num;
  index : nat;
  targetX : num;
  currentX : num
}.

(** The mutable refs of a mounted component.  [isScrolling], [touchStartX]
    and [touchLastX] belong to the wheel/touch components, [isDragging],
    [dragStartX] and [dragLastX] to the draggable one; a component leaves
    the refs of the other untouched. *)
Record Refs : Type := mkRefs {
  slides : list Mesh;
  currentPosition : num;
  targetPosition : num;
  isScrolling : bool;
  isDragging : bool;
  touchStartX : num;
  touchLastX : num;
  dragStartX : num;
  dragLastX : num;
  autoScrollSpeed : num;
  lastTime : num;
  prevPosition : num;
  currentDistortionFactor : num;
  targetDistortionFactor : num;
  peakVelocity : num;
  velocityHistory : list num
}.

(** Array helpers: a read out of range is [undefined], which every
    arithmetic operator turns into [NaN]; a write out of range into a typed
    array is ignored. *)
Definition get (a : list num) (i : nat) : num := nth i a NaN.

Fixpoint set (a : list num) (i : nat) (v : num) : list num :=
  match a, i with
  | [], _ => []
  | _ :: r, O => v :: r
  | x :: r, S j => x :: set r j v
  end.

(** [forEach((slide, i) => ...)] as a map that passes the index. *)
Fixpoint mapi_from {A B : Type} (f : A -> nat -> B) (i : nat) (l : list A) : list B :=
  match l with
  | [] => []
  | x :: r => f x i :: mapi_from f (S i) r
  end.

Definition forEach {A B : Type} (f : A -> nat -> B) (l : list A) : list B :=
  mapi_from f 0 l.

(** ** The code shared by the three components *)

Section Engine.

(** Dimensions: props of [Slider] and [Draggable], constants of [Legacy]. *)
Variables slideWidth gap slideCount : num.

Definition totalWidth : num := slideCount * (slideWidth + gap).
Definition slideUnit : num := slideWidth + gap.

(** *** Wrap layout (the head of the [slides.forEach] callback) *)

Definition wrapBase (i : nat) (currentPosition : num) : num :=
  let baseX := Num.of_nat i * slideUnit - currentPosition in
  let baseX := ((baseX %% totalWidth) + totalWidth) %% totalWidth in
  if baseX >? totalWidth / Fin 2 then baseX - totalWidth else baseX.

(** The rest of the callback up to the culling test, given [baseX]:
    the new [(targetX, currentX)] of the slide. *)
Definition easeSlide (baseX : num) (slide : Mesh) : num * num :=
  let isWrapping := Num.abs (baseX - targetX slide) >? slideWidth * Fin 2 in
  let currentX0 := if isWrapping then baseX else currentX slide in
  let targetX' := baseX in
  (targetX', currentX0 + (targetX' - currentX0) * settings.slideLerp).

Definition with_layout (slide : Mesh) (tx cx : num) : Mesh :=
  {| position_x := position_x slide;
     scale_x := scale_x slide; scale_y := scale_y slide;
     position_array := position_array slide;
     originalVertices := originalVertices slide;
     index := index slide;
     targetX := tx; currentX := cx |}.

Definition with_position_x (slide : Mesh) (x : num) : Mesh :=
  {| position_x := x;
     scale_x := scale_x slide; scale_y := scale_y slide;
     position_array := position_array slide;
     originalVertices := originalVertices slide;
     index := index slide;
     targetX := targetX slide; currentX := currentX slide |}.

(** The whole callback; [updateCurve] is the component's own. *)
Definition updateSlide (updateCurve : Mesh -> num -> num -> Mesh)
    (currentPosition distortion : num) (slide : Mesh) (i : nat) : Mesh :=
  let baseX := wrapBase i currentPosition in
  let '(tx, cx) := easeSlide baseX slide in
  let slide := with_layout slide tx cx in
  let wrapThreshold := totalWidth / Fin 2 + slideWidth in
  if Num.abs (currentX slide) <? wrapThreshold * Fin 1.5 then
    let slide := with_position_x slide (currentX slide) in
    updateCurve slide (position_x slide) distortion
  else slide.

(** *** Pieces of [animate] that read the same in the three components *)

(** The body of the momentum branch: the new [targetPosition] and
    [autoScrollSpeed]. *)
Definition applyMomentum (targetPosition autoScrollSpeed : num) : num * num :=
  let targetPosition := targetPosition + autoScrollSpeed in
  let speedBasedDecay := Fin 0.97 - Num.abs autoScrollSpeed * Fin 0.5 in
  let autoScrollSpeed := autoScrollSpeed * Num.max (Fin 0.92) speedBasedDecay in
  if Num.abs autoScrollSpeed <? Fin 0.001
  then (targetPosition, Fin 0)
  else (targetPosition, autoScrollSpeed).

(** [a += (b - a) * k]. *)
Definition approach (a b k : num) : num := a + (b - a) * k.

(** [velocityHistory.push(v); velocityHistory.shift()]. *)
Definition pushShift (history : list num) (v : num) : list num :=
  tl (history ++ [v]).

(** [history.reduce((sum, val) => sum + val, 0) / history.length]. *)
Definition average (history : list num) : num :=
  fold_left (fun sum val => sum + val) history (Fin 0)
  / Num.of_nat (length history).

Definition raisePeak (avgVelocity peakVelocity : num) : num :=
  if avgVelocity >? peakVelocity then avgVelocity else peakVelocity.

Definition velocityRatio (avgVelocity peakVelocity : num) : num :=
  if peakVelocity >? Fin 0.001 then avgVelocity / peakVelocity else Fin 0.

Definition isDecelerating (avgVelocity peakVelocity : num) : bool :=
  (velocityRatio avgVelocity peakVelocity <? Fin 0.7)
  && (peakVelocity >? Fin 0.5).

Definition movementDistortion (currentVelocity : num) : num :=
  Num.min (Fin 1.0) (currentVelocity * settings.distortionSensitivity).

End Engine.

(** ** Assignments to a single ref

    [set_f v s] is the state after [f.current = v]. *)

Definition set_targetPosition (v : num) (s : Refs) : Refs :=
  {| slides := slides s;
     currentPosition := currentPosition s;
     targetPosition := v;
     isScrolling := isScrolling s;
     isDragging := isDragging s;
     touchStartX := touchStartX s;
     touchLastX := touchLastX s;
     dragStartX := dragStartX s;
     dragLastX := dragLastX s;
     autoScrollSpeed := autoScrollSpeed s;
     lastTime := lastTime s;
     prevPosition := prevPosition s;
     currentDistortionFactor := currentDistortionFactor s;
     targetDistortionFactor := targetDistortionFactor s;
     peakVelocity := peakVelocity s;
     velocityHistory := velocityHistory s |}.

Definition set_isScrolling (v : bool) (s : Refs) : Refs :=
  {| slides := slides s;
     currentPosition := currentPosition s;
     targetPosition := targetPosition s;
     isScrolling := v;
     isDragging := isDragging s;
     touchStartX := touchStartX s;
     touchLastX := touchLastX s;
     dragStartX := dragStartX s;
     dragLastX := dragLastX s;
     autoScrollSpeed := autoScrollSpeed s;
     lastTime := lastTime s;
     prevPosition := prevPosition s;
     currentDistortionFactor := currentDistortionFactor s;
     targetDistortionFactor := targetDistortionFactor s;
     peakVelocity := peakVelocity s;
     velocityHistory := velocityHistory s |}.

Definition set_isDragging (v : bool) (s : Refs) : Refs :=
  {| slides := slides s;
     currentPosition := currentPosition s;
     targetPosition := targetPosition s;
     isScrolling := isScrolling s;
     isDragging := v;
     touchStartX := touchStartX s;
     touchLastX := touchLastX s;
     dragStartX := dragStartX s;
     dragLastX := dragLastX s;
     autoScrollSpeed := autoScrollSpeed s;
     lastTime := lastTime s;
     prevPosition := prevPosition s;
     currentDistortionFactor := currentDistortionFactor s;
     targetDistortionFactor := targetDistortionFactor s;
     peakVelocity := peakVelocity s;
     velocityHistory := velocityHistory s |}.

Definition set_touchStartX (v : num) (s : Refs) : Refs :=
  {| slides := slides s;
     currentPosition := currentPosition s;
     targetPosition := targetPosition s;
     isScrolling := isScrolling s;
     isDragging := isDragging s;
     touchStartX := v;
     touchLastX := touchLastX s;
     dragStartX := dragStartX s;
     dragLastX := dragLastX s;
     autoScrollSpeed := autoScrollSpeed s;
     lastTime := lastTime s;
     prevPosition := prevPosition s;
     currentDistortionFactor := currentDistortionFactor s;
     targetDistortionFactor := targetDistortionFactor s;
     peakVelocity := peakVelocity s;
     velocityHistory := velocityHistory s |}.

Definition set_touchLastX (v : num) (s : Refs) : Refs :=
  {| slides := slides s;
     currentPosition := currentPosition s;
     targetPosition := targetPosition s;
     isScrolling := isScrolling s;
     isDragging := isDragging s;
     touchStartX := touchStartX s;
     touchLastX := v;
     dragStartX := dragStartX s;
     dragLastX := dragLastX s;
     autoScrollSpeed := autoScrollSpeed s;
     lastTime := lastTime s;
     prevPosition := prevPosition s;
     currentDistortionFactor := currentDistortionFactor s;
     targetDistortionFactor := targetDistortionFactor s;
     peakVelocity := peakVelocity s;
     velocityHistory := velocityHistory s |}.

Definition set_dragStartX (v : num) (s : Refs) : Refs :=
  {| slides := slides s;
     currentPosition := currentPosition s;
     targetPosition := targetPosition s;
     isScrolling := isScrolling s;
     isDragging := isDragging s;
     touchStartX := touchStartX s;
     touchLastX := touchLastX s;
     dragStartX := v;
     dragLastX := dragLastX s;
     autoScrollSpeed := autoScrollSpeed s;
     lastTime := lastTime s;
     prevPosition := prevPosition s;
     currentDistortionFactor := currentDistortionFactor s;
     targetDistortionFactor := targetDistortionFactor s;
     peakVelocity := peakVelocity s;
     velocityHistory := velocityHistory s |}.

Definition set_dragLastX (v : num) (s : Refs) : Refs :=
  {| slides := slides s;
     currentPosition := currentPosition s;
     targetPosition := targetPosition s;
     isScrolling := isScrolling s;
     isDragging := isDragging s;
     touchStartX := touchStartX s;
     touchLastX := touchLastX s;
     dragStartX := dragStartX s;
     dragLastX := v;
     autoScrollSpeed := autoScrollSpeed s;
     lastTime := lastTime s;
     prevPosition := prevPosition s;
     currentDistortionFactor := currentDistortionFactor s;
     targetDistortionFactor := targetDistortionFactor s;
     peakVelocity := peakVelocity s;
     velocityHistory := velocityHistory s |}.

Definition set_autoScrollSpeed (v : num) (s : Refs) : Refs :=
  {| slides := slides s;
     currentPosition := currentPosition s;
     targetPosition := targetPosition s;
     isScrolling := isScrolling s;
     isDragging := isDragging s;
     touchStartX := touchStartX s;
     touchLastX := touchLastX s;
     dragStartX := dragStartX s;
     dragLastX := dragLastX s;
     autoScrollSpeed := v;
     lastTime := lastTime s;
     prevPosition := prevPosition s;
     currentDistortionFactor := currentDistortionFactor s;
     targetDistortionFactor := targetDistortionFactor s;
     peakVelocity := peakVelocity s;
     velocityHistory := velocityHistory s |}.

Definition set_targetDistortionFactor (v : num) (s : Refs) : Refs :=
  {| slides := slides s;
     currentPosition := currentPosition s;
     targetPosition := targetPosition s;
     isScrolling := isScrolling s;
     isDragging := isDragging s;
     touchStartX := touchStartX s;
     touchLastX := touchLastX s;
     dragStartX := dragStartX s;
     dragLastX := dragLastX s;
     autoScrollSpeed := autoScrollSpeed s;
     lastTime := lastTime s;
     prevPosition := prevPosition s;
     currentDistortionFactor := currentDistortionFactor s;
     targetDistortionFactor := v;
     peakVelocity := peakVelocity s;
     velocityHistory := velocityHistory s |}.

Definition set_peakVelocity (v : num) (s : Refs) : Refs :=
  {| slides := slides s;
     currentPosition := currentPosition s;
     targetPosition := targetPosition s;
     isScrolling := isScrolling s;
     isDragging := isDragging s;
     touchStartX := touchStartX s;
     touchLastX := touchLastX s;
     dragStartX := dragStartX s;
     dragLastX := dragLastX s;
     autoScrollSpeed := autoScrollSpeed s;
     lastTime := lastTime s;
     prevPosition := prevPosition s;
     currentDistortionFactor := currentDistortionFactor s;
     targetDistortionFactor := targetDistortionFactor s;
     peakVelocity := v;
     velocityHistory := velocityHistory s |}.

(** ** Surface displacement ([updateCurve])

    [Math.sqrt], [Math.sin], [Math.pow] and [Math.PI] are the host's; the
    engine is parametric in them. *)

Record MathObject : Type := mkMath {
  Math_sqrt : num -> num;
  Math_sin : num -> num;
  Math_pow : num -> num -> num;
  Math_PI : num
}.

Section Curve.

Variable Math : MathObject.

Definition distortionRadius : num := Fin 2.0.

(** [positionAttribute.count]: the number of (x, y, z) items. *)
Definition count (array : list num) : nat := Nat.div (length array) 3.

(** [positionAttribute.setZ(i, z)]. *)
Definition setZ (array : list num) (i : nat) (z : num) : list num :=
  set array (i * 3 + 2) z.

(** The [for] loop of [updateCurve]: [curveZ x y] is the body's value for a
    vertex whose original coordinates are [x] and [y]. *)
Definition displace (curveZ : num -> num -> num)
    (originalVertices array : list num) : list num :=
  fold_left
    (fun array i =>
       let x := get originalVertices (i * 3) in
       let y := get originalVertices (i * 3 + 1) in
       setZ array i (curveZ x y))
    (seq 0 (count array)) array.

Definition with_position_array (mesh : Mesh) (array : list num) : Mesh :=
  {| position_x := position_x mesh;
     scale_x := scale_x mesh; scale_y := scale_y mesh;
     position_array := array;
     originalVertices := originalVertices mesh;
     index := index mesh;
     targetX := targetX mesh; currentX := currentX mesh |}.

(** The loop body of [Legacy]'s [updateCurve] (the mesh scale is not
    used there). *)
Definition curveZ_legacy (worldPositionX distortionFactor x y : num) : num :=
  let distortionCenter_x := Fin 0 in
  let distortionCenter_y := Fin 0 in
  let maxCurvature := settings.maxDistortion * distortionFactor in
  let vertexWorldPosX := worldPositionX + x in
  let distFromCenter :=
    Math_sqrt Math (Math_pow Math (vertexWorldPosX - distortionCenter_x) (Fin 2)
               + Math_pow Math (y - distortionCenter_y) (Fin 2)) in
  let distortionStrength :=
    Num.max (Fin 0) (Fin 1 - distFromCenter / distortionRadius) in
  Math_pow Math (Math_sin Math ((distortionStrength * Math_PI Math) / Fin 2)) (Fin 1.5)
  * maxCurvature.

(** The loop body of [updateCurve] in [Slider] and [Draggable]. *)
Definition curveZ (mesh : Mesh) (worldPositionX distortionFactor x y : num) : num :=
  let distortionCenter_x := Fin 0 in
  let distortionCenter_y := Fin 0 in
  let maxCurvature := settings.maxDistortion * distortionFactor in
  let vertexWorldPosX := worldPositionX + x * scale_x mesh in
  let vertexWorldPosY := y * scale_y mesh in
  let distFromCenter :=
    Math_sqrt Math (Math_pow Math (vertexWorldPosX - distortionCenter_x) (Fin 2)
               + Math_pow Math (vertexWorldPosY - distortionCenter_y) (Fin 2)) in
  let distortionStrength :=
    Num.max (Fin 0) (Fin 1 - distFromCenter / distortionRadius) in
  Math_pow Math (Math_sin Math ((distortionStrength * Math_PI Math) / Fin 2)) (Fin 1.5)
  * maxCurvature.

(** [updateCurve].  A [Mesh] always has its geometry and its
    [originalVertices], so the early [return] of the source is never
    taken.  [computeVertexNormals] writes the normal buffer, which the
    engine never reads. *)
Definition updateCurve_legacy (mesh : Mesh) (worldPositionX distortionFactor : num) : Mesh :=
  with_position_array mesh
    (displace (curveZ_legacy worldPositionX distortionFactor)
       (originalVertices mesh) (position_array mesh)).

Definition updateCurve (mesh : Mesh) (worldPositionX distortionFactor : num) : Mesh :=
  with_position_array mesh
    (displace (curveZ mesh worldPositionX distortionFactor)
       (originalVertices mesh) (position_array mesh)).

End Curve.

(** ** Input events *)

Inductive Key : Type := ArrowLeft | ArrowRight | OtherKey.

(** What the listeners and timers of a component can be called with:
    [TimerFired] is a scroll-end timeout running ([isScrolling.current =
    false]); [intersects] is the answer of the ray caster. *)
Inductive Event : Type :=
| Wheel (deltaY : num)
| KeyDown (key : Key)
| TouchStart (clientX : num)
| TouchMove (clientX : num)
| TouchEnd
| TimerFired
| MouseDown (clientX : num) (intersects : bool)
| MouseMove (clientX : num)
| MouseUp
| AnimationFrame (time : num).

(** The consts of one call of [animate], next to the refs it leaves;
    [frame_peak] is [peakVelocity.current] once raised and before its 1%
    decay, [frame_targetAfterRise] is [targetDistortionFactor.current]
    between the rise step and the decay. *)
Record Frame : Type := mkFrame {
  frame_deltaTime : num;
  frame_currentVelocity : num;
  frame_avgVelocity : num;
  frame_peak : num;
  frame_isDecelerating : bool;
  frame_movementDistortion : num;
  frame_targetAfterRise : num;
  frame_decayRate : num;
  frame_refs : Refs
}.

(** ** [Legacy]: the first component of [ThreeSlider.tsx] *)

Module Legacy.
Section Component.

Variable Math : MathObject.

Definition slideWidth : num := Fin 3.0.
Definition slideHeight : num := Fin 1.5.
Definition gap : num := Fin 0.1.
Definition slideCount : num := Fin 10.
Definition totalWidth : num := totalWidth slideWidth gap slideCount.
Definition slideUnit : num := slideUnit slideWidth gap.

Definition updateCurve : Mesh -> num -> num -> Mesh := updateCurve_legacy Math.

Definition frame (time : num) (s : Refs) : Frame :=
  let deltaTime :=
    if Num.truthy (lastTime s)
    then (time - lastTime s) / Fin 1000
    else Fin 0.016 in
  let lastTime' := time in
  let prevPosition' := currentPosition s in
  let '(targetPosition', autoScrollSpeed') :=
    if isScrolling s
    then applyMomentum (targetPosition s) (autoScrollSpeed s)
    else (targetPosition s, autoScrollSpeed s) in
  let currentPosition' :=
    approach (currentPosition s) targetPosition' settings.smoothing in
  let currentVelocity :=
    Num.abs (currentPosition' - prevPosition') / deltaTime in
  let velocityHistory' := pushShift (velocityHistory s) currentVelocity in
  let avgVelocity := average velocityHistory' in
  let peakVelocity1 := raisePeak avgVelocity (peakVelocity s) in
  let isDecelerating := isDecelerating avgVelocity peakVelocity1 in
  let peakVelocity' := peakVelocity1 * Fin 0.99 in
  let movementDistortion := movementDistortion currentVelocity in
  let targetDistortionFactor1 :=
    if currentVelocity >? Fin 0.05
    then Num.max (targetDistortionFactor s) movementDistortion
    else targetDistortionFactor s in
  let decayRate :=
    if isDecelerating || (avgVelocity <? Fin 0.2)
    then settings.distortionDecay
    else settings.distortionDecay * Fin 0.9 in
  let targetDistortionFactor' := targetDistortionFactor1 * decayRate in
  let currentDistortionFactor' :=
    approach (currentDistortionFactor s) targetDistortionFactor'
      settings.distortionSmoothing in
  let slides' :=
    forEach
      (updateSlide slideWidth gap slideCount updateCurve
         currentPosition' currentDistortionFactor')
      (slides s) in
  {| frame_deltaTime := deltaTime;
     frame_currentVelocity := currentVelocity;
     frame_avgVelocity := avgVelocity;
     frame_peak := peakVelocity1;
     frame_isDecelerating := isDecelerating;
     frame_movementDistortion := movementDistortion;
   frame_targetAfterRise := targetDistortionFactor1;
     frame_decayRate := decayRate;
     frame_refs :=
       {| slides := slides';
          currentPosition := currentPosition';
          targetPosition := targetPosition';
          isScrolling := isScrolling s;
          isDragging := isDragging s;
          touchStartX := touchStartX s;
          touchLastX := touchLastX s;
          dragStartX := dragStartX s;
          dragLastX := dragLastX s;
          autoScrollSpeed := autoScrollSpeed';
          lastTime := lastTime';
          prevPosition := prevPosition';
          currentDistortionFactor := currentDistortionFactor';
          targetDistortionFactor := targetDistortionFactor';
          peakVelocity := peakVelocity';
          velocityHistory := velocityHistory' |} |}.

Definition animate (time : num) (s : Refs) : Refs := frame_refs (frame time s).

Definition handleWheel (deltaY : num) (s : Refs) : Refs :=
  let wheelStrength := Num.min (Num.abs deltaY * Fin 0.001) (Fin 1.0) in
  let s := set_targetDistortionFactor
             (Num.min (Fin 1.0) (targetDistortionFactor s + wheelStrength)) s in
  let s := set_targetPosition
             (targetPosition s - deltaY * settings.wheelSensitivity) s in
  let s := set_isScrolling true s in
  set_autoScrollSpeed
    (Num.min (Num.abs deltaY * Fin 0.0005) (Fin 0.05) * Num.sign deltaY) s.

Definition handleKeyDown (key : Key) (s : Refs) : Refs :=
  match key with
  | ArrowLeft =>
      let s := set_targetPosition (targetPosition s + slideUnit) s in
      set_targetDistortionFactor
        (Num.min (Fin 1.0) (targetDistortionFactor s + Fin 0.3)) s
  | ArrowRight =>
      let s := set_targetPosition (targetPosition s - slideUnit) s in
      set_targetDistortionFactor
        (Num.min (Fin 1.0) (targetDistortionFactor s + Fin 0.3)) s
  | OtherKey => s
  end.

Definition handleTouchStart (clientX : num) (s : Refs) : Refs :=
  let s := set_touchStartX clientX s in
  let s := set_touchLastX (touchStartX s) s in
  let s := set_isScrolling false s in
  let s := set_autoScrollSpeed (Fin 0) s in
  set_peakVelocity (Fin 0) s.

Definition handleTouchMove (clientX : num) (s : Refs) : Refs :=
  let touchX := clientX in
  let deltaX := touchX - touchLastX s in
  let s := set_touchLastX touchX s in
  let touchStrength := Num.min (Num.abs deltaX * Fin 0.02) (Fin 1.0) in
  let s := set_targetDistortionFactor
             (Num.min (Fin 1.0) (targetDistortionFactor s + touchStrength)) s in
  let s := set_targetPosition
             (targetPosition s - deltaX * settings.touchSensitivity) s in
  set_isScrolling true s.

Definition handleTouchEnd (s : Refs) : Refs :=
  let velocity := (touchLastX s - touchStartX s) * Fin 0.005 in
  let s :=
    if Num.abs velocity >? Fin 0.5 then
      let s := set_autoScrollSpeed
                 (- velocity * settings.momentumMultiplier * Fin 0.05) s in
      set_targetDistortionFactor
        (Num.min (Fin 1.0)
           (Num.abs velocity * Fin 3 * settings.distortionSensitivity)) s
    else s in
  set_isScrolling true s.

(** A scroll-end timeout (150 ms after a wheel event, 800 ms after a
    touch end) runs. *)
Definition scrollTimeout (s : Refs) : Refs := set_isScrolling false s.

Definition step (s : Refs) (e : Event) : Refs :=
  match e with
  | Wheel deltaY => handleWheel deltaY s
  | KeyDown key => handleKeyDown key s
  | TouchStart clientX => handleTouchStart clientX s
  | TouchMove clientX => handleTouchMove clientX s
  | TouchEnd => handleTouchEnd s
  | TimerFired => scrollTimeout s
  | AnimationFrame time => animate time s
  | MouseDown _ _ | MouseMove _ | MouseUp => s
  end.

End Component.
End Legacy.

(** ** [Slider]: the second component of [ThreeSlider.tsx] *)

Module Slider.
Section Component.

Variable Math : MathObject.
(** The props [slideWidth], [gap] and [slideCount]. *)
Variables slideWidth gap slideCount : num.

Definition frame (time : num) (s : Refs) : Frame :=
  let deltaTime :=
    if Num.truthy (lastTime s)
    then (time - lastTime s) / Fin 1000
    else Fin 0.016 in
  let lastTime' := time in
  let prevPosition' := currentPosition s in
  let '(targetPosition', autoScrollSpeed') :=
    if isScrolling s && (Num.abs (autoScrollSpeed s) >? Fin 0.001)
    then applyMomentum (targetPosition s) (autoScrollSpeed s)
    else (targetPosition s, Fin 0) in
  let currentPosition' :=
    approach (currentPosition s) targetPosition' settings.smoothing in
  let currentVelocity :=
    Num.max (Fin 0) (Num.abs (currentPosition' - prevPosition') / deltaTime) in
  let velocityHistory' := pushShift (velocityHistory s) currentVelocity in
  let avgVelocity := average velocityHistory' in
  let peakVelocity1 := raisePeak avgVelocity (peakVelocity s) in
  let isDecelerating := isDecelerating avgVelocity peakVelocity1 in
  let peakVelocity' := peakVelocity1 * Fin 0.99 in
  let movementDistortion := movementDistortion currentVelocity in
  let targetDistortionFactor1 :=
    if currentVelocity >? Fin 0.05
    then Num.max (targetDistortionFactor s) movementDistortion
    else targetDistortionFactor s in
  let decayRate :=
    if isDecelerating || (avgVelocity <? Fin 0.2) || negb (isScrolling s)
    then settings.distortionDecay
    else settings.distortionDecay * Fin 0.9 in
  let targetDistortionFactor' := targetDistortionFactor1 * decayRate in
  let currentDistortionFactor' :=
    approach (currentDistortionFactor s) targetDistortionFactor'
      settings.distortionSmoothing in
  let slides' :=
    forEach
      (updateSlide slideWidth gap slideCount (updateCurve Math)
         currentPosition' currentDistortionFactor')
      (slides s) in
  {| frame_deltaTime := deltaTime;
     frame_currentVelocity := currentVelocity;
     frame_avgVelocity := avgVelocity;
     frame_peak := peakVelocity1;
     frame_isDecelerating := isDecelerating;
     frame_movementDistortion := movementDistortion;
   frame_targetAfterRise := targetDistortionFactor1;
     frame_decayRate := decayRate;
     frame_refs :=
       {| slides := slides';
          currentPosition := currentPosition';
          targetPosition := targetPosition';
          isScrolling := isScrolling s;
          isDragging := isDragging s;
          touchStartX := touchStartX s;
          touchLastX := touchLastX s;
          dragStartX := dragStartX s;
          dragLastX := dragLastX s;
          autoScrollSpeed := autoScrollSpeed';
          lastTime := lastTime';
          prevPosition := prevPosition';
          currentDistortionFactor := currentDistortionFactor';
          targetDistortionFactor := targetDistortionFactor';
          peakVelocity := peakVelocity';
          velocityHistory := velocityHistory' |} |}.

Definition animate (time : num) (s : Refs) : Refs := frame_refs (frame time s).

Definition handleWheel (deltaY : num) (s : Refs) : Refs :=
  let wheelStrength := Num.min (Num.abs deltaY * Fin 0.001) (Fin 1.0) in
  let s := set_targetDistortionFactor
             (Num.min (Fin 1.0) (targetDistortionFactor s + wheelStrength)) s in
  let s := set_targetPosition
             (targetPosition s - deltaY * settings.wheelSensitivity) s in
  let s := set_isScrolling true s in
  set_autoScrollSpeed
    (Num.min (Num.abs deltaY * Fin 0.0005) (Fin 0.05) * Num.sign deltaY) s.

Definition handleKeyDown (key : Key) (s : Refs) : Refs :=
  match key with
  | ArrowLeft =>
      let s := set_targetPosition
                 (targetPosition s + slideUnit slideWidth gap) s in
      set_targetDistortionFactor
        (Num.min (Fin 1.0) (targetDistortionFactor s + Fin 0.3)) s
  | ArrowRight =>
      let s := set_targetPosition
                 (targetPosition s - slideUnit slideWidth gap) s in
      set_targetDistortionFactor
        (Num.min (Fin 1.0) (targetDistortionFactor s + Fin 0.3)) s
  | OtherKey => s
  end.

Definition handleTouchStart (clientX : num) (s : Refs) : Refs :=
  let s := set_touchStartX clientX s in
  let s := set_touchLastX (touchStartX s) s in
  let s := set_isScrolling false s in
  let s := set_autoScrollSpeed (Fin 0) s in
  set_peakVelocity (Fin 0) s.

Definition handleTouchMove (clientX : num) (s : Refs) : Refs :=
  let touchX := clientX in
  let deltaX := touchX - touchLastX s in
  let s := set_touchLastX touchX s in
  let touchStrength := Num.min (Num.abs deltaX * Fin 0.02) (Fin 1.0) in
  let s := set_targetDistortionFactor
             (Num.min (Fin 1.0) (targetDistortionFactor s + touchStrength)) s in
  set_targetPosition
    (targetPosition s - deltaX * settings.touchSensitivity) s.

Definition handleTouchEnd (s : Refs) : Refs :=
  let velocity := (touchLastX s - touchStartX s) * Fin 0.005 in
  if Num.abs velocity >? Fin 0.5 then
    let s := set_autoScrollSpeed
               (- velocity * settings.momentumMultiplier * Fin 0.05) s in
    let s := set_targetDistortionFactor
               (Num.min (Fin 1.0)
                  (Num.abs velocity * Fin 3 * settings.distortionSensitivity)) s in
    set_isScrolling true s
  else set_isScrolling false s.

Definition scrollTimeout (s : Refs) : Refs := set_isScrolling false s.

Definition step (s : Refs) (e : Event) : Refs :=
  match e with
  | Wheel deltaY => handleWheel deltaY s
  | KeyDown key => handleKeyDown key s
  | TouchStart clientX => handleTouchStart clientX s
  | TouchMove clientX => handleTouchMove clientX s
  | TouchEnd => handleTouchEnd s
  | TimerFired => scrollTimeout s
  | AnimationFrame time => animate time s
  | MouseDown _ _ | MouseMove _ | MouseUp => s
  end.

End Component.
End Slider.

(** ** [Draggable]: [ThreeSliderDraggable.tsx] *)

Module Draggable.
Section Component.

Variable Math : MathObject.
Variables slideWidth gap slideCount : num.

Definition frame (time : num) (s : Refs) : Frame :=
  let deltaTime :=
    if Num.truthy (lastTime s)
    then (time - lastTime s) / Fin 1000
    else Fin 0.016 in
  let lastTime' := time in
  let prevPosition' := currentPosition s in
  let '(targetPosition', autoScrollSpeed') :=
    if negb (isDragging s) && (Num.abs (autoScrollSpeed s) >? Fin 0.001)
    then applyMomentum (targetPosition s) (autoScrollSpeed s)
    else if negb (isDragging s)
    then (targetPosition s, Fin 0)
    else (targetPosition s, autoScrollSpeed s) in
  let currentPosition' :=
    approach (currentPosition s) targetPosition' settings.smoothing in
  let currentVelocity :=
    Num.max (Fin 0) (Num.abs (currentPosition' - prevPosition') / deltaTime) in
  let velocityHistory' := pushShift (velocityHistory s) currentVelocity in
  let avgVelocity := average velocityHistory' in
  let peakVelocity1 := raisePeak avgVelocity (peakVelocity s) in
  let isDecelerating := isDecelerating avgVelocity peakVelocity1 in
  let peakVelocity' := peakVelocity1 * Fin 0.99 in
  let movementDistortion := movementDistortion currentVelocity in
  let targetDistortionFactor1 :=
    if (currentVelocity >? Fin 0.05) || isDragging s
    then Num.max (targetDistortionFactor s) movementDistortion
    else targetDistortionFactor s in
  let decayRate :=
    if isDecelerating || (avgVelocity <? Fin 0.2) || negb (isDragging s)
    then settings.distortionDecay
    else settings.distortionDecay * Fin 0.98 in
  let targetDistortionFactor' := targetDistortionFactor1 * decayRate in
  let currentDistortionFactor' :=
    approach (currentDistortionFactor s) targetDistortionFactor'
      settings.distortionSmoothing in
  let slides' :=
    forEach
      (updateSlide slideWidth gap slideCount (updateCurve Math)
         currentPosition' currentDistortionFactor')
      (slides s) in
  {| frame_deltaTime := deltaTime;
     frame_currentVelocity := currentVelocity;
     frame_avgVelocity := avgVelocity;
     frame_peak := peakVelocity1;
     frame_isDecelerating := isDecelerating;
     frame_movementDistortion := movementDistortion;
   frame_targetAfterRise := targetDistortionFactor1;
     frame_decayRate := decayRate;
     frame_refs :=
       {| slides := slides';
          currentPosition := currentPosition';
          targetPosition := targetPosition';
          isScrolling := isScrolling s;
          isDragging := isDragging s;
          touchStartX := touchStartX s;
          touchLastX := touchLastX s;
          dragStartX := dragStartX s;
          dragLastX := dragLastX s;
          autoScrollSpeed := autoScrollSpeed';
          lastTime := lastTime';
          prevPosition := prevPosition';
          currentDistortionFactor := currentDistortionFactor';
          targetDistortionFactor := targetDistortionFactor';
          peakVelocity := peakVelocity';
          velocityHistory := velocityHistory' |} |}.

Definition animate (time : num) (s : Refs) : Refs := frame_refs (frame time s).

Definition handleMouseDown (clientX : num) (intersects : bool) (s : Refs) : Refs :=
  if intersects then
    let s := set_isDragging true s in
    let s := set_dragStartX clientX s in
    let s := set_dragLastX clientX s in
    let s := set_autoScrollSpeed (Fin 0) s in
    set_peakVelocity (Fin 0) s
  else s.

Definition handleMouseMove (clientX : num) (s : Refs) : Refs :=
  if isDragging s then
    let currentX := clientX in
    let deltaX := currentX - dragLastX s in
    let s := set_dragLastX currentX s in
    let dragStrength := Num.min (Num.abs deltaX * Fin 0.02) (Fin 1.0) in
    let s := set_targetDistortionFactor
               (Num.min (Fin 1.0) (targetDistortionFactor s + dragStrength)) s in
    set_targetPosition
      (targetPosition s - deltaX * settings.dragSensitivity) s
  else s.

Definition handleMouseUpOrLeave (s : Refs) : Refs :=
  let wasDragging := isDragging s in
  if wasDragging then
    let s := set_isDragging false s in
    let velocity := (dragLastX s - dragStartX s) * Fin 0.005 in
    if Num.abs velocity >? Fin 0.5 then
      let s := set_autoScrollSpeed
                 (- velocity * settings.momentumMultiplier * Fin 0.05) s in
      set_targetDistortionFactor
        (Num.min (Fin 1.0)
           (targetDistortionFactor s
            + Num.abs velocity * settings.distortionSensitivity * Fin 1.5)) s
    else s
  else s.

Definition handleKeyDown (key : Key) (s : Refs) : Refs :=
  let currentSlideUnit := slideWidth + gap in
  match key with
  | ArrowLeft =>
      let s := set_targetPosition (targetPosition s + currentSlideUnit) s in
      set_targetDistortionFactor
        (Num.min (Fin 1.0) (targetDistortionFactor s + Fin 0.3)) s
  | ArrowRight =>
      let s := set_targetPosition (targetPosition s - currentSlideUnit) s in
      set_targetDistortionFactor
        (Num.min (Fin 1.0) (targetDistortionFactor s + Fin 0.3)) s
  | OtherKey => s
  end.

Definition step (s : Refs) (e : Event) : Refs :=
  match e with
  | MouseDown clientX intersects => handleMouseDown clientX intersects s
  | MouseMove clientX => handleMouseMove clientX s
  | MouseUp => handleMouseUpOrLeave s
  | KeyDown key => handleKeyDown key s
  | AnimationFrame time => animate time s
  | Wheel _ | TouchStart _ | TouchMove _ | TouchEnd | TimerFired => s
  end.

End Component.
End Draggable.

(** Running a component over a sequence of events. *)
Definition run (step : Refs -> Event -> Refs) (s : Refs) (events : list Event) : Refs :=
  fold_left step events s.

(** ** Statements and sample data *)

(** The positive remainder [((x % t) + t) % t] on rationals. *)
Definition Qwrap (x t : Q) : Q := Num.Qrem (Num.Qrem x t + t)%Q t.

(** [x] lies in the half-open interval [(-T/2, T/2]]. *)
Definition in_wrap_interval (T x : num) : Prop :=
  Num.lt (- (T / Fin 2)) x /\ Num.le x (T / Fin 2).

(** The value of [wrapBase] for finite dimensions [w], [g], [n] and a
    finite scroll offset [p], in rationals. *)
Definition Qbase (w g n : Q) (i : nat) (p : Q) : Q :=
  let T := (n * (w + g))%Q in
  let b := Qwrap (inject_Z (Z.of_nat i) * (w + g) + - p)%Q T in
  if Num.Qltb (T / 2) b then (b + - T)%Q else b.

(** A slide at rest at [x] (no geometry attached): sample data. *)
Definition slideAt (i : nat) (x : num) : Mesh :=
  {| position_x := x; scale_x := Fin 1; scale_y := Fin 1;
     position_array := []; originalVertices := [];
     index := i; targetX := x; currentX := x |}.

(** [deltaTime] as [animate] computes it from the time stamp it is called
    with and the one it stored on the previous call. *)
Definition deltaTimeOf (time : num) (s : Refs) : num :=
  if Num.truthy (lastTime s)
  then (time - lastTime s) / Fin 1000
  else Fin 0.016.

(** [x] lies in [[0, 1]]. *)
Definition in_unit (x : num) : Prop := Num.le (Fin 0) x /\ Num.le x (Fin 1).

(** The refs from which positions and momentum are computed hold numbers
    (not [NaN] or an infinity), as they do after mount. *)
Definition positioned (s : Refs) : Prop :=
  Num.finite (currentPosition s) /\ Num.finite (targetPosition s)
  /\ Num.finite (autoScrollSpeed s)
  /\ Num.finite (touchStartX s) /\ Num.finite (touchLastX s)
  /\ Num.finite (dragStartX s) /\ Num.finite (dragLastX s).

(** An event the browser can deliver in state [s]: its coordinates are
    numbers, and a frame comes with a positive [deltaTime]. *)
Definition deliverable (s : Refs) (e : Event) : Prop :=
  match e with
  | Wheel deltaY => Num.finite deltaY
  | TouchStart clientX | TouchMove clientX
  | MouseDown clientX _ | MouseMove clientX => Num.finite clientX
  | AnimationFrame time => Num.lt (Fin 0) (deltaTimeOf time s)
  | KeyDown _ | TouchEnd | TimerFired | MouseUp => True
  end.

Fixpoint deliverableRun (step : Refs -> Event -> Refs) (s : Refs)
    (events : list Event) : Prop :=
  match events with
  | [] => True
  | e :: rest => deliverable s e /\ deliverableRun step (step s e) rest
  end.

(** The largest value [targetDistortionFactor] takes in the states a run
    goes through, the first and the last included. *)
Fixpoint maxTarget (step : Refs -> Event -> Refs) (s : Refs)
    (events : list Event) : num :=
  match events with
  | [] => targetDistortionFactor s
  | e :: rest =>
      Num.max (targetDistortionFactor s) (maxTarget step (step s e) rest)
  end.

(** The refs right after mount, before the first frame: the strip is
    centred, nothing moves, and [lastTime] is the time of mount. *)
Definition mounted (slides : list Mesh) (totalWidth now : num) : Refs :=
  {| slides := slides;
     currentPosition := - totalWidth / Fin 2;
     targetPosition := - totalWidth / Fin 2;
     isScrolling := false;
     isDragging := false;
     touchStartX := Fin 0;
     touchLastX := Fin 0;
     dragStartX := Fin 0;
     dragLastX := Fin 0;
     autoScrollSpeed := Fin 0;
     lastTime := now;
     prevPosition := Fin 0;
     currentDistortionFactor := Fin 0;
     targetDistortionFactor := Fin 0;
     peakVelocity := Fin 0;
     velocityHistory := [Fin 0; Fin 0; Fin 0; Fin 0; Fin 0] |}.

(** Sample data: refs with no slide attached, given by the fields the
    frame update reads. *)
Definition sampleRefs (currentPosition targetPosition autoScrollSpeed : num)
    (isScrolling isDragging : bool)
    (lastTime targetDistortionFactor currentDistortionFactor peakVelocity : num)
    (velocityHistory : list num) : Refs :=
  {| slides := [];
     currentPosition := currentPosition;
     targetPosition := targetPosition;
     isScrolling := isScrolling;
     isDragging := isDragging;
     touchStartX := Fin 0;
     touchLastX := Fin 0;
     dragStartX := Fin 0;
     dragLastX := Fin 0;
     autoScrollSpeed := autoScrollSpeed;
     lastTime := lastTime;
     prevPosition := currentPosition;
     currentDistortionFactor := currentDistortionFactor;
     targetDistortionFactor := targetDistortionFactor;
     peakVelocity := peakVelocity;
     velocityHistory := velocityHistory |}.

(** In the middle of a fast drag or scroll: one unit behind the target,
    6 units per second over the last five frames. *)
Definition movingFast (isScrolling isDragging : bool) : Refs :=
  sampleRefs (Fin 0) (Fin 1) (Fin 0) isScrolling isDragging
    (Fin 1000) (Fin 0.9) (Fin 0.5) (Fin 6)
    [Fin 6; Fin 6; Fin 6; Fin 6; Fin 6].

(** Coming to rest: the last frames were slow, this one is slower. *)
Definition slowingDown : Refs :=
  sampleRefs (Fin 0) (Fin 0.0075) (Fin 0) false false
    (Fin 1000) (Fin 0) (Fin 0) (Fin 0.08)
    [Fin 0.08; Fin 0.0714; Fin 0.0643; Fin 0.0579; Fin 0.0521].

(** One unit behind the target, at rest before. *)
Definition behindTarget : Refs :=
  sampleRefs (Fin 0) (Fin 1) (Fin 0) false false
    (Fin 1000) (Fin 0) (Fin 0) (Fin 0)
    [Fin 0; Fin 0; Fin 0; Fin 0; Fin 0].

(** Momentum left over with the activity flag set as given. *)
Definition coasting (isScrolling isDragging : bool) : Refs :=
  sampleRefs (Fin 0) (Fin 0) (Fin 0.03) isScrolling isDragging
    (Fin 1000) (Fin 0) (Fin 0) (Fin 0)
    [Fin 0; Fin 0; Fin 0; Fin 0; Fin 0].

(** Stand-ins for the host's functions, for data on which their values do
    not matter. *)
Definition sampleMath : MathObject :=
  mkMath (fun x => x) (fun x => x) (fun x _ => x) (Fin 3).

(** Frames of the three components with the default props. *)
Definition draggableFrame (time : num) (s : Refs) : Frame :=
  Draggable.frame sampleMath (Fin 3.0) (Fin 0.1) (Fin 10) time s.

Definition sliderFrame (time : num) (s : Refs) : Frame :=
  Slider.frame sampleMath (Fin 3.0) (Fin 0.1) (Fin 10) time s.

Definition legacyFrame (time : num) (s : Refs) : Frame :=
  Legacy.frame sampleMath time s.

(** [Legacy], mounted at time 1000: the first frame, one wheel notch, one
    more frame, and the scroll-end timeout. *)
Definition legacyAfterWheel : Refs :=
  run (Legacy.step sampleMath) (mounted [] Legacy.totalWidth (Fin 1000))
    [AnimationFrame (Fin 1000); Wheel (Fin 100); AnimationFrame (Fin 1016);
     TimerFired].

(** While a drag is in progress [autoScrollSpeed] is zero: the press that
    starts the drag clears it, and nothing sets it before the release. *)
Definition restingWhileDragged (s : Refs) : Prop :=
  isDragging s = true -> autoScrollSpeed s = Fin 0.

(** The invariant of the distortion state: the position refs hold numbers
    and both distortion factors lie in [[0, 1]]. *)
Definition bounded (s : Refs) : Prop :=
  positioned s
  /\ in_unit (targetDistortionFactor s)
  /\ in_unit (currentDistortionFactor s).

(** A press on a slide, a drag of 50 pixels, a frame, the release and one
    more frame. *)
Definition dragSample : list Event :=
  [MouseDown (Fin 100) true; MouseMove (Fin 150); AnimationFrame (Fin 1016);
   MouseUp; AnimationFrame (Fin 1032)].

(** A mesh of two vertices, one at each upper corner of a slide. *)
Definition twoVertexMesh : Mesh :=
  {| position_x := Fin 0; scale_x := Fin 1; scale_y := Fin 1;
     position_array := [Fin (-1.5); Fin 0.75; Fin 0; Fin 1.5; Fin 0.75; Fin 0];
     originalVertices := [Fin (-1.5); Fin 0.75; Fin 0; Fin 1.5; Fin 0.75; Fin 0];
     index := 0; targetX := Fin 0; currentX := Fin 0 |}.

(** A velocity sample is [NaN] (a frame with [0 / 0]) or a non-negative
    number. *)
Definition sampled (v : num) : Prop := v = NaN \/ Num.le (Fin 0) v.

(** The invariant of the velocity tracker: the history holds five samples,
    the peak is a non-negative number, and it is zero for as long as the
    history holds a [NaN]. *)
Definition tracked (s : Refs) : Prop :=
  bounded s
  /\ Num.le (Fin 0) (peakVelocity s)
  /\ Forall sampled (velocityHistory s)
  /\ length (velocityHistory s) = 5%nat
  /\ (In NaN (velocityHistory s) -> peakVelocity s =~ Fin 0).

(** ** Creating the slides, mounting, and the host *)

(** [x === 0]. *)
Definition isZero (a : num) : bool :=
  match a with Fin x => Num.Qeqb0 x | _ => false end.

(** [createSlide]: the mesh as it is pushed to [slides], before its texture
    has loaded.  [geometry] is the position array of the
    [THREE.PlaneGeometry] of the slide; the scale of a new mesh is 1. *)
Definition createSlide (slideWidth gap : num) (geometry : list num)
    (index : nat) : Mesh :=
  let position_x := Num.of_nat index * slideUnit slideWidth gap in
  {| position_x := position_x;
     scale_x := Fin 1; scale_y := Fin 1;
     position_array := geometry;
     originalVertices := geometry;
     index := index;
     targetX := position_x;
     currentX := position_x |}.

(** [(index % imagesCount) + 1], the number in the image path of a slide,
    and [index % colors.length], the place of its fallback colour. *)
Definition imageIndex (imagesCount : num) (index : nat) : num :=
  Num.of_nat index %% imagesCount + Fin 1.

Definition colorIndex (index : nat) : num := Num.of_nat index %% Fin 5.

(** The centring of a slide at mount. *)
Definition centreSlide (totalWidth : num) (slide : Mesh) : Mesh :=
  let slide := with_position_x slide (position_x slide - totalWidth / Fin 2) in
  with_layout slide (position_x slide) (position_x slide).

(** The slides after the [for] loop over [createSlide] and the centring
    [forEach], for a whole number [count] of slides. *)
Definition mountSlides (slideWidth gap : num) (geometry : list num)
    (count : nat) : list Mesh :=
  map (centreSlide (totalWidth slideWidth gap (Num.of_nat count)))
    (map (createSlide slideWidth gap geometry) (seq 0 count)).

(** The refs of a component that has not mounted yet ([useRef]). *)
Definition initialRefs : Refs :=
  {| slides := [];
     currentPosition := Fin 0;
     targetPosition := Fin 0;
     isScrolling := false;
     isDragging := false;
     touchStartX := Fin 0;
     touchLastX := Fin 0;
     dragStartX := Fin 0;
     dragLastX := Fin 0;
     autoScrollSpeed := Fin 0;
     lastTime := Fin 0;
     prevPosition := Fin 0;
     currentDistortionFactor := Fin 0;
     targetDistortionFactor := Fin 0;
     peakVelocity := Fin 0;
     velocityHistory := [Fin 0; Fin 0; Fin 0; Fin 0; Fin 0] |}.

(** What mount writes to the refs before it calls [animate]: the slides,
    both positions and [lastTime]; the other refs keep their value. *)
Definition mountRefs (slides : list Mesh) (totalWidth now : num) (s : Refs) : Refs :=
  {| slides := slides;
     currentPosition := - totalWidth / Fin 2;
     targetPosition := - totalWidth / Fin 2;
     isScrolling := isScrolling s;
     isDragging := isDragging s;
     touchStartX := touchStartX s;
     touchLastX := touchLastX s;
     dragStartX := dragStartX s;
     dragLastX := dragLastX s;
     autoScrollSpeed := autoScrollSpeed s;
     lastTime := now;
     prevPosition := prevPosition s;
     currentDistortionFactor := currentDistortionFactor s;
     targetDistortionFactor := targetDistortionFactor s;
     peakVelocity := peakVelocity s;
     velocityHistory := velocityHistory s |}.

(** The camera and the renderer: the aspect of the one, the size and the
    pixel ratio of the other. *)
Record View : Type := mkView {
  view_aspect : num;
  view_width : num;
  view_height : num;
  view_pixelRatio : num
}.

(** A mounted [Draggable]: its refs, the camera and renderer ([None] for
    the null refs), whether its listeners and frame loop are running, and
    whether the 50 ms re-check of a zero-size container is pending. *)
Record Host : Type := mkHost {
  host_refs : Refs;
  host_view : option View;
  host_listening : bool;
  host_recheck : bool
}.

(** The image fit of the [imageFitMode] prop. *)
Inductive FitMode : Type := contain | cover.

Definition with_scale_x (mesh : Mesh) (v : num) : Mesh :=
  {| position_x := position_x mesh;
     scale_x := v; scale_y := scale_y mesh;
     position_array := position_array mesh;
     originalVertices := originalVertices mesh;
     index := index mesh;
     targetX := targetX mesh; currentX := currentX mesh |}.

Definition with_scale_y (mesh : Mesh) (v : num) : Mesh :=
  {| position_x := position_x mesh;
     scale_x := scale_x mesh; scale_y := v;
     position_array := position_array mesh;
     originalVertices := originalVertices mesh;
     index := index mesh;
     targetX := targetX mesh; currentX := currentX mesh |}.

(** The texture-load callback of [createSlide] in [Slider] and
    [Draggable], as far as the mesh goes: [image_width] and [image_height]
    are the size of the loaded image. *)
Definition onTextureLoad (imageFitMode : FitMode)
    (slideWidth slideHeight image_width image_height : num)
    (mesh : Mesh) : Mesh :=
  let imgAspect := image_width / image_height in
  let slideAspect := slideWidth / slideHeight in
  let mesh := with_scale_y (with_scale_x mesh (Fin 1)) (Fin 1) in
  match imageFitMode with
  | contain =>
      if imgAspect >? slideAspect
      then with_scale_y mesh (slideAspect / imgAspect)
      else with_scale_x mesh (imgAspect / slideAspect)
  | cover =>
      if imgAspect >? slideAspect
      then with_scale_x mesh (imgAspect / slideAspect)
      else with_scale_y mesh (slideAspect / imgAspect)
  end.

(** The same callback in [Legacy]: no fit mode, and no reset of the
    scale. *)
Definition onTextureLoad_legacy (image_width image_height : num)
    (mesh : Mesh) : Mesh :=
  let imgAspect := image_width / image_height in
  let slideAspect := Legacy.slideWidth / Legacy.slideHeight in
  if imgAspect >? slideAspect
  then with_scale_y mesh (slideAspect / imgAspect)
  else with_scale_x mesh (imgAspect / slideAspect).

(** [getBoundingClientRect] of the canvas. *)
Record Rect : Type := mkRect {
  rect_left : num;
  rect_top : num;
  rect_width : num;
  rect_height : num
}.

(** The pointer in normalised device coordinates, as
    [checkSlideIntersection] writes it to [mouse]. *)
Definition pointerNDC (rect : Rect) (clientX clientY : num) : num * num :=
  ((clientX - rect_left rect) / rect_width rect * Fin 2 - Fin 1,
   - ((clientY - rect_top rect) / rect_height rect) * Fin 2 + Fin 1).

(** [checkSlideIntersection] of [Draggable].  [camera] tells whether the
    camera ref is set, [canvas] is the rectangle of the canvas when the
    canvas ref is set, and [intersectObjects] is the ray caster's answer for
    a pointer in device coordinates. *)
Definition checkSlideIntersection (camera : bool) (slides : list Mesh)
    (canvas : option Rect)
    (intersectObjects : num * num -> list Mesh -> list Mesh)
    (clientX clientY : num) : bool :=
  match canvas with
  | None => false
  | Some rect =>
      if negb camera || (length slides =? 0)%nat then false
      else if isZero (rect_width rect) || isZero (rect_height rect) then false
      else
        let mouse := pointerNDC rect clientX clientY in
        let intersects := intersectObjects mouse slides in
        (0 <? length intersects)%nat
  end.

(** Powers of a rational, for the geometric decay of errors and
    momentum. *)
Fixpoint Qpow (q : Q) (n : nat) : Q :=
  match n with
  | O => 1%Q
  | S m => (q * Qpow q m)%Q
  end.

(** A slide lies in the band of the strip: [-T/2 <= currentX <= T/2]. *)
Definition inBand (T : num) (slide : Mesh) : Prop :=
  Num.le (- (T / Fin 2)) (currentX slide) /\ Num.le (currentX slide) (T / Fin 2).

(** Mount and resize of [Draggable] (the [useEffect] of the component),
    for a whole number [count] of slides. *)
Module DraggableHost.
Section Component.

Variable Math : MathObject.
Variables slideWidth gap : num.
Variable count : nat.
Variable geometry : list num.

(** [handleResize]; [container] is the client size of the container when
    its ref is set. *)
Definition handleResize (container : option (num * num))
    (devicePixelRatio : num) (h : Host) : Host :=
  match container, host_view h with
  | Some (width, height), Some _ =>
      if isZero width || isZero height then h
      else
        {| host_refs := host_refs h;
           host_view :=
             Some {| view_aspect := width / height;
                     view_width := width;
                     view_height := height;
                     view_pixelRatio := Num.min devicePixelRatio (Fin 2) |};
           host_listening := host_listening h;
           host_recheck := host_recheck h |}
  | _, _ => h
  end.

(** The effect, run with the container at [clientWidth] by [clientHeight]
    and the clock at [now].  With a zero-size container it only schedules
    the re-check and returns. *)
Definition mount (clientWidth clientHeight devicePixelRatio now : num)
    (h : Host) : Host :=
  if isZero clientWidth || isZero clientHeight then
    {| host_refs := host_refs h;
       host_view := host_view h;
       host_listening := host_listening h;
       host_recheck := true |}
  else
    let aspectRatio := clientWidth / clientHeight in
    let view :=
      {| view_aspect := aspectRatio;
         view_width := clientWidth;
         view_height := clientHeight;
         view_pixelRatio := Num.min devicePixelRatio (Fin 2) |} in
    let effectSlideCount := Num.of_nat count in
    let effectTotalWidth := effectSlideCount * (slideWidth + gap) in
    let slides := mountSlides slideWidth gap geometry count in
    let s := mountRefs slides effectTotalWidth now (host_refs h) in
    {| host_refs := Draggable.animate Math slideWidth gap effectSlideCount now s;
       host_view := Some view;
       host_listening := true;
       host_recheck := host_recheck h |}.

End Component.
End DraggableHost.

(** A component that has never mounted. *)
Definition initialHost : Host :=
  {| host_refs := initialRefs; host_view := None;
     host_listening := false; host_recheck := false |}.

(** How often a key occurs in a sequence of key presses. *)
Fixpoint countKey (k : Key) (keys : list Key) : nat :=
  match keys with
  | [] => O
  | key :: rest =>
      match k, key with
      | ArrowLeft, ArrowLeft | ArrowRight, ArrowRight | OtherKey, OtherKey =>
          S (countKey k rest)
      | _, _ => countKey k rest
      end
  end.

(** Events of a drag under way: pointer moves and frames. *)
Definition dragging (e : Event) : Prop :=
  match e with
  | MouseMove clientX => Num.finite clientX
  | AnimationFrame _ => True
  | _ => False
  end.

(** Pointer events that miss every slide, with no drag under way: moves,
    releases, and presses beside the slides. *)
Definition hovering (e : Event) : Prop :=
  match e with
  | MouseMove _ | MouseUp | MouseDown _ false => True
  | _ => False
  end.

Definition isFrame (e : Event) : Prop :=
  match e with AnimationFrame _ => True | _ => False end.

(** A slide that has been laid out by a frame: it lies in the band, the
    culling test of the frame passed, and the mesh sits where the slide
    is. *)
Definition drawn (slideWidth totalWidth : num) (slide : Mesh) : Prop :=
  inBand totalWidth slide
  /\ position_x slide = currentX slide
  /\ (Num.abs (currentX slide) <? (totalWidth / Fin 2 + slideWidth) * Fin 1.5)
     = true.

(** Events of a touch under way: moves of the finger, frames, and a
    scroll-end timeout left over from before the touch. *)
Definition touching (e : Event) : Prop :=
  match e with
  | TouchMove clientX => Num.finite clientX
  | AnimationFrame _ | TimerFired => True
  | _ => False
  end.

(** * Properties *)

(** ** Rational arithmetic behind the number operations *)

Section QFacts.

Local Open Scope Q_scope.

Lemma Qltb_true (x y : Q) : Num.Qltb x y = true <-> x < y.
Proof.
  unfold Num.Qltb. rewrite Qlt_alt. destruct (x ?= y); split; congruence.
Qed.

Lemma Qltb_false (x y : Q) : Num.Qltb x y = false <-> y <= x.
Proof.
  unfold Num.Qltb. rewrite Qge_alt. destruct (x ?= y); split; congruence.
Qed.

Lemma Qeqb0_true (x : Q) : Num.Qeqb0 x = true <-> x == 0.
Proof.
  unfold Num.Qeqb0. rewrite Qeq_alt. destruct (x ?= 0); split; congruence.
Qed.

Lemma Qeqb0_false (x : Q) : Num.Qeqb0 x = false <-> ~ x == 0.
Proof.
  rewrite <- Qeqb0_true. destruct (Num.Qeqb0 x); split; congruence.
Qed.

Lemma inject_Z_m1 : inject_Z (- (1)) == - (1).
Proof. reflexivity. Qed.

Lemma Qtrunc_nonneg (q : Q) :
  0 <= q -> inject_Z (Num.Qtrunc q) <= q /\ q < inject_Z (Num.Qtrunc q) + 1.
Proof.
  intros Hq. unfold Num.Qtrunc.
  destruct (Num.Qltb q 0) eqn:E.
  - apply Qltb_true in E. lra.
  - split; [apply Qfloor_le |].
    rewrite <- (inject_Z_plus _ 1). apply Qlt_floor.
Qed.

Lemma Qtrunc_neg (q : Q) :
  q < 0 -> inject_Z (Num.Qtrunc q) - 1 < q /\ q <= inject_Z (Num.Qtrunc q).
Proof.
  intros Hq. unfold Num.Qtrunc.
  destruct (Num.Qltb q 0) eqn:E.
  - split; [| apply Qle_ceiling].
    pose proof (Qceiling_lt q) as H.
    unfold Z.sub in H. rewrite inject_Z_plus in H.
    pose proof inject_Z_m1. lra.
  - apply Qltb_false in E. lra.
Qed.

(** [x % t] keeps the sign of [x] and is smaller than [t] in magnitude. *)
Lemma Qrem_nonneg (x t : Q) :
  0 < t -> 0 <= x -> 0 <= Num.Qrem x t /\ Num.Qrem x t < t.
Proof.
  intros Ht Hx. unfold Num.Qrem.
  assert (Hq : t * (x / t) == x) by (apply Qmult_div_r; lra).
  assert (H0 : 0 <= x / t) by nra.
  destruct (Qtrunc_nonneg _ H0) as [H1 H2].
  split; nra.
Qed.

Lemma Qrem_neg (x t : Q) :
  0 < t -> x < 0 -> - t < Num.Qrem x t /\ Num.Qrem x t <= 0.
Proof.
  intros Ht Hx. unfold Num.Qrem.
  assert (Hq : t * (x / t) == x) by (apply Qmult_div_r; lra).
  assert (H0 : x / t < 0) by nra.
  destruct (Qtrunc_neg _ H0) as [H1 H2].
  split; nra.
Qed.

Lemma Qrem_range (x t : Q) :
  0 < t -> - t < Num.Qrem x t /\ Num.Qrem x t < t.
Proof.
  intros Ht. destruct (Qlt_le_dec x 0) as [H | H].
  - pose proof (Qrem_neg x t Ht H). lra.
  - pose proof (Qrem_nonneg x t Ht H). lra.
Qed.

Lemma Qwrap_range (x t : Q) : 0 < t -> 0 <= Qwrap x t /\ Qwrap x t < t.
Proof.
  intros Ht. unfold Qwrap.
  pose proof (Qrem_range x t Ht).
  apply Qrem_nonneg; lra.
Qed.


(** Two points of [[0, t)] that differ by a whole number of [t] agree. *)
Lemma multiple_small (a b t : Q) (k : Z) :
  0 < t -> 0 <= a -> a < t -> 0 <= b -> b < t ->
  a == b + t * inject_Z k -> a == b.
Proof.
  intros Ht Ha1 Ha2 Hb1 Hb2 E.
  assert (k = 0)%Z as ->.
  { destruct (Z_lt_le_dec k 1) as [H1 | H1].
    - destruct (Z_lt_le_dec (-1) k) as [H2 | H2]; [lia |].
      exfalso.
      assert (inject_Z k <= inject_Z (-1)) by (rewrite <- Zle_Qle; lia).
      change (inject_Z (-1)) with (-1) in *. nra.
    - exfalso.
      assert (inject_Z 1 <= inject_Z k) by (rewrite <- Zle_Qle; lia).
      change (inject_Z 1) with 1 in *. nra. }
  change (inject_Z 0) with 0 in E. lra.
Qed.


End QFacts.

(** ** Numbers *)

Section NumFacts.

Lemma finite_inv (a : num) : Num.finite a -> exists q, a = Fin q.
Proof. destruct a; simpl; intros H; try contradiction. eauto. Qed.

Lemma add_finite_inv (a b : num) :
  Num.finite (a + b) -> Num.finite a /\ Num.finite b.
Proof. destruct a, b; simpl; auto. Qed.

Lemma mul_finite_inv (a b : num) :
  Num.finite (a * b) -> Num.finite a /\ Num.finite b.
Proof.
  destruct a, b; simpl; auto; unfold Num.scale_inf;
    destruct (q ?= 0)%Q; simpl; auto.
Qed.

Lemma lt_finite (a b : num) : Num.lt a b -> Num.finite a /\ Num.finite b.
Proof. destruct a, b; simpl; auto. Qed.

Lemma le_finite (a b : num) : Num.le a b -> Num.finite a /\ Num.finite b.
Proof. destruct a, b; simpl; auto. Qed.

Lemma div_fin (x y : Q) : ~ (y == 0)%Q -> Fin x / Fin y = Fin (x / y).
Proof. intros H. simpl. apply Qeqb0_false in H. now rewrite H. Qed.

Lemma rem_fin (x t : Q) : ~ (t == 0)%Q -> Fin x %% Fin t = Fin (Num.Qrem x t).
Proof. intros H. simpl. apply Qeqb0_false in H. now rewrite H. Qed.

Lemma div_fin_2 (x : Q) : Fin x / Fin 2 = Fin (x / 2).
Proof. reflexivity. Qed.

Lemma num_eq_refl (a : num) : a =~ a.
Proof. destruct a; simpl; auto. reflexivity. Qed.

Lemma num_eq_sym (a b : num) : a =~ b -> b =~ a.
Proof. destruct a, b; simpl; auto. intros H; now symmetry. Qed.

Lemma num_eq_trans (a b c : num) : a =~ b -> b =~ c -> a =~ c.
Proof.
  destruct a, b, c; simpl; auto; try contradiction.
  intros H1 H2. now rewrite H1.
Qed.

End NumFacts.

(** Case analysis on a rational test of the goal (an innermost one) or of
    a hypothesis. *)
Ltac qtest_on a b :=
  lazymatch a with
  | context [Num.Qltb _ _] => fail
  | _ =>
      lazymatch b with
      | context [Num.Qltb _ _] => fail
      | _ =>
          let E := fresh "E" in
          destruct (Num.Qltb a b) eqn:E;
          [apply Qltb_true in E | apply Qltb_false in E]
      end
  end.

Ltac qtest :=
  match goal with
  | |- context [Num.Qltb ?a ?b] => qtest_on a b
  | H : context [Num.Qltb ?a ?b] |- _ => qtest_on a b
  | |- context [Num.Qeqb0 ?a] =>
      let E := fresh "E" in
      destruct (Num.Qeqb0 a) eqn:E;
      [apply Qeqb0_true in E | apply Qeqb0_false in E]
  end.

(** ** Wrap layout *)

Section WrapFacts.

Variables w g n : Q.
Hypothesis Hpos : (0 < n * (w + g))%Q.

Let T : Q := (n * (w + g))%Q.

Lemma wrapBase_fin (i : nat) (p : Q) :
  wrapBase (Fin w) (Fin g) (Fin n) i (Fin p) = Fin (Qbase w g n i p).
Proof.
  unfold wrapBase, totalWidth, slideUnit, Num.of_nat, Qbase, Qwrap.
  fold T.
  cbn [Num.add Num.mul Num.sub Num.neg].
  assert (HT : ~ (n * (w + g) == 0)%Q) by (intros E; rewrite E in Hpos; discriminate).
  rewrite (rem_fin _ _ HT). cbn [Num.add].
  rewrite (rem_fin _ _ HT). rewrite div_fin_2.
  cbn [Num.gt]. fold T.
  now destruct (Num.Qltb (T / 2) _).
Qed.

Lemma Qbase_range (i : nat) (p : Q) :
  (- (T / 2) < Qbase w g n i p /\ Qbase w g n i p <= T / 2)%Q.
Proof.
  unfold Qbase. fold T.
  set (x := (inject_Z (Z.of_nat i) * (w + g) + - p)%Q).
  destruct (Qwrap_range x T Hpos) as [H0 H1].
  assert (HT : (0 < T)%Q) by exact Hpos.
  assert (Hh : (T / 2 == T * (1 # 2))%Q) by (unfold Qdiv; reflexivity).
  qtest; lra.
Qed.


End WrapFacts.

Lemma dims_finite (slideWidth gap slideCount : num) :
  Num.lt (Fin 0) (totalWidth slideWidth gap slideCount) ->
  exists w g n : Q,
    slideWidth = Fin w /\ gap = Fin g /\ slideCount = Fin n
    /\ (0 < n * (w + g))%Q.
Proof.
  intros H. destruct (lt_finite _ _ H) as [_ HT].
  unfold totalWidth in *.
  destruct (mul_finite_inv _ _ HT) as [Hn Hu].
  destruct (add_finite_inv _ _ Hu) as [Hw Hg].
  destruct (finite_inv _ Hn) as [n ->].
  destruct (finite_inv _ Hw) as [w ->].
  destruct (finite_inv _ Hg) as [g ->].
  exists w, g, n. repeat split. exact H.
Qed.

Lemma wrapBase_in_interval (slideWidth gap slideCount p : num) (i : nat) :
  Num.lt (Fin 0) (totalWidth slideWidth gap slideCount) ->
  Num.finite p ->
  in_wrap_interval (totalWidth slideWidth gap slideCount)
    (wrapBase slideWidth gap slideCount i p).
Proof.
  intros HT Hp.
  destruct (dims_finite _ _ _ HT) as (w & g & n & -> & -> & -> & Hpos).
  destruct (finite_inv _ Hp) as [q ->].
  rewrite (wrapBase_fin w g n Hpos).
  unfold in_wrap_interval, totalWidth.
  cbn [Num.add Num.mul]. rewrite div_fin_2.
  cbn [Num.neg Num.lt Num.le].
  apply Qbase_range. exact Hpos.
Qed.

(** *** What a frame does to the slides *)

Lemma mapi_from_Forall {A B : Type} (P : B -> Prop) (f : A -> nat -> B) :
  (forall x i, P (f x i)) -> forall l k, Forall P (mapi_from f k l).
Proof.
  intros H l. induction l as [| x r IH]; intros k; simpl; constructor; auto.
Qed.


Lemma updateSlide_targetX (slideWidth gap slideCount : num)
    (uc : Mesh -> num -> num -> Mesh) (cp d : num) (slide : Mesh) (i : nat) :
  (forall m x y, targetX (uc m x y) = targetX m) ->
  targetX (updateSlide slideWidth gap slideCount uc cp d slide i)
  = wrapBase slideWidth gap slideCount i cp.
Proof.
  intros Huc. unfold updateSlide, easeSlide.
  cbn [with_layout currentX targetX].
  match goal with |- context [if ?c then _ else _] => destruct c end;
    [rewrite Huc |]; reflexivity.
Qed.

Lemma Legacy_slides (Math : MathObject) (time : num) (s : Refs) :
  let s' := Legacy.animate Math time s in
  slides s' =
  forEach (updateSlide Legacy.slideWidth Legacy.gap Legacy.slideCount
             (Legacy.updateCurve Math)
             (currentPosition s') (currentDistortionFactor s')) (slides s).
Proof.
  unfold Legacy.animate, Legacy.frame.
  match goal with |- context [let '(_, _) := ?E in _] => destruct E end.
  reflexivity.
Qed.

Lemma Slider_slides (Math : MathObject) (slideWidth gap slideCount : num)
    (time : num) (s : Refs) :
  let s' := Slider.animate Math slideWidth gap slideCount time s in
  slides s' =
  forEach (updateSlide slideWidth gap slideCount (updateCurve Math)
             (currentPosition s') (currentDistortionFactor s')) (slides s).
Proof.
  unfold Slider.animate, Slider.frame.
  match goal with |- context [let '(_, _) := ?E in _] => destruct E end.
  reflexivity.
Qed.

Lemma Draggable_slides (Math : MathObject) (slideWidth gap slideCount : num)
    (time : num) (s : Refs) :
  let s' := Draggable.animate Math slideWidth gap slideCount time s in
  slides s' =
  forEach (updateSlide slideWidth gap slideCount (updateCurve Math)
             (currentPosition s') (currentDistortionFactor s')) (slides s).
Proof.
  unfold Draggable.animate, Draggable.frame.
  match goal with |- context [let '(_, _) := ?E in _] => destruct E end.
  reflexivity.
Qed.

Lemma Legacy_totalWidth_pos : Num.lt (Fin 0) Legacy.totalWidth.
Proof. vm_compute. reflexivity. Qed.

(** C1. Wrap invariant: whenever [totalWidth = slideCount * (slideWidth +
    gap)] is positive, the wrapped base position of every panel index at
    every (finite) scroll offset lies in [(-totalWidth/2, totalWidth/2]];
    hence, in each of the three components, the [targetX] of every panel
    after a frame update lies in that interval. *)
Theorem wrap_invariant (slideWidth gap slideCount : num) :
  Num.lt (Fin 0) (totalWidth slideWidth gap slideCount) ->
  let T := totalWidth slideWidth gap slideCount in
  (forall (i : nat) (currentPosition : num),
      Num.finite currentPosition ->
      in_wrap_interval T (wrapBase slideWidth gap slideCount i currentPosition))
  /\ (forall Math time s,
        let s' := Draggable.animate Math slideWidth gap slideCount time s in
        Num.finite (currentPosition s') ->
        Forall (fun slide => in_wrap_interval T (targetX slide)) (slides s'))
  /\ (forall Math time s,
        let s' := Slider.animate Math slideWidth gap slideCount time s in
        Num.finite (currentPosition s') ->
        Forall (fun slide => in_wrap_interval T (targetX slide)) (slides s'))
  /\ (forall Math time s,
        let s' := Legacy.animate Math time s in
        Num.finite (currentPosition s') ->
        Forall (fun slide => in_wrap_interval Legacy.totalWidth (targetX slide))
          (slides s')).
Proof.
  intros HT T. split; [| split; [| split]].
  - intros i p Hp. now apply wrapBase_in_interval.
  - intros Math time s s' Hfin. unfold s'. rewrite Draggable_slides.
    apply mapi_from_Forall. intros m i.
    rewrite updateSlide_targetX by reflexivity.
    now apply wrapBase_in_interval.
  - intros Math time s s' Hfin. unfold s'. rewrite Slider_slides.
    apply mapi_from_Forall. intros m i.
    rewrite updateSlide_targetX by reflexivity.
    now apply wrapBase_in_interval.
  - intros Math time s s' Hfin. unfold s'. rewrite Legacy_slides.
    apply mapi_from_Forall. intros m i.
    rewrite updateSlide_targetX by reflexivity.
    apply wrapBase_in_interval; [exact Legacy_totalWidth_pos | exact Hfin].
Qed.
Lemma wrap_invariant_witness :
  Num.lt (Fin 0) (totalWidth (Fin 3) (Fin 0.1) (Fin 10))
  /\ in_wrap_interval (totalWidth (Fin 3) (Fin 0.1) (Fin 10))
       (wrapBase (Fin 3) (Fin 0.1) (Fin 10) 9 (Fin 0)).
Proof.
  assert (H : Num.lt (Fin 0) (totalWidth (Fin 3) (Fin 0.1) (Fin 10)))
    by (vm_compute; reflexivity).
  split; [exact H |].
  apply (proj1 (wrap_invariant (Fin 3) (Fin 0.1) (Fin 10) H)).
  exact I.
Defined.



(** ** Surface displacement *)

Section CurveFacts.

Lemma set_length (a : list num) (i : nat) (v : num) :
  length (set a i v) = length a.
Proof.
  revert i. induction a as [| x r IH]; intros [| i]; simpl; auto.
Qed.

Lemma get_set (a : list num) (i j : nat) (v : num) :
  get (set a i v) j
  = if (j =? i)%nat && (i <? length a)%nat then v else get a j.
Proof.
  unfold get. revert i j.
  induction a as [| x r IH]; intros i j.
  - simpl. destruct i, j; simpl; try reflexivity.
    all: now rewrite andb_false_r.
  - destruct i as [| i], j as [| j]; simpl; try reflexivity.
    rewrite IH. reflexivity.
Qed.

Variable cz : num -> num -> num.
Variable orig : list num.

(** The first [m] iterations of the loop of [updateCurve]. *)
Let body (array : list num) (i : nat) : list num :=
  setZ array i (cz (get orig (i * 3)) (get orig (i * 3 + 1))).

Lemma loop_length (m : nat) (array : list num) :
  length (fold_left body (seq 0 m) array) = length array.
Proof.
  induction m as [| m IH].
  - reflexivity.
  - rewrite seq_S, fold_left_app. simpl. unfold body at 1, setZ.
    now rewrite set_length.
Qed.

Lemma loop_get (m : nat) (array : list num) (k : nat) :
  (m * 3 <= length array)%nat ->
  get (fold_left body (seq 0 m) array) k
  = if ((k mod 3 =? 2) && (k / 3 <? m))%nat
    then cz (get orig (k / 3 * 3)) (get orig (k / 3 * 3 + 1))
    else get array k.
Proof.
  induction m as [| m IH]; intros Hm.
  - simpl. now rewrite Nat.ltb_irrefl || (rewrite andb_false_r; reflexivity).
  - rewrite seq_S, fold_left_app. simpl fold_left at 1.
    unfold body at 1, setZ. rewrite get_set, loop_length, IH by lia.
    assert (Hin : ((m * 3 + 2 <? length array) = true)%nat)
      by (apply Nat.ltb_lt; lia).
    rewrite Hin, andb_true_r.
    pose proof (Nat.div_mod_eq k 3) as Hk.
    pose proof (Nat.mod_upper_bound k 3 ltac:(lia)) as Hr.
    destruct (Nat.eqb_spec k (m * 3 + 2)) as [-> | Hne].
    + replace ((m * 3 + 2) mod 3)%nat with 2%nat.
      2:{ rewrite Nat.add_comm, Nat.Div0.mod_add. reflexivity. }
      replace ((m * 3 + 2) / 3)%nat with m.
      2:{ rewrite Nat.add_comm, Nat.div_add by lia. reflexivity. }
      assert (E : ((m <? S m) = true)%nat) by (apply Nat.ltb_lt; lia).
      rewrite E. reflexivity.
    + cbn [andb].
      destruct (Nat.eqb_spec (k mod 3) 2) as [H2 | H2]; cbn [andb];
        [| reflexivity].
      destruct (Nat.ltb_spec (k / 3) m) as [Hlt | Hge].
      * assert (E : ((k / 3 <? S m) = true)%nat) by (apply Nat.ltb_lt; lia).
        now rewrite E.
      * assert (E : ((k / 3 <? S m) = false)%nat) by (apply Nat.ltb_ge; lia).
        now rewrite E.
Qed.

Lemma count_bound (array : list num) : (count array * 3 <= length array)%nat.
Proof.
  unfold count. pose proof (Nat.div_mod_eq (length array) 3). lia.
Qed.

Lemma displace_length (array : list num) :
  length (displace cz orig array) = length array.
Proof. unfold displace. apply loop_length. Qed.

Lemma displace_get (array : list num) (k : nat) :
  get (displace cz orig array) k
  = if ((k mod 3 =? 2) && (k / 3 <? count array))%nat
    then cz (get orig (k / 3 * 3)) (get orig (k / 3 * 3 + 1))
    else get array k.
Proof. unfold displace. apply loop_get, count_bound. Qed.

Lemma displace_xy (array : list num) (k : nat) :
  (k mod 3)%nat <> 2%nat -> get (displace cz orig array) k = get array k.
Proof.
  intros H. rewrite displace_get.
  destruct (Nat.eqb_spec (k mod 3) 2); [contradiction | reflexivity].
Qed.

Lemma displace_z (array : list num) (i : nat) :
  (i < count array)%nat ->
  get (displace cz orig array) (i * 3 + 2)
  = cz (get orig (i * 3)) (get orig (i * 3 + 1)).
Proof.
  intros H. rewrite displace_get.
  replace ((i * 3 + 2) mod 3)%nat with 2%nat
    by (rewrite Nat.add_comm, Nat.Div0.mod_add; reflexivity).
  replace ((i * 3 + 2) / 3)%nat with i
    by (rewrite Nat.add_comm, Nat.div_add by lia; reflexivity).
  apply Nat.ltb_lt in H. now rewrite H.
Qed.

(** Running the loop on its own result changes nothing: every [z] it
    writes is computed from [orig] alone. *)
Lemma displace_idempotent (array : list num) :
  displace cz orig (displace cz orig array) = displace cz orig array.
Proof.
  apply (nth_ext _ _ NaN NaN).
  - now rewrite !displace_length.
  - intros k _. fold (get (displace cz orig (displace cz orig array)) k).
    fold (get (displace cz orig array) k).
    rewrite displace_get. unfold count at 1. rewrite displace_length.
    fold (count array). rewrite (displace_get array k).
    now destruct ((k mod 3 =? 2) && (k / 3 <? count array))%nat.
Qed.

End CurveFacts.

(** C9. Displacement frame effect: [updateCurve] (in either form) changes
    nothing of a mesh but its live vertex buffer; there it keeps the length
    and every x and y coordinate, and writes as the z of vertex [i] the value
    of the loop body at the original [(x, y)] of that vertex, the world X,
    the mesh scale and the distortion factor; [originalVertices] is left as
    it was, and running the update a second time with the same inputs gives
    the same mesh as running it once. *)
Theorem updateCurve_frame_effect (Math : MathObject) (mesh : Mesh)
    (worldPositionX distortionFactor : num) :
  (let mesh' := updateCurve Math mesh worldPositionX distortionFactor in
   mesh' = with_position_array mesh (position_array mesh')
   /\ originalVertices mesh' = originalVertices mesh
   /\ length (position_array mesh') = length (position_array mesh)
   /\ (forall k, (k mod 3)%nat <> 2%nat ->
         get (position_array mesh') k = get (position_array mesh) k)
   /\ (forall i, (i < count (position_array mesh))%nat ->
         get (position_array mesh') (i * 3 + 2)
         = curveZ Math mesh worldPositionX distortionFactor
             (get (originalVertices mesh) (i * 3))
             (get (originalVertices mesh) (i * 3 + 1)))
   /\ updateCurve Math mesh' worldPositionX distortionFactor = mesh')
  /\
  (let mesh' := updateCurve_legacy Math mesh worldPositionX distortionFactor in
   mesh' = with_position_array mesh (position_array mesh')
   /\ originalVertices mesh' = originalVertices mesh
   /\ length (position_array mesh') = length (position_array mesh)
   /\ (forall k, (k mod 3)%nat <> 2%nat ->
         get (position_array mesh') k = get (position_array mesh) k)
   /\ (forall i, (i < count (position_array mesh))%nat ->
         get (position_array mesh') (i * 3 + 2)
         = curveZ_legacy Math worldPositionX distortionFactor
             (get (originalVertices mesh) (i * 3))
             (get (originalVertices mesh) (i * 3 + 1)))
   /\ updateCurve_legacy Math mesh' worldPositionX distortionFactor = mesh').
Proof.
  split; cbv zeta.
  - unfold updateCurve, with_position_array. cbn [position_array originalVertices
      position_x scale_x scale_y index targetX currentX].
    repeat split.
    + apply displace_length.
    + intros k Hk. now apply displace_xy.
    + intros i Hi. now apply displace_z.
    + unfold curveZ at 1. cbn [scale_x scale_y].
      fold (curveZ Math mesh worldPositionX distortionFactor).
      now rewrite displace_idempotent.
  - unfold updateCurve_legacy, with_position_array.
    cbn [position_array originalVertices
      position_x scale_x scale_y index targetX currentX].
    repeat split.
    + apply displace_length.
    + intros k Hk. now apply displace_xy.
    + intros i Hi. now apply displace_z.
    + now rewrite displace_idempotent.
Qed.

Lemma updateCurve_frame_effect_witness :
  (1 mod 3)%nat <> 2%nat
  /\ (1 < count (position_array twoVertexMesh))%nat
  /\ get (position_array (updateCurve sampleMath twoVertexMesh (Fin 0.2) (Fin 0.5))) 1
     = get (position_array twoVertexMesh) 1
  /\ get (position_array (updateCurve sampleMath twoVertexMesh (Fin 0.2) (Fin 0.5)))
       (1 * 3 + 2)
     = curveZ sampleMath twoVertexMesh (Fin 0.2) (Fin 0.5)
         (get (originalVertices twoVertexMesh) (1 * 3))
         (get (originalVertices twoVertexMesh) (1 * 3 + 1)).
Proof.
  assert (H1 : (1 mod 3)%nat <> 2%nat) by (intros H; discriminate H).
  assert (H2 : (1 < count (position_array twoVertexMesh))%nat)
    by (apply Nat.lt_succ_diag_r).
  split; [exact H1 |]. split; [exact H2 |]. split.
  - exact (proj1 (proj2 (proj2 (proj2
             (proj1 (updateCurve_frame_effect sampleMath twoVertexMesh
                       (Fin 0.2) (Fin 0.5)))))) 1%nat H1).
  - exact (proj1 (proj2 (proj2 (proj2 (proj2
             (proj1 (updateCurve_frame_effect sampleMath twoVertexMesh
                       (Fin 0.2) (Fin 0.5))))))) 1%nat H2).
Defined.

(** ** Easing of a slide *)

Lemma updateSlide_layout (slideWidth gap slideCount : num)
    (uc : Mesh -> num -> num -> Mesh) (cp d : num) (slide : Mesh) (i : nat) :
  (forall m x y, targetX (uc m x y) = targetX m) ->
  (forall m x y, currentX (uc m x y) = currentX m) ->
  let slide' := updateSlide slideWidth gap slideCount uc cp d slide i in
  (targetX slide', currentX slide')
  = easeSlide slideWidth (wrapBase slideWidth gap slideCount i cp) slide.
Proof.
  intros Ht Hc. unfold updateSlide, easeSlide.
  cbn [with_layout currentX targetX].
  match goal with |- context [if ?c then _ else _] => destruct c end;
    [rewrite Ht, Hc |]; reflexivity.
Qed.

Lemma easeSlide_jump (slideWidth baseX : num) (slide : Mesh) :
  Num.lt (slideWidth * Fin 2) (Num.abs (baseX - targetX slide)) ->
  fst (easeSlide slideWidth baseX slide) = baseX
  /\ snd (easeSlide slideWidth baseX slide) =~ baseX.
Proof.
  intros H. split; [reflexivity |].
  unfold easeSlide. cbn [snd].
  destruct (lt_finite _ _ H) as [Hw Hd].
  assert (Hgt : (Num.abs (baseX - targetX slide) >? slideWidth * Fin 2) = true).
  { destruct (slideWidth * Fin 2), (Num.abs (baseX - targetX slide));
      simpl in *; try contradiction. now apply Qltb_true. }
  rewrite Hgt.
  destruct baseX as [b | | |]; try (destruct (targetX slide); contradiction).
  unfold settings.slideLerp. cbn. ring.
Qed.

Lemma easeSlide_ease (slideWidth baseX : num) (slide : Mesh) :
  Num.le (Num.abs (baseX - targetX slide)) (slideWidth * Fin 2) ->
  easeSlide slideWidth baseX slide
  = (baseX, approach (currentX slide) baseX settings.slideLerp).
Proof.
  intros H. unfold easeSlide.
  assert (Hgt : (Num.abs (baseX - targetX slide) >? slideWidth * Fin 2) = false).
  { destruct (slideWidth * Fin 2), (Num.abs (baseX - targetX slide));
      simpl in *; try contradiction. now apply Qltb_false. }
  now rewrite Hgt.
Qed.

(** C7. Wrap-jump suppression.  In the [forEach] callback of every
    component, the new [(targetX, currentX)] of a slide is [easeSlide] at the
    wrapped base position.  When that value differs from the stored
    [targetX] by more than [2 * slideWidth], [currentX] is set to it (the
    lerp that follows adds nothing); otherwise [currentX] moves toward it by
    the [slideLerp] factor.  With [slideCount = 10], [slideWidth = 3.0] and
    [gap = 0.1] ([totalWidth = 31]), a previous [targetX] of [15.0] and a
    new wrapped value of [-15.5] give [currentX = -15.5]; in the same
    layout, slide 5 with a previous [targetX] of [15.0] and the scroll
    offset at [-0.1] wraps to [-15.4] and is placed there at once. *)
Theorem wrap_jump_suppression :
  (forall Math slideWidth gap slideCount cp d slide i,
      let slide' :=
        updateSlide slideWidth gap slideCount (updateCurve Math) cp d slide i in
      (targetX slide', currentX slide')
      = easeSlide slideWidth (wrapBase slideWidth gap slideCount i cp) slide)
  /\ (forall Math slideWidth gap slideCount cp d slide i,
        let slide' :=
          updateSlide slideWidth gap slideCount (updateCurve_legacy Math)
            cp d slide i in
        (targetX slide', currentX slide')
        = easeSlide slideWidth (wrapBase slideWidth gap slideCount i cp) slide)
  /\ (forall slideWidth baseX slide,
        Num.lt (slideWidth * Fin 2) (Num.abs (baseX - targetX slide)) ->
        fst (easeSlide slideWidth baseX slide) = baseX
        /\ snd (easeSlide slideWidth baseX slide) =~ baseX)
  /\ (forall slideWidth baseX slide,
        Num.le (Num.abs (baseX - targetX slide)) (slideWidth * Fin 2) ->
        easeSlide slideWidth baseX slide
        = (baseX, approach (currentX slide) baseX settings.slideLerp))
  /\ (totalWidth (Fin 3.0) (Fin 0.1) (Fin 10) =~ Fin 31
      /\ forall slide,
          targetX slide = Fin 15.0 ->
          Num.lt (Fin 3.0 * Fin 2) (Num.abs (Fin (-15.5) - targetX slide))
          /\ snd (easeSlide (Fin 3.0) (Fin (-15.5)) slide) =~ Fin (-15.5))
  /\ (forall Math d,
        let slide' :=
          updateSlide (Fin 3.0) (Fin 0.1) (Fin 10) (updateCurve Math)
            (Fin (-0.1)) d (slideAt 5 (Fin 15.0)) 5 in
        wrapBase (Fin 3.0) (Fin 0.1) (Fin 10) 5 (Fin (-0.1)) =~ Fin (-15.4)
        /\ targetX slide' =~ Fin (-15.4)
        /\ currentX slide' =~ Fin (-15.4)).
Proof.
  split; [| split; [| split; [| split; [| split; [split |]]]]].
  - intros. now apply updateSlide_layout.
  - intros. now apply updateSlide_layout.
  - intros. now apply easeSlide_jump.
  - intros. now apply easeSlide_ease.
  - vm_compute. reflexivity.
  - intros slide Ht.
    assert (H : Num.lt (Fin 3.0 * Fin 2) (Num.abs (Fin (-15.5) - targetX slide)))
      by (rewrite Ht; vm_compute; reflexivity).
    split; [exact H |]. now apply easeSlide_jump.
  - intros Math d. vm_compute. repeat split.
Qed.

Lemma wrap_jump_suppression_witness :
  Num.lt (Fin 3.0 * Fin 2)
    (Num.abs (Fin (-15.5) - targetX (slideAt 5 (Fin 15.0))))
  /\ snd (easeSlide (Fin 3.0) (Fin (-15.5)) (slideAt 5 (Fin 15.0)))
     =~ Fin (-15.5).
Proof.
  assert (H : Num.lt (Fin 3.0 * Fin 2)
                (Num.abs (Fin (-15.5) - targetX (slideAt 5 (Fin 15.0)))))
    by (vm_compute; reflexivity).
  split; [exact H |].
  exact (proj2 (proj1 (proj2 (proj2 wrap_jump_suppression))
                  (Fin 3.0) (Fin (-15.5)) (slideAt 5 (Fin 15.0)) H)).
Defined.

(** ** What [animate] computes, field by field *)

Ltac frame_fields :=
  match goal with
  | |- context [let '(_, _) := ?E in _] => destruct E
  end;
  repeat split; reflexivity.

Lemma Draggable_frame_spec (Math : MathObject) (slideWidth gap slideCount : num)
    (time : num) (s : Refs) :
  let f := Draggable.frame Math slideWidth gap slideCount time s in
  let s' := Draggable.animate Math slideWidth gap slideCount time s in
  let v := frame_currentVelocity f in
  frame_deltaTime f = deltaTimeOf time s
  /\ (targetPosition s', autoScrollSpeed s')
     = (if negb (isDragging s) && (Num.abs (autoScrollSpeed s) >? Fin 0.001)
        then applyMomentum (targetPosition s) (autoScrollSpeed s)
        else if negb (isDragging s)
        then (targetPosition s, Fin 0)
        else (targetPosition s, autoScrollSpeed s))
  /\ currentPosition s'
     = approach (currentPosition s) (targetPosition s') settings.smoothing
  /\ v = Num.max (Fin 0)
           (Num.abs (currentPosition s' - currentPosition s)
            / deltaTimeOf time s)
  /\ velocityHistory s' = pushShift (velocityHistory s) v
  /\ frame_avgVelocity f = average (velocityHistory s')
  /\ frame_peak f = raisePeak (frame_avgVelocity f) (peakVelocity s)
  /\ peakVelocity s' = frame_peak f * Fin 0.99
  /\ frame_isDecelerating f
     = isDecelerating (frame_avgVelocity f) (frame_peak f)
  /\ frame_movementDistortion f = movementDistortion v
  /\ frame_targetAfterRise f
     = (if (v >? Fin 0.05) || isDragging s
        then Num.max (targetDistortionFactor s) (frame_movementDistortion f)
        else targetDistortionFactor s)
  /\ frame_decayRate f
     = (if frame_isDecelerating f || (frame_avgVelocity f <? Fin 0.2)
           || negb (isDragging s)
        then settings.distortionDecay
        else settings.distortionDecay * Fin 0.98)
  /\ targetDistortionFactor s' = frame_targetAfterRise f * frame_decayRate f
  /\ currentDistortionFactor s'
     = approach (currentDistortionFactor s) (targetDistortionFactor s')
         settings.distortionSmoothing
  /\ (isDragging s' = isDragging s /\ isScrolling s' = isScrolling s
      /\ touchStartX s' = touchStartX s /\ touchLastX s' = touchLastX s
      /\ dragStartX s' = dragStartX s /\ dragLastX s' = dragLastX s
      /\ lastTime s' = time /\ prevPosition s' = currentPosition s).
Proof.
  unfold Draggable.animate, Draggable.frame, deltaTimeOf. frame_fields.
Qed.

Lemma Slider_frame_spec (Math : MathObject) (slideWidth gap slideCount : num)
    (time : num) (s : Refs) :
  let f := Slider.frame Math slideWidth gap slideCount time s in
  let s' := Slider.animate Math slideWidth gap slideCount time s in
  let v := frame_currentVelocity f in
  frame_deltaTime f = deltaTimeOf time s
  /\ (targetPosition s', autoScrollSpeed s')
     = (if isScrolling s && (Num.abs (autoScrollSpeed s) >? Fin 0.001)
        then applyMomentum (targetPosition s) (autoScrollSpeed s)
        else (targetPosition s, Fin 0))
  /\ currentPosition s'
     = approach (currentPosition s) (targetPosition s') settings.smoothing
  /\ v = Num.max (Fin 0)
           (Num.abs (currentPosition s' - currentPosition s)
            / deltaTimeOf time s)
  /\ velocityHistory s' = pushShift (velocityHistory s) v
  /\ frame_avgVelocity f = average (velocityHistory s')
  /\ frame_peak f = raisePeak (frame_avgVelocity f) (peakVelocity s)
  /\ peakVelocity s' = frame_peak f * Fin 0.99
  /\ frame_isDecelerating f
     = isDecelerating (frame_avgVelocity f) (frame_peak f)
  /\ frame_movementDistortion f = movementDistortion v
  /\ frame_targetAfterRise f
     = (if v >? Fin 0.05
        then Num.max (targetDistortionFactor s) (frame_movementDistortion f)
        else targetDistortionFactor s)
  /\ frame_decayRate f
     = (if frame_isDecelerating f || (frame_avgVelocity f <? Fin 0.2)
           || negb (isScrolling s)
        then settings.distortionDecay
        else settings.distortionDecay * Fin 0.9)
  /\ targetDistortionFactor s' = frame_targetAfterRise f * frame_decayRate f
  /\ currentDistortionFactor s'
     = approach (currentDistortionFactor s) (targetDistortionFactor s')
         settings.distortionSmoothing
  /\ (isDragging s' = isDragging s /\ isScrolling s' = isScrolling s
      /\ touchStartX s' = touchStartX s /\ touchLastX s' = touchLastX s
      /\ dragStartX s' = dragStartX s /\ dragLastX s' = dragLastX s
      /\ lastTime s' = time /\ prevPosition s' = currentPosition s).
Proof.
  unfold Slider.animate, Slider.frame, deltaTimeOf. frame_fields.
Qed.

Lemma Legacy_frame_spec (Math : MathObject) (time : num) (s : Refs) :
  let f := Legacy.frame Math time s in
  let s' := Legacy.animate Math time s in
  let v := frame_currentVelocity f in
  frame_deltaTime f = deltaTimeOf time s
  /\ (targetPosition s', autoScrollSpeed s')
     = (if isScrolling s
        then applyMomentum (targetPosition s) (autoScrollSpeed s)
        else (targetPosition s, autoScrollSpeed s))
  /\ currentPosition s'
     = approach (currentPosition s) (targetPosition s') settings.smoothing
  /\ v = Num.abs (currentPosition s' - currentPosition s)
         / deltaTimeOf time s
  /\ velocityHistory s' = pushShift (velocityHistory s) v
  /\ frame_avgVelocity f = average (velocityHistory s')
  /\ frame_peak f = raisePeak (frame_avgVelocity f) (peakVelocity s)
  /\ peakVelocity s' = frame_peak f * Fin 0.99
  /\ frame_isDecelerating f
     = isDecelerating (frame_avgVelocity f) (frame_peak f)
  /\ frame_movementDistortion f = movementDistortion v
  /\ frame_targetAfterRise f
     = (if v >? Fin 0.05
        then Num.max (targetDistortionFactor s) (frame_movementDistortion f)
        else targetDistortionFactor s)
  /\ frame_decayRate f
     = (if frame_isDecelerating f || (frame_avgVelocity f <? Fin 0.2)
        then settings.distortionDecay
        else settings.distortionDecay * Fin 0.9)
  /\ targetDistortionFactor s' = frame_targetAfterRise f * frame_decayRate f
  /\ currentDistortionFactor s'
     = approach (currentDistortionFactor s) (targetDistortionFactor s')
         settings.distortionSmoothing
  /\ (isDragging s' = isDragging s /\ isScrolling s' = isScrolling s
      /\ touchStartX s' = touchStartX s /\ touchLastX s' = touchLastX s
      /\ dragStartX s' = dragStartX s /\ dragLastX s' = dragLastX s
      /\ lastTime s' = time /\ prevPosition s' = currentPosition s).
Proof.
  unfold Legacy.animate, Legacy.frame, deltaTimeOf. frame_fields.
Qed.

(** ** Deceleration classification *)

Lemma velocityRatio_guarded (avgVelocity peakVelocity : num) :
  Num.le peakVelocity (Fin 0.001) -> velocityRatio avgVelocity peakVelocity = Fin 0.
Proof.
  intros H. unfold velocityRatio.
  destruct peakVelocity as [p | | |]; simpl in H; try contradiction.
  cbn [Num.gt]. apply Qltb_false in H. now rewrite H.
Qed.


Lemma velocityRatio_finite (avgVelocity peakVelocity : num) :
  Num.finite avgVelocity -> Num.finite peakVelocity ->
  Num.finite (velocityRatio avgVelocity peakVelocity).
Proof.
  intros Ha Hp.
  destruct (finite_inv _ Ha) as [a ->], (finite_inv _ Hp) as [p ->].
  unfold velocityRatio. cbn [Num.gt].
  destruct (Num.Qltb 0.001 p) eqn:E; [| exact I].
  apply Qltb_true in E. rewrite div_fin; [exact I |].
  intros E0. rewrite E0 in E. discriminate.
Qed.



(** ** Distortion decay *)

(** C6. Distortion decay policy, evaluated on the code.  In every frame of
    every component the multiplier applied to [targetDistortionFactor] is
    [distortionDecay] (0.95) or, in the remaining case, [distortionDecay]
    times 0.98 ([Draggable]) or times 0.9 ([Slider], [Legacy]); both products
    are strictly smaller than 0.95.  In the middle of a fast drag (or scroll),
    not decelerating, the multiplier is 0.931 (0.855): the target decays
    faster there, not more slowly. *)
Theorem decay_rate_when_moving_fast (Math : MathObject) :
  (forall slideWidth gap slideCount time s,
      let f := Draggable.frame Math slideWidth gap slideCount time s in
      frame_decayRate f
      = (if frame_isDecelerating f || (frame_avgVelocity f <? Fin 0.2)
            || negb (isDragging s)
         then settings.distortionDecay
         else settings.distortionDecay * Fin 0.98))
  /\ (forall slideWidth gap slideCount time s,
        let f := Slider.frame Math slideWidth gap slideCount time s in
        frame_decayRate f
        = (if frame_isDecelerating f || (frame_avgVelocity f <? Fin 0.2)
              || negb (isScrolling s)
           then settings.distortionDecay
           else settings.distortionDecay * Fin 0.9))
  /\ (forall time s,
        let f := Legacy.frame Math time s in
        frame_decayRate f
        = (if frame_isDecelerating f || (frame_avgVelocity f <? Fin 0.2)
           then settings.distortionDecay
           else settings.distortionDecay * Fin 0.9))
  /\ Num.lt (settings.distortionDecay * Fin 0.98) settings.distortionDecay
  /\ Num.lt (settings.distortionDecay * Fin 0.9) settings.distortionDecay
  /\ (let f := Draggable.frame Math (Fin 3.0) (Fin 0.1) (Fin 10) (Fin 1016)
                 (movingFast false true) in
      frame_isDecelerating f = false
      /\ (frame_avgVelocity f <? Fin 0.2) = false
      /\ frame_decayRate f =~ Fin 0.931)
  /\ (let f := Slider.frame Math (Fin 3.0) (Fin 0.1) (Fin 10) (Fin 1016)
                 (movingFast true false) in
      frame_isDecelerating f = false
      /\ (frame_avgVelocity f <? Fin 0.2) = false
      /\ frame_decayRate f =~ Fin 0.855)
  /\ (let f := Legacy.frame Math (Fin 1016) (movingFast false false) in
      frame_isDecelerating f = false
      /\ (frame_avgVelocity f <? Fin 0.2) = false
      /\ isScrolling (movingFast false false) = false
      /\ frame_decayRate f =~ Fin 0.855).
Proof.
  split; [| split; [| split; [| split; [| split; [| split; [| split]]]]]].
  - intros. apply Draggable_frame_spec.
  - intros. apply Slider_frame_spec.
  - intros. apply Legacy_frame_spec.
  - vm_compute. reflexivity.
  - vm_compute. reflexivity.
  - vm_compute. repeat split.
  - vm_compute. repeat split.
  - vm_compute. repeat split.
Qed.

(** ** Distortion rise *)

Lemma movementDistortion_cases (v : num) :
  v <> NaN -> v <> NInf ->
  exists m : Q, movementDistortion v = Fin m /\ (m <= 1)%Q
                /\ (Num.le (Fin 0) v \/ v = PInf -> (0 <= m)%Q).
Proof.
  intros Hv Hn. unfold movementDistortion, settings.distortionSensitivity.
  destruct v as [x | | |]; try congruence.
  - cbn [Num.mul Num.min Num.gt].
    qtest.
    + exists (x * 0.15)%Q. repeat split; [lra |].
      intros [H | H]; [simpl in H; lra | discriminate].
    + exists 1.0%Q. repeat split; lra.
  - exists 1.0%Q. split; [reflexivity |]. split; [lra |]. intros _. lra.
Qed.

Lemma num_eq_NInf (v : num) : v = NInf \/ v <> NInf.
Proof. destruct v; auto; right; discriminate. Qed.

Lemma rise_never_lowers (target v : num) (rising : bool) :
  Num.finite target -> v <> NaN ->
  Num.le target
    (if rising then Num.max target (movementDistortion v) else target).
Proof.
  intros Ht Hv. destruct (finite_inv _ Ht) as [t ->].
  destruct rising; [| cbn [Num.le]; lra].
  destruct (num_eq_NInf v) as [-> | Hn].
  - cbn. lra.
  - destruct (movementDistortion_cases v Hv Hn) as (m & -> & _).
    cbn [Num.max Num.gt Num.le].
    qtest; cbn [Num.le]; lra.
Qed.

(** C5, as the code has it.  Distortion rise rule: in every frame the rise
    step looks at [currentVelocity], the velocity of this frame alone (not at
    the mean of the history): when it exceeds 0.05 (or, in [Draggable] only,
    a drag is active) [targetDistortionFactor] becomes [max
    (targetDistortionFactor, min (1, currentVelocity * 0.15))], otherwise the
    step leaves it alone; the step never lowers it (for a velocity that is
    not [NaN]), and the decay step then multiplies the result by the decay
    rate. *)
Theorem distortion_rise_rule (Math : MathObject) :
  (forall slideWidth gap slideCount time s,
      let f := Draggable.frame Math slideWidth gap slideCount time s in
      let v := frame_currentVelocity f in
      frame_targetAfterRise f
      = (if (v >? Fin 0.05) || isDragging s
         then Num.max (targetDistortionFactor s)
                (Num.min (Fin 1.0) (v * settings.distortionSensitivity))
         else targetDistortionFactor s)
      /\ targetDistortionFactor (frame_refs f)
         = frame_targetAfterRise f * frame_decayRate f
      /\ (Num.finite (targetDistortionFactor s) -> v <> NaN ->
          Num.le (targetDistortionFactor s) (frame_targetAfterRise f)))
  /\ (forall slideWidth gap slideCount time s,
        let f := Slider.frame Math slideWidth gap slideCount time s in
        let v := frame_currentVelocity f in
        frame_targetAfterRise f
        = (if v >? Fin 0.05
           then Num.max (targetDistortionFactor s)
                  (Num.min (Fin 1.0) (v * settings.distortionSensitivity))
           else targetDistortionFactor s)
        /\ targetDistortionFactor (frame_refs f)
           = frame_targetAfterRise f * frame_decayRate f
        /\ (Num.finite (targetDistortionFactor s) -> v <> NaN ->
            Num.le (targetDistortionFactor s) (frame_targetAfterRise f)))
  /\ (forall time s,
        let f := Legacy.frame Math time s in
        let v := frame_currentVelocity f in
        frame_targetAfterRise f
        = (if v >? Fin 0.05
           then Num.max (targetDistortionFactor s)
                  (Num.min (Fin 1.0) (v * settings.distortionSensitivity))
           else targetDistortionFactor s)
        /\ targetDistortionFactor (frame_refs f)
           = frame_targetAfterRise f * frame_decayRate f
        /\ (Num.finite (targetDistortionFactor s) -> v <> NaN ->
            Num.le (targetDistortionFactor s) (frame_targetAfterRise f))).
Proof.
  split; [| split].
  - intros slideWidth gap slideCount time s f v.
    pose proof (Draggable_frame_spec Math slideWidth gap slideCount time s)
      as (_ & _ & _ & _ & _ & _ & _ & _ & _ & Hm & Hr & _ & Ht & _).
    fold f in Hm, Hr, Ht. fold v in Hm, Hr. rewrite Hm in Hr.
    split; [exact Hr |]. split; [exact Ht |].
    intros Hfin Hv. rewrite Hr. now apply rise_never_lowers.
  - intros slideWidth gap slideCount time s f v.
    pose proof (Slider_frame_spec Math slideWidth gap slideCount time s)
      as (_ & _ & _ & _ & _ & _ & _ & _ & _ & Hm & Hr & _ & Ht & _).
    fold f in Hm, Hr, Ht. fold v in Hm, Hr. rewrite Hm in Hr.
    split; [exact Hr |]. split; [exact Ht |].
    intros Hfin Hv. rewrite Hr. now apply rise_never_lowers.
  - intros time s f v.
    pose proof (Legacy_frame_spec Math time s)
      as (_ & _ & _ & _ & _ & _ & _ & _ & _ & Hm & Hr & _ & Ht & _).
    fold f in Hm, Hr, Ht. fold v in Hm, Hr. rewrite Hm in Hr.
    split; [exact Hr |]. split; [exact Ht |].
    intros Hfin Hv. rewrite Hr. now apply rise_never_lowers.
Qed.

Lemma distortion_rise_rule_witness :
  Num.finite (targetDistortionFactor (movingFast false true))
  /\ frame_currentVelocity (draggableFrame (Fin 1016) (movingFast false true))
     <> NaN
  /\ Num.le (targetDistortionFactor (movingFast false true))
       (frame_targetAfterRise
          (draggableFrame (Fin 1016) (movingFast false true))).
Proof.
  assert (H1 : Num.finite (targetDistortionFactor (movingFast false true)))
    by exact I.
  assert (H2 : frame_currentVelocity
                 (draggableFrame (Fin 1016) (movingFast false true)) <> NaN)
    by (vm_compute; discriminate).
  split; [exact H1 |]. split; [exact H2 |].
  exact (proj2 (proj2 (proj1 (distortion_rise_rule sampleMath)
                         (Fin 3.0) (Fin 0.1) (Fin 10) (Fin 1016)
                         (movingFast false true))) H1 H2).
Defined.

(** The rule as the specification words it, with the mean of the velocity
    history in the place of the velocity of the frame, fails: coming to
    rest, the mean is still above 0.05 while this frame's velocity is below
    it; the rise step leaves [targetDistortionFactor] at 0 where the mean
    would raise it. *)
Lemma distortion_rise_not_from_average :
  (frame_avgVelocity (draggableFrame (Fin 1016) slowingDown) >? Fin 0.05) = true
  /\ (frame_currentVelocity (draggableFrame (Fin 1016) slowingDown) >? Fin 0.05)
     = false
  /\ frame_targetAfterRise (draggableFrame (Fin 1016) slowingDown) = Fin 0
  /\ ~ (frame_targetAfterRise (draggableFrame (Fin 1016) slowingDown)
        =~ Num.max (targetDistortionFactor slowingDown)
             (Num.min (Fin 1.0)
                (frame_avgVelocity (draggableFrame (Fin 1016) slowingDown)
                 * settings.distortionSensitivity))).
Proof.
  vm_compute. repeat split. discriminate.
Qed.

(** ** Momentum *)

Lemma applyMomentum_fin (tp a : Q) :
  exists k : Q,
    (k == Qmax 0.92 (0.97 - Qabs a * 0.5))%Q
    /\ applyMomentum (Fin tp) (Fin a)
       = (Fin (tp + a),
          if Num.Qltb (Qabs (a * k)) 0.001 then Fin 0 else Fin (a * k)).
Proof.
  unfold applyMomentum.
  cbn [Num.add Num.abs Num.mul Num.sub Num.neg Num.max Num.gt].
  destruct (Num.Qltb 0.92 (0.97 + - (Qabs a * 0.5))) eqn:E.
  - exists (0.97 + - (Qabs a * 0.5))%Q. split.
    + apply Qltb_true in E. rewrite Q.max_r; lra.
    + cbn [Num.mul Num.abs Num.ltb Num.gt].
      match goal with |- context [if ?c then _ else _] => destruct c end;
        reflexivity.
  - exists 0.92%Q. split.
    + apply Qltb_false in E. rewrite Q.max_l; lra.
    + cbn [Num.mul Num.abs Num.ltb Num.gt].
      match goal with |- context [if ?c then _ else _] => destruct c end;
        reflexivity.
Qed.

Lemma Draggable_step_resting (Math : MathObject) (slideWidth gap slideCount : num)
    (s : Refs) (e : Event) :
  restingWhileDragged s ->
  restingWhileDragged (Draggable.step Math slideWidth gap slideCount s e).
Proof.
  unfold restingWhileDragged. intros H.
  destruct e; cbn [Draggable.step]; try exact H.
  - destruct key; exact H.
  - unfold Draggable.handleMouseDown. destruct intersects; [reflexivity | exact H].
  - unfold Draggable.handleMouseMove.
    destruct (isDragging s) eqn:E; simpl; rewrite ?E; exact H.
  - unfold Draggable.handleMouseUpOrLeave.
    destruct (isDragging s) eqn:E; [| rewrite E; exact H].
    match goal with |- context [if ?c then _ else _] => destruct c end;
      simpl; discriminate.
  - pose proof (Draggable_frame_spec Math slideWidth gap slideCount time s)
      as (_ & Hm & _ & _ & _ & _ & _ & _ & _ & _ & _ & _ & _ & _ & Hd & _).
    cbv zeta in Hm, Hd. rewrite Hd. intros Hdrag.
    rewrite Hdrag in Hm. cbn [negb andb] in Hm.
    injection Hm as _ Ha. rewrite Ha. now apply H.
Qed.

Lemma Draggable_run_resting (Math : MathObject) (slideWidth gap slideCount : num)
    (events : list Event) (s : Refs) :
  restingWhileDragged s ->
  restingWhileDragged (run (Draggable.step Math slideWidth gap slideCount) s events).
Proof.
  revert s. induction events as [| e r IH]; intros s H; [exact H |].
  cbn [run fold_left]. apply IH. now apply Draggable_step_resting.
Qed.

(** C4, as the code has it.  Momentum integration step.  The step itself
    adds [autoScrollSpeed] to [targetPosition], multiplies [autoScrollSpeed]
    by [max (0.92, 0.97 - |autoScrollSpeed| * 0.5)] and sets it to 0 when its
    magnitude has fallen below 0.001.  [Draggable] takes the step when no
    drag is active and [|autoScrollSpeed| > 0.001]; with no drag and a
    smaller speed it sets [autoScrollSpeed] to 0; while a drag is in progress
    it touches neither ref, and [autoScrollSpeed] is 0 there throughout any
    run that starts with no momentum under a drag.  [Slider] takes the step
    when [isScrolling] is set and [|autoScrollSpeed| > 0.001], and sets
    [autoScrollSpeed] to 0 otherwise.  [Legacy] takes the step whenever
    [isScrolling] is set and touches neither ref otherwise. *)
Theorem momentum_step (Math : MathObject) :
  (forall tp a : Q,
      exists k : Q,
        (k == Qmax 0.92 (0.97 - Qabs a * 0.5))%Q
        /\ applyMomentum (Fin tp) (Fin a)
           = (Fin (tp + a),
              if Num.Qltb (Qabs (a * k)) 0.001 then Fin 0 else Fin (a * k)))
  /\ (forall slideWidth gap slideCount time s,
        let s' := Draggable.animate Math slideWidth gap slideCount time s in
        (isDragging s = false ->
         (Num.abs (autoScrollSpeed s) >? Fin 0.001) = true ->
         (targetPosition s', autoScrollSpeed s')
         = applyMomentum (targetPosition s) (autoScrollSpeed s))
        /\ (isDragging s = false ->
            (Num.abs (autoScrollSpeed s) >? Fin 0.001) = false ->
            targetPosition s' = targetPosition s
            /\ autoScrollSpeed s' = Fin 0)
        /\ (isDragging s = true ->
            targetPosition s' = targetPosition s
            /\ autoScrollSpeed s' = autoScrollSpeed s))
  /\ (forall slideWidth gap slideCount events s,
        restingWhileDragged s ->
        restingWhileDragged
          (run (Draggable.step Math slideWidth gap slideCount) s events))
  /\ (forall slideWidth gap slideCount time s,
        let s' := Slider.animate Math slideWidth gap slideCount time s in
        (isScrolling s = true ->
         (Num.abs (autoScrollSpeed s) >? Fin 0.001) = true ->
         (targetPosition s', autoScrollSpeed s')
         = applyMomentum (targetPosition s) (autoScrollSpeed s))
        /\ (isScrolling s && (Num.abs (autoScrollSpeed s) >? Fin 0.001) = false ->
            targetPosition s' = targetPosition s
            /\ autoScrollSpeed s' = Fin 0))
  /\ (forall time s,
        let s' := Legacy.animate Math time s in
        (isScrolling s = true ->
         (targetPosition s', autoScrollSpeed s')
         = applyMomentum (targetPosition s) (autoScrollSpeed s))
        /\ (isScrolling s = false ->
            targetPosition s' = targetPosition s
            /\ autoScrollSpeed s' = autoScrollSpeed s)).
Proof.
  split; [exact applyMomentum_fin |].
  split; [| split; [| split]].
  - intros slideWidth gap slideCount time s s'.
    pose proof (Draggable_frame_spec Math slideWidth gap slideCount time s)
      as (_ & Hm & _).
    fold s' in Hm. repeat split.
    + intros Hd Ha. now rewrite Hd, Ha in Hm.
    + rewrite H, H0 in Hm. now injection Hm.
    + rewrite H, H0 in Hm. now injection Hm.
    + rewrite H in Hm. now injection Hm.
    + rewrite H in Hm. now injection Hm.
  - intros. now apply Draggable_run_resting.
  - intros slideWidth gap slideCount time s s'.
    pose proof (Slider_frame_spec Math slideWidth gap slideCount time s)
      as (_ & Hm & _).
    fold s' in Hm. repeat split.
    + intros Hd Ha. now rewrite Hd, Ha in Hm.
    + rewrite H in Hm. now injection Hm.
    + rewrite H in Hm. now injection Hm.
  - intros time s s'.
    pose proof (Legacy_frame_spec Math time s) as (_ & Hm & _).
    fold s' in Hm. repeat split.
    + intros Hd. now rewrite Hd in Hm.
    + rewrite H in Hm. now injection Hm.
    + rewrite H in Hm. now injection Hm.
Qed.

Lemma momentum_step_witness :
  isDragging (coasting false false) = false
  /\ (Num.abs (autoScrollSpeed (coasting false false)) >? Fin 0.001) = true
  /\ (targetPosition (frame_refs (draggableFrame (Fin 1016) (coasting false false))),
      autoScrollSpeed (frame_refs (draggableFrame (Fin 1016) (coasting false false))))
     = applyMomentum (targetPosition (coasting false false))
         (autoScrollSpeed (coasting false false)).
Proof.
  split; [reflexivity |]. split; [reflexivity |].
  exact (proj1 (proj1 (proj2 (momentum_step sampleMath))
                  (Fin 3.0) (Fin 0.1) (Fin 10) (Fin 1016)
                  (coasting false false))
           eq_refl eq_refl).
Defined.

(** The step as the specification words it fails.  In [Legacy], after a
    wheel notch and the scroll-end timeout, no drag is active and the speed
    is above 0.001, yet the frame neither adds it to [targetPosition] nor
    changes it; in [Draggable], a frame during a drag leaves a speed of 0.03
    as it is instead of forcing it to 0. *)
Lemma momentum_step_not_as_worded :
  (isDragging legacyAfterWheel = false
   /\ (Num.abs (autoScrollSpeed legacyAfterWheel) >? Fin 0.001) = true
   /\ targetPosition (frame_refs (legacyFrame (Fin 1032) legacyAfterWheel))
      = targetPosition legacyAfterWheel
   /\ ~ (targetPosition (frame_refs (legacyFrame (Fin 1032) legacyAfterWheel))
         =~ targetPosition legacyAfterWheel + autoScrollSpeed legacyAfterWheel)
   /\ autoScrollSpeed (frame_refs (legacyFrame (Fin 1032) legacyAfterWheel))
      = autoScrollSpeed legacyAfterWheel
   /\ ~ (autoScrollSpeed (frame_refs (legacyFrame (Fin 1032) legacyAfterWheel))
         =~ Fin 0))
  /\ (isDragging (coasting false true) = true
      /\ ~ (autoScrollSpeed
              (frame_refs (draggableFrame (Fin 1016) (coasting false true)))
            =~ Fin 0)).
Proof.
  vm_compute. repeat split; discriminate.
Qed.

(** ** A frame with [deltaTime = 0] *)

Lemma approach_fixed (a b : num) :
  Num.finite a -> Num.finite b ->
  (approach a b settings.smoothing =~ a <-> b =~ a)
  /\ (approach a b settings.distortionSmoothing =~ a <-> b =~ a).
Proof.
  intros Ha Hb.
  destruct (finite_inv _ Ha) as [x ->], (finite_inv _ Hb) as [y ->].
  unfold approach, settings.smoothing, settings.distortionSmoothing.
  cbn [Num.add Num.sub Num.neg Num.mul Num.eq].
  repeat split; intros H; lra.
Qed.

(** C2, as the code has it.  The time stamp a frame is called with, and so
    [deltaTime], has no part in the new [targetPosition], [autoScrollSpeed]
    and [currentPosition]: in every frame [currentPosition] moves by
    [smoothing] times its distance to the (momentum-updated)
    [targetPosition], and [currentDistortionFactor] by [distortionSmoothing]
    times its distance to the new [targetDistortionFactor].  A frame with
    [deltaTime = 0] therefore leaves [currentPosition] unchanged exactly when
    that [targetPosition] equals it, and [currentDistortionFactor] unchanged
    exactly when the new [targetDistortionFactor] equals it. *)
Theorem frame_independent_of_deltaTime (Math : MathObject) :
  (forall slideWidth gap slideCount time time' s,
      let s1 := Draggable.animate Math slideWidth gap slideCount time s in
      let s2 := Draggable.animate Math slideWidth gap slideCount time' s in
      (targetPosition s1 = targetPosition s2
       /\ autoScrollSpeed s1 = autoScrollSpeed s2
       /\ currentPosition s1 = currentPosition s2)
      /\ currentPosition s1
         = approach (currentPosition s) (targetPosition s1) settings.smoothing
      /\ currentDistortionFactor s1
         = approach (currentDistortionFactor s) (targetDistortionFactor s1)
             settings.distortionSmoothing
      /\ (Num.finite (currentPosition s) -> Num.finite (targetPosition s1) ->
          (currentPosition s1 =~ currentPosition s
           <-> targetPosition s1 =~ currentPosition s))
      /\ (Num.finite (currentDistortionFactor s) ->
          Num.finite (targetDistortionFactor s1) ->
          (currentDistortionFactor s1 =~ currentDistortionFactor s
           <-> targetDistortionFactor s1 =~ currentDistortionFactor s)))
  /\ (forall slideWidth gap slideCount time time' s,
        let s1 := Slider.animate Math slideWidth gap slideCount time s in
        let s2 := Slider.animate Math slideWidth gap slideCount time' s in
        (targetPosition s1 = targetPosition s2
         /\ autoScrollSpeed s1 = autoScrollSpeed s2
         /\ currentPosition s1 = currentPosition s2)
        /\ currentPosition s1
           = approach (currentPosition s) (targetPosition s1) settings.smoothing
        /\ currentDistortionFactor s1
           = approach (currentDistortionFactor s) (targetDistortionFactor s1)
               settings.distortionSmoothing
        /\ (Num.finite (currentPosition s) -> Num.finite (targetPosition s1) ->
            (currentPosition s1 =~ currentPosition s
             <-> targetPosition s1 =~ currentPosition s))
        /\ (Num.finite (currentDistortionFactor s) ->
            Num.finite (targetDistortionFactor s1) ->
            (currentDistortionFactor s1 =~ currentDistortionFactor s
             <-> targetDistortionFactor s1 =~ currentDistortionFactor s)))
  /\ (forall time time' s,
        let s1 := Legacy.animate Math time s in
        let s2 := Legacy.animate Math time' s in
        (targetPosition s1 = targetPosition s2
         /\ autoScrollSpeed s1 = autoScrollSpeed s2
         /\ currentPosition s1 = currentPosition s2)
        /\ currentPosition s1
           = approach (currentPosition s) (targetPosition s1) settings.smoothing
        /\ currentDistortionFactor s1
           = approach (currentDistortionFactor s) (targetDistortionFactor s1)
               settings.distortionSmoothing
        /\ (Num.finite (currentPosition s) -> Num.finite (targetPosition s1) ->
            (currentPosition s1 =~ currentPosition s
             <-> targetPosition s1 =~ currentPosition s))
        /\ (Num.finite (currentDistortionFactor s) ->
            Num.finite (targetDistortionFactor s1) ->
            (currentDistortionFactor s1 =~ currentDistortionFactor s
             <-> targetDistortionFactor s1 =~ currentDistortionFactor s))).
Proof.
  split; [| split].
  - intros slideWidth gap slideCount time time' s s1 s2.
    pose proof (Draggable_frame_spec Math slideWidth gap slideCount time s)
      as (_ & Hm & Hc & _ & _ & _ & _ & _ & _ & _ & _ & _ & _ & Hd & _).
    pose proof (Draggable_frame_spec Math slideWidth gap slideCount time' s)
      as (_ & Hm' & Hc' & _).
    fold s1 in Hm, Hc, Hd. fold s2 in Hm', Hc'.
    rewrite <- Hm' in Hm. injection Hm as Ht Ha.
    split; [| split; [exact Hc | split; [exact Hd | split]]].
    + repeat split; try assumption. now rewrite Hc, Hc', Ht.
    + intros H1 H2. rewrite Hc. now apply approach_fixed.
    + intros H1 H2. rewrite Hd. now apply approach_fixed.
  - intros slideWidth gap slideCount time time' s s1 s2.
    pose proof (Slider_frame_spec Math slideWidth gap slideCount time s)
      as (_ & Hm & Hc & _ & _ & _ & _ & _ & _ & _ & _ & _ & _ & Hd & _).
    pose proof (Slider_frame_spec Math slideWidth gap slideCount time' s)
      as (_ & Hm' & Hc' & _).
    fold s1 in Hm, Hc, Hd. fold s2 in Hm', Hc'.
    rewrite <- Hm' in Hm. injection Hm as Ht Ha.
    split; [| split; [exact Hc | split; [exact Hd | split]]].
    + repeat split; try assumption. now rewrite Hc, Hc', Ht.
    + intros H1 H2. rewrite Hc. now apply approach_fixed.
    + intros H1 H2. rewrite Hd. now apply approach_fixed.
  - intros time time' s s1 s2.
    pose proof (Legacy_frame_spec Math time s)
      as (_ & Hm & Hc & _ & _ & _ & _ & _ & _ & _ & _ & _ & _ & Hd & _).
    pose proof (Legacy_frame_spec Math time' s) as (_ & Hm' & Hc' & _).
    fold s1 in Hm, Hc, Hd. fold s2 in Hm', Hc'.
    rewrite <- Hm' in Hm. injection Hm as Ht Ha.
    split; [| split; [exact Hc | split; [exact Hd | split]]].
    + repeat split; try assumption. now rewrite Hc, Hc', Ht.
    + intros H1 H2. rewrite Hc. now apply approach_fixed.
    + intros H1 H2. rewrite Hd. now apply approach_fixed.
Qed.

Lemma frame_independent_of_deltaTime_witness :
  Num.finite (currentPosition behindTarget)
  /\ Num.finite (targetPosition (frame_refs (draggableFrame (Fin 1000) behindTarget)))
  /\ (currentPosition (frame_refs (draggableFrame (Fin 1000) behindTarget))
      =~ currentPosition behindTarget
      <-> targetPosition (frame_refs (draggableFrame (Fin 1000) behindTarget))
          =~ currentPosition behindTarget).
Proof.
  split; [exact I |]. split; [exact I |].
  exact (proj1 (proj2 (proj2 (proj2
           (proj1 (frame_independent_of_deltaTime sampleMath)
              (Fin 3.0) (Fin 0.1) (Fin 10) (Fin 1000) (Fin 1000)
              behindTarget)))) I I).
Defined.

(** A frame with [deltaTime = 0] does move the strip.  One unit behind the
    target, a frame called with the time stamp of the previous one has
    [deltaTime = 0], moves [currentPosition] from 0 to 0.1, computes an
    infinite velocity (the division is not guarded) and so raises
    [currentDistortionFactor] from 0; on the frame that mount itself runs,
    where nothing moves, the velocity is [0 / 0], that is [NaN]. *)
Lemma zero_deltaTime_frame_moves :
  frame_deltaTime (draggableFrame (Fin 1000) behindTarget) =~ Fin 0
  /\ currentPosition behindTarget = Fin 0
  /\ currentPosition (frame_refs (draggableFrame (Fin 1000) behindTarget))
     =~ Fin 0.1
  /\ ~ (currentPosition (frame_refs (draggableFrame (Fin 1000) behindTarget))
        =~ currentPosition behindTarget)
  /\ frame_currentVelocity (draggableFrame (Fin 1000) behindTarget) = PInf
  /\ currentDistortionFactor behindTarget = Fin 0
  /\ ~ (currentDistortionFactor
          (frame_refs (draggableFrame (Fin 1000) behindTarget))
        =~ currentDistortionFactor behindTarget)
  /\ frame_deltaTime
       (draggableFrame (Fin 1000) (mounted [] (Fin 31) (Fin 1000))) =~ Fin 0
  /\ frame_currentVelocity
       (draggableFrame (Fin 1000) (mounted [] (Fin 31) (Fin 1000))) = NaN.
Proof.
  vm_compute. repeat split; discriminate.
Qed.

(** ** Numbers stay numbers *)

Create HintDb numfin discriminated.

Lemma finite_add (a b : num) : Num.finite a -> Num.finite b -> Num.finite (a + b).
Proof. destruct a, b; simpl; auto. Qed.

Lemma finite_neg (a : num) : Num.finite a -> Num.finite (- a).
Proof. destruct a; simpl; auto. Qed.

Lemma finite_sub (a b : num) : Num.finite a -> Num.finite b -> Num.finite (a - b).
Proof. destruct a, b; simpl; auto. Qed.

Lemma finite_mul (a b : num) : Num.finite a -> Num.finite b -> Num.finite (a * b).
Proof. destruct a, b; simpl; intros; try contradiction; auto. Qed.

Lemma finite_abs (a : num) : Num.finite a -> Num.finite (Num.abs a).
Proof. destruct a; simpl; auto. Qed.

Lemma finite_sign (a : num) : Num.finite a -> Num.finite (Num.sign a).
Proof. destruct a; simpl; auto. intros _. destruct (q ?= 0)%Q; exact I. Qed.

Lemma finite_min (a b : num) : Num.finite a -> Num.finite b -> Num.finite (Num.min a b).
Proof.
  destruct a, b; simpl; auto. intros _ _. now destruct (Num.Qltb _ _).
Qed.

Lemma finite_max (a b : num) : Num.finite a -> Num.finite b -> Num.finite (Num.max a b).
Proof.
  destruct a, b; simpl; auto. intros _ _. now destruct (Num.Qltb _ _).
Qed.

Lemma finite_Fin (q : Q) : Num.finite (Fin q).
Proof. exact I. Qed.

Lemma finite_approach (a b k : num) :
  Num.finite a -> Num.finite b -> Num.finite k -> Num.finite (approach a b k).
Proof. intros. unfold approach. auto using finite_add, finite_sub, finite_mul. Qed.

#[local] Hint Resolve finite_add finite_neg finite_sub finite_mul finite_abs
  finite_sign finite_min finite_max finite_Fin finite_approach : numfin.

Lemma finite_applyMomentum (tp a : num) :
  Num.finite tp -> Num.finite a ->
  Num.finite (fst (applyMomentum tp a)) /\ Num.finite (snd (applyMomentum tp a)).
Proof.
  intros Ht Ha. unfold applyMomentum.
  match goal with |- context [if ?c then _ else _] => destruct c end;
    cbn [fst snd]; split; auto 10 with numfin.
Qed.

(** *** Order on numbers *)

Lemma max_fin (a b : Q) :
  Num.max (Fin a) (Fin b) = Fin (if Num.Qltb a b then b else a).
Proof. cbn. now destruct (Num.Qltb a b). Qed.

Lemma min_fin (a b : Q) :
  Num.min (Fin a) (Fin b) = Fin (if Num.Qltb b a then b else a).
Proof. cbn. now destruct (Num.Qltb b a). Qed.

Lemma le_inv (a b : num) :
  Num.le a b -> exists x y, a = Fin x /\ b = Fin y /\ (x <= y)%Q.
Proof.
  destruct a as [x | | |], b as [y | | |]; simpl; try contradiction.
  intros H. now exists x, y.
Qed.

Lemma in_unit_inv (a : num) :
  in_unit a -> exists x, a = Fin x /\ (0 <= x <= 1)%Q.
Proof.
  intros [H0 H1]. destruct a as [x | | |]; simpl in *; try contradiction.
  exists x. auto.
Qed.

Lemma in_unit_fin (x : Q) : (0 <= x <= 1)%Q -> in_unit (Fin x).
Proof. intros [H0 H1]. split; assumption. Qed.

Lemma nonneg_abs (a : num) : Num.finite a -> Num.le (Fin 0) (Num.abs a).
Proof. destruct a; simpl; try contradiction. intros _. apply Qabs_nonneg. Qed.

Lemma nonneg_mul (a b : num) :
  Num.le (Fin 0) a -> Num.le (Fin 0) b -> Num.le (Fin 0) (a * b).
Proof.
  destruct a, b; simpl; try contradiction. intros. nra.
Qed.

Lemma nonneg_min (a b : num) :
  Num.le (Fin 0) a -> Num.le (Fin 0) b -> Num.le (Fin 0) (Num.min a b).
Proof.
  destruct a, b; simpl; try contradiction. intros.
  now destruct (Num.Qltb _ _).
Qed.

(** [min (1, t + x)] for [t] in [[0, 1]] and a non-negative impulse [x]. *)
Lemma bump_in_unit (t x : num) :
  in_unit t -> Num.le (Fin 0) x -> in_unit (Num.min (Fin 1.0) (t + x)).
Proof.
  intros Ht Hx. destruct (in_unit_inv _ Ht) as (a & -> & Ha).
  destruct (le_inv _ _ Hx) as (z & b & Hz & -> & Hb). injection Hz as <-.
  cbn [Num.add]. rewrite min_fin. apply in_unit_fin.
  qtest; lra.
Qed.

Lemma cap_in_unit (x : num) :
  Num.le (Fin 0) x -> in_unit (Num.min (Fin 1.0) x).
Proof.
  intros Hx.
  destruct (le_inv _ _ Hx) as (z & b & Hz & -> & Hb). injection Hz as <-.
  rewrite min_fin. apply in_unit_fin. qtest; lra.
Qed.

Lemma le_max_same (c t : num) :
  Num.finite c -> Num.finite t -> Num.le c (Num.max c t).
Proof.
  intros Hc Ht. destruct (finite_inv _ Hc) as [x ->], (finite_inv _ Ht) as [y ->].
  rewrite max_fin. cbn [Num.le]. qtest; lra.
Qed.

Lemma in_unit_finite (a : num) : in_unit a -> Num.finite a.
Proof. intros H. destruct (in_unit_inv _ H) as (x & -> & _). exact I. Qed.

#[local] Hint Resolve in_unit_finite : numfin.

(** *** The distortion part of a frame *)

Lemma movementDistortion_in_unit (v : num) :
  Num.le (Fin 0) v -> in_unit (movementDistortion v).
Proof.
  intros Hv. unfold movementDistortion. apply cap_in_unit.
  apply nonneg_mul; [exact Hv |]. unfold settings.distortionSensitivity.
  cbn. lra.
Qed.

Lemma distortion_frame (t c v rate : num) (rising : bool) :
  in_unit t -> in_unit c -> Num.le (Fin 0) v -> in_unit rate ->
  let raised := if rising then Num.max t (movementDistortion v) else t in
  let t' := raised * rate in
  let c' := approach c t' settings.distortionSmoothing in
  in_unit t' /\ in_unit c' /\ Num.le c' (Num.max c t').
Proof.
  intros Ht Hc Hv Hr.
  destruct (in_unit_inv _ Ht) as (a & -> & Ha).
  destruct (in_unit_inv _ Hc) as (b & -> & Hb).
  destruct (in_unit_inv _ Hr) as (r & -> & Hr').
  destruct (in_unit_inv _ (movementDistortion_in_unit v Hv)) as (m & -> & Hm).
  rewrite max_fin.
  set (raised := if rising then Fin (if Num.Qltb a m then m else a) else Fin a).
  assert (exists u, raised = Fin u /\ (0 <= u <= 1)%Q) as (u & -> & Hu).
  { unfold raised. destruct rising; [| eauto].
    eexists; split; [reflexivity |]. qtest; lra. }
  cbv zeta. unfold approach, settings.distortionSmoothing.
  cbn [Num.mul Num.add Num.sub Num.neg]. rewrite max_fin.
  assert (0 <= u * r <= 1)%Q by nra.
  split; [now apply in_unit_fin |].
  split; [apply in_unit_fin; lra |].
  cbn [Num.le]. qtest; lra.
Qed.

Lemma velocity_nonneg (cur' cur dt : num) :
  Num.finite cur' -> Num.finite cur -> Num.lt (Fin 0) dt ->
  Num.le (Fin 0) (Num.abs (cur' - cur) / dt)
  /\ Num.le (Fin 0) (Num.max (Fin 0) (Num.abs (cur' - cur) / dt)).
Proof.
  intros H1 H2 Hd.
  destruct (finite_inv _ H1) as [x ->], (finite_inv _ H2) as [y ->].
  destruct dt as [d | | |]; simpl in Hd; try contradiction.
  cbn [Num.sub Num.add Num.neg Num.abs].
  rewrite div_fin by lra.
  assert (H : (0 <= Qabs (x + - y) / d)%Q).
  { unfold Qdiv. pose proof (Qabs_nonneg (x + - y)).
    pose proof (Qinv_lt_0_compat d Hd). nra. }
  split; [exact H |]. rewrite max_fin. cbn [Num.le]. qtest; lra.
Qed.

Lemma decay_in_unit (b : bool) (c : Q) :
  (0 <= c <= 1)%Q ->
  in_unit (if b then settings.distortionDecay
           else settings.distortionDecay * Fin c).
Proof.
  intros Hc. unfold settings.distortionDecay. destruct b.
  - apply in_unit_fin. lra.
  - cbn [Num.mul]. apply in_unit_fin. lra.
Qed.

Ltac positioned_fields :=
  match goal with
  | H : positioned _ |- _ =>
      destruct H as (?Hcur & ?Htp & ?Ha & ?Hts & ?Htl & ?Hds & ?Hdl)
  end.

Lemma Draggable_frame_bounded (Math : MathObject) (slideWidth gap slideCount : num)
    (time : num) (s : Refs) :
  bounded s -> Num.lt (Fin 0) (deltaTimeOf time s) ->
  let s' := Draggable.animate Math slideWidth gap slideCount time s in
  bounded s'
  /\ Num.le (currentDistortionFactor s')
       (Num.max (currentDistortionFactor s) (targetDistortionFactor s')).
Proof.
  intros (Hpos & Ht & Hc) Hdt s'. positioned_fields.
  pose proof (Draggable_frame_spec Math slideWidth gap slideCount time s)
    as (_ & Hm & Hcp & Hv & _ & _ & _ & _ & _ & Hmd & Hr & Hrate & Htd & Hcd
        & Hi1 & Hi2 & Hi3 & Hi4 & Hi5 & Hi6 & _).
  fold s' in Hm, Hcp, Hv, Htd, Hcd, Hi1, Hi2, Hi3, Hi4, Hi5, Hi6.
  set (f := Draggable.frame Math slideWidth gap slideCount time s) in *.
  assert (Hfin : Num.finite (targetPosition s') /\ Num.finite (autoScrollSpeed s')).
  { destruct (finite_applyMomentum _ _ Htp Ha) as [F1 F2].
    destruct (negb (isDragging s) && _); [| destruct (negb (isDragging s))];
      [rewrite (surjective_pairing (applyMomentum _ _)) in Hm | |];
      injection Hm as -> ->; split; auto with numfin. }
  destruct Hfin as [Htp' Ha'].
  assert (Hcur' : Num.finite (currentPosition s'))
    by (rewrite Hcp; unfold settings.smoothing; auto with numfin).
  assert (Hvel : Num.le (Fin 0) (frame_currentVelocity f))
    by (rewrite Hv; now apply velocity_nonneg).
  assert (Hrt : in_unit (frame_decayRate f))
    by (rewrite Hrate; apply decay_in_unit; lra).
  rewrite Hmd in Hr.
  pose proof (distortion_frame _ _ _ _
                ((frame_currentVelocity f >? Fin 0.05) || isDragging s)
                Ht Hc Hvel Hrt) as D.
  cbv zeta in D. rewrite <- Hr, <- Htd, <- Hcd in D.
  destruct D as (D1 & D2 & D3).
  split; [| exact D3].
  split; [| split; assumption].
  unfold positioned. rewrite Hi3, Hi4, Hi5, Hi6. repeat split; assumption.
Qed.

Lemma Slider_frame_bounded (Math : MathObject) (slideWidth gap slideCount : num)
    (time : num) (s : Refs) :
  bounded s -> Num.lt (Fin 0) (deltaTimeOf time s) ->
  let s' := Slider.animate Math slideWidth gap slideCount time s in
  bounded s'
  /\ Num.le (currentDistortionFactor s')
       (Num.max (currentDistortionFactor s) (targetDistortionFactor s')).
Proof.
  intros (Hpos & Ht & Hc) Hdt s'. positioned_fields.
  pose proof (Slider_frame_spec Math slideWidth gap slideCount time s)
    as (_ & Hm & Hcp & Hv & _ & _ & _ & _ & _ & Hmd & Hr & Hrate & Htd & Hcd
        & Hi1 & Hi2 & Hi3 & Hi4 & Hi5 & Hi6 & _).
  fold s' in Hm, Hcp, Hv, Htd, Hcd, Hi1, Hi2, Hi3, Hi4, Hi5, Hi6.
  set (f := Slider.frame Math slideWidth gap slideCount time s) in *.
  assert (Hfin : Num.finite (targetPosition s') /\ Num.finite (autoScrollSpeed s')).
  { destruct (finite_applyMomentum _ _ Htp Ha) as [F1 F2].
    destruct (isScrolling s && _);
      [rewrite (surjective_pairing (applyMomentum _ _)) in Hm |];
      injection Hm as -> ->; split; auto with numfin. }
  destruct Hfin as [Htp' Ha'].
  assert (Hcur' : Num.finite (currentPosition s'))
    by (rewrite Hcp; unfold settings.smoothing; auto with numfin).
  assert (Hvel : Num.le (Fin 0) (frame_currentVelocity f))
    by (rewrite Hv; now apply velocity_nonneg).
  assert (Hrt : in_unit (frame_decayRate f))
    by (rewrite Hrate; apply decay_in_unit; lra).
  rewrite Hmd in Hr.
  pose proof (distortion_frame _ _ _ _
                (frame_currentVelocity f >? Fin 0.05)
                Ht Hc Hvel Hrt) as D.
  cbv zeta in D. rewrite <- Hr, <- Htd, <- Hcd in D.
  destruct D as (D1 & D2 & D3).
  split; [| exact D3].
  split; [| split; assumption].
  unfold positioned. rewrite Hi3, Hi4, Hi5, Hi6. repeat split; assumption.
Qed.

Lemma Legacy_frame_bounded (Math : MathObject) (time : num) (s : Refs) :
  bounded s -> Num.lt (Fin 0) (deltaTimeOf time s) ->
  let s' := Legacy.animate Math time s in
  bounded s'
  /\ Num.le (currentDistortionFactor s')
       (Num.max (currentDistortionFactor s) (targetDistortionFactor s')).
Proof.
  intros (Hpos & Ht & Hc) Hdt s'. positioned_fields.
  pose proof (Legacy_frame_spec Math time s)
    as (_ & Hm & Hcp & Hv & _ & _ & _ & _ & _ & Hmd & Hr & Hrate & Htd & Hcd
        & Hi1 & Hi2 & Hi3 & Hi4 & Hi5 & Hi6 & _).
  fold s' in Hm, Hcp, Hv, Htd, Hcd, Hi1, Hi2, Hi3, Hi4, Hi5, Hi6.
  set (f := Legacy.frame Math time s) in *.
  assert (Hfin : Num.finite (targetPosition s') /\ Num.finite (autoScrollSpeed s')).
  { destruct (finite_applyMomentum _ _ Htp Ha) as [F1 F2].
    destruct (isScrolling s);
      [rewrite (surjective_pairing (applyMomentum _ _)) in Hm |];
      injection Hm as -> ->; split; auto with numfin. }
  destruct Hfin as [Htp' Ha'].
  assert (Hcur' : Num.finite (currentPosition s'))
    by (rewrite Hcp; unfold settings.smoothing; auto with numfin).
  assert (Hvel : Num.le (Fin 0) (frame_currentVelocity f))
    by (rewrite Hv; now apply velocity_nonneg).
  assert (Hrt : in_unit (frame_decayRate f))
    by (rewrite Hrate; apply decay_in_unit; lra).
  rewrite Hmd in Hr.
  pose proof (distortion_frame _ _ _ _
                (frame_currentVelocity f >? Fin 0.05)
                Ht Hc Hvel Hrt) as D.
  cbv zeta in D. rewrite <- Hr, <- Htd, <- Hcd in D.
  destruct D as (D1 & D2 & D3).
  split; [| exact D3].
  split; [| split; assumption].
  unfold positioned. rewrite Hi3, Hi4, Hi5, Hi6. repeat split; assumption.
Qed.

(** ** The input handlers keep the distortion state bounded *)

Ltac refs_simpl :=
  cbn [slides currentPosition targetPosition isScrolling isDragging
       touchStartX touchLastX dragStartX dragLastX autoScrollSpeed lastTime
       prevPosition currentDistortionFactor targetDistortionFactor
       peakVelocity velocityHistory
       set_targetPosition set_isScrolling set_isDragging set_touchStartX
       set_touchLastX set_dragStartX set_dragLastX set_autoScrollSpeed
       set_targetDistortionFactor set_peakVelocity] in *.

Ltac settings_unfold :=
  unfold settings.wheelSensitivity, settings.touchSensitivity,
    settings.dragSensitivity, settings.momentumMultiplier,
    settings.distortionSensitivity, slideUnit in *.

Ltac nonneg :=
  repeat first
    [ apply nonneg_mul | apply nonneg_min | apply nonneg_abs
    | (cbn [Num.le]; lra) ];
  auto 10 with numfin.

(** Solves [bounded (h s)] for a handler [h] already unfolded. *)
Ltac bounded_handler :=
  match goal with
  | H : bounded _ |- bounded _ =>
      destruct H as (?Hpos & ?Ht & ?Hc); positioned_fields
  end;
  unfold bounded, positioned; refs_simpl; settings_unfold;
  split; [repeat split; auto 10 with numfin |];
  split; [| assumption];
  first [ assumption
        | apply bump_in_unit; [assumption | nonneg]
        | apply cap_in_unit; nonneg ].

Lemma bounded_step (s s' : Refs) :
  bounded s -> bounded s' ->
  currentDistortionFactor s' = currentDistortionFactor s ->
  bounded s'
  /\ Num.le (currentDistortionFactor s')
       (Num.max (currentDistortionFactor s) (targetDistortionFactor s')).
Proof.
  intros (_ & _ & Hc) Hb' E. split; [exact Hb' |].
  rewrite E. destruct Hb' as (_ & Ht' & _).
  apply le_max_same; auto with numfin.
Qed.

Lemma Legacy_step_bounded (Math : MathObject) (s : Refs) (e : Event) :
  bounded s -> deliverable s e ->
  bounded (Legacy.step Math s e)
  /\ Num.le (currentDistortionFactor (Legacy.step Math s e))
       (Num.max (currentDistortionFactor s)
          (targetDistortionFactor (Legacy.step Math s e))).
Proof.
  intros Hb He.
  destruct e; cbn [Legacy.step deliverable] in *;
    [| | | | | | | | | now apply Legacy_frame_bounded];
    (apply bounded_step; [exact Hb | | ]); try exact Hb; try reflexivity.
  - unfold Legacy.handleWheel. bounded_handler.
  - unfold Legacy.handleKeyDown, Legacy.slideUnit, Legacy.slideWidth, Legacy.gap.
    destruct key; [| | exact Hb]; bounded_handler.
  - destruct key; reflexivity.
  - unfold Legacy.handleTouchStart. bounded_handler.
  - unfold Legacy.handleTouchMove. bounded_handler.
  - unfold Legacy.handleTouchEnd.
    match goal with |- context [if ?c then _ else _] => destruct c end;
      bounded_handler.
  - unfold Legacy.handleTouchEnd.
    match goal with |- context [if ?c then _ else _] => destruct c end;
      reflexivity.
Qed.

Lemma Slider_step_bounded (Math : MathObject) (slideWidth gap slideCount : num)
    (s : Refs) (e : Event) :
  Num.finite slideWidth -> Num.finite gap ->
  bounded s -> deliverable s e ->
  let s' := Slider.step Math slideWidth gap slideCount s e in
  bounded s'
  /\ Num.le (currentDistortionFactor s')
       (Num.max (currentDistortionFactor s) (targetDistortionFactor s')).
Proof.
  intros Hw Hg Hb He. cbv zeta.
  destruct e; cbn [Slider.step deliverable] in *;
    [| | | | | | | | | now apply Slider_frame_bounded];
    (apply bounded_step; [exact Hb | | ]); try exact Hb; try reflexivity.
  - unfold Slider.handleWheel. bounded_handler.
  - unfold Slider.handleKeyDown.
    destruct key; [| | exact Hb]; bounded_handler.
  - destruct key; reflexivity.
  - unfold Slider.handleTouchStart. bounded_handler.
  - unfold Slider.handleTouchMove. bounded_handler.
  - unfold Slider.handleTouchEnd.
    match goal with |- context [if ?c then _ else _] => destruct c end;
      bounded_handler.
  - unfold Slider.handleTouchEnd.
    match goal with |- context [if ?c then _ else _] => destruct c end;
      reflexivity.
Qed.

Lemma Draggable_step_bounded (Math : MathObject) (slideWidth gap slideCount : num)
    (s : Refs) (e : Event) :
  Num.finite slideWidth -> Num.finite gap ->
  bounded s -> deliverable s e ->
  let s' := Draggable.step Math slideWidth gap slideCount s e in
  bounded s'
  /\ Num.le (currentDistortionFactor s')
       (Num.max (currentDistortionFactor s) (targetDistortionFactor s')).
Proof.
  intros Hw Hg Hb He. cbv zeta.
  destruct e; cbn [Draggable.step deliverable] in *;
    [| | | | | | | | | now apply Draggable_frame_bounded];
    (apply bounded_step; [exact Hb | | ]); try exact Hb; try reflexivity.
  - unfold Draggable.handleKeyDown.
    destruct key; [| | exact Hb]; bounded_handler.
  - destruct key; reflexivity.
  - unfold Draggable.handleMouseDown.
    destruct intersects; [| exact Hb]. bounded_handler.
  - unfold Draggable.handleMouseDown. destruct intersects; reflexivity.
  - unfold Draggable.handleMouseMove.
    destruct (isDragging s); [| exact Hb]. bounded_handler.
  - unfold Draggable.handleMouseMove. destruct (isDragging s); reflexivity.
  - unfold Draggable.handleMouseUpOrLeave.
    destruct (isDragging s); [| exact Hb].
    match goal with |- context [if ?c then _ else _] => destruct c end;
      bounded_handler.
  - unfold Draggable.handleMouseUpOrLeave.
    destruct (isDragging s); [| reflexivity].
    match goal with |- context [if ?c then _ else _] => destruct c end;
      reflexivity.
Qed.

(** ** Runs *)

Section Trace.

Variable step : Refs -> Event -> Refs.

Hypothesis step_bounded :
  forall s e,
    bounded s -> deliverable s e ->
    bounded (step s e)
    /\ Num.le (currentDistortionFactor (step s e))
         (Num.max (currentDistortionFactor s)
            (targetDistortionFactor (step s e))).

Lemma maxTarget_bounded (events : list Event) :
  forall s,
    bounded s -> deliverableRun step s events ->
    in_unit (maxTarget step s events)
    /\ Num.le (targetDistortionFactor s) (maxTarget step s events).
Proof.
  induction events as [| e r IH]; intros s Hb Hd; cbn [maxTarget].
  - destruct Hb as (_ & Ht & _). split; [exact Ht |].
    destruct (in_unit_inv _ Ht) as (x & -> & _). cbn. lra.
  - destruct Hd as [He Hr].
    destruct (step_bounded s e Hb He) as [Hb' _].
    destruct (IH _ Hb' Hr) as [HM _].
    destruct Hb as (_ & Ht & _).
    destruct (in_unit_inv _ Ht) as (x & -> & Hx).
    destruct (in_unit_inv _ HM) as (m & -> & Hm).
    rewrite max_fin. split.
    + apply in_unit_fin. qtest; lra.
    + cbn [Num.le]. qtest; lra.
Qed.

Lemma run_bounded (events : list Event) :
  forall s,
    bounded s -> deliverableRun step s events ->
    bounded (run step s events)
    /\ Num.le (currentDistortionFactor (run step s events))
         (Num.max (currentDistortionFactor s) (maxTarget step s events)).
Proof.
  induction events as [| e r IH]; intros s Hb Hd; cbn [maxTarget run fold_left].
  - split; [exact Hb |]. destruct Hb as (_ & Ht & Hc).
    apply le_max_same; auto with numfin.
  - destruct Hd as [He Hr].
    destruct (step_bounded s e Hb He) as [Hb' Hstep].
    destruct (IH _ Hb' Hr) as [Hfinal Hle].
    split; [exact Hfinal |].
    destruct (maxTarget_bounded r _ Hb' Hr) as [HM Hfirst].
    fold (run step (step s e) r) in *.
    destruct Hb as (_ & Ht & Hc). destruct Hb' as (_ & Ht' & Hc').
    destruct Hfinal as (_ & _ & Hcf).
    destruct (in_unit_inv _ Ht) as (t & Et & _).
    destruct (in_unit_inv _ Hc) as (c & Ec & _).
    destruct (in_unit_inv _ Ht') as (t' & Et' & _).
    destruct (in_unit_inv _ Hc') as (c' & Ec' & _).
    destruct (in_unit_inv _ Hcf) as (x & Ex & _).
    destruct (in_unit_inv _ HM) as (m & Em & _).
    rewrite Et, Ec, Et', Ec', Ex, Em in *.
    rewrite !max_fin in *. cbn [Num.le] in *.
    repeat qtest; lra.
Qed.

End Trace.

(** C3. Distortion bounds.  In each component, start from a state whose
    position refs hold numbers and whose two distortion factors are 0, and
    deliver any finite sequence of input events (wheel, touch, keys, pointer
    press, move and release, the scroll-end timeout) with numbers for
    coordinates and of frames with [deltaTime > 0]: at the end, and so after
    every event of the run, [targetDistortionFactor] and
    [currentDistortionFactor] lie in [[0, 1]], and
    [currentDistortionFactor] is at most the largest value
    [targetDistortionFactor] has had in the run. *)
Theorem distortion_bounds (Math : MathObject) :
  (forall slideWidth gap slideCount events s,
      Num.finite slideWidth -> Num.finite gap ->
      positioned s ->
      targetDistortionFactor s = Fin 0 ->
      currentDistortionFactor s = Fin 0 ->
      let step := Draggable.step Math slideWidth gap slideCount in
      deliverableRun step s events ->
      in_unit (targetDistortionFactor (run step s events))
      /\ in_unit (currentDistortionFactor (run step s events))
      /\ Num.le (currentDistortionFactor (run step s events))
           (maxTarget step s events))
  /\ (forall slideWidth gap slideCount events s,
        Num.finite slideWidth -> Num.finite gap ->
        positioned s ->
        targetDistortionFactor s = Fin 0 ->
        currentDistortionFactor s = Fin 0 ->
        let step := Slider.step Math slideWidth gap slideCount in
        deliverableRun step s events ->
        in_unit (targetDistortionFactor (run step s events))
        /\ in_unit (currentDistortionFactor (run step s events))
        /\ Num.le (currentDistortionFactor (run step s events))
             (maxTarget step s events))
  /\ (forall events s,
        positioned s ->
        targetDistortionFactor s = Fin 0 ->
        currentDistortionFactor s = Fin 0 ->
        let step := Legacy.step Math in
        deliverableRun step s events ->
        in_unit (targetDistortionFactor (run step s events))
        /\ in_unit (currentDistortionFactor (run step s events))
        /\ Num.le (currentDistortionFactor (run step s events))
             (maxTarget step s events)).
Proof.
  assert (Hgen : forall step,
             (forall s e, bounded s -> deliverable s e ->
                bounded (step s e)
                /\ Num.le (currentDistortionFactor (step s e))
                     (Num.max (currentDistortionFactor s)
                        (targetDistortionFactor (step s e)))) ->
             forall events s,
               positioned s ->
               targetDistortionFactor s = Fin 0 ->
               currentDistortionFactor s = Fin 0 ->
               deliverableRun step s events ->
               in_unit (targetDistortionFactor (run step s events))
               /\ in_unit (currentDistortionFactor (run step s events))
               /\ Num.le (currentDistortionFactor (run step s events))
                    (maxTarget step s events)).
  { intros step Hstep events s Hpos Ht Hc Hrun.
    assert (Hb : bounded s).
    { split; [exact Hpos |]. rewrite Ht, Hc.
      split; apply in_unit_fin; lra. }
    destruct (run_bounded step Hstep events s Hb Hrun) as [(_ & H1 & H2) H3].
    destruct (maxTarget_bounded step Hstep events s Hb Hrun) as [HM Hfirst].
    split; [exact H1 |]. split; [exact H2 |].
    rewrite Hc in H3. rewrite Ht in Hfirst.
    destruct (in_unit_inv _ HM) as (m & Em & _).
    destruct (in_unit_inv _ H2) as (x & Ex & _).
    rewrite Em, Ex in *. rewrite max_fin in H3. cbn [Num.le] in *.
    qtest; lra. }
  split; [| split].
  - intros slideWidth gap slideCount events s Hw Hg. cbv zeta.
    apply Hgen. intros s0 e. now apply Draggable_step_bounded.
  - intros slideWidth gap slideCount events s Hw Hg. cbv zeta.
    apply Hgen. intros s0 e. now apply Slider_step_bounded.
  - intros events s. cbv zeta.
    apply Hgen. intros s0 e. now apply Legacy_step_bounded.
Qed.

Lemma distortion_bounds_witness :
  deliverableRun (Draggable.step sampleMath (Fin 3.0) (Fin 0.1) (Fin 10))
    (mounted [] (Fin 31) (Fin 1000)) dragSample
  /\ in_unit
       (targetDistortionFactor
          (run (Draggable.step sampleMath (Fin 3.0) (Fin 0.1) (Fin 10))
             (mounted [] (Fin 31) (Fin 1000)) dragSample))
  /\ in_unit
       (currentDistortionFactor
          (run (Draggable.step sampleMath (Fin 3.0) (Fin 0.1) (Fin 10))
             (mounted [] (Fin 31) (Fin 1000)) dragSample))
  /\ Num.le
       (currentDistortionFactor
          (run (Draggable.step sampleMath (Fin 3.0) (Fin 0.1) (Fin 10))
             (mounted [] (Fin 31) (Fin 1000)) dragSample))
       (maxTarget (Draggable.step sampleMath (Fin 3.0) (Fin 0.1) (Fin 10))
          (mounted [] (Fin 31) (Fin 1000)) dragSample).
Proof.
  assert (Hrun : deliverableRun
                   (Draggable.step sampleMath (Fin 3.0) (Fin 0.1) (Fin 10))
                   (mounted [] (Fin 31) (Fin 1000)) dragSample)
    by (vm_compute; repeat split).
  assert (Hpos : positioned (mounted [] (Fin 31) (Fin 1000)))
    by (vm_compute; repeat split).
  split; [exact Hrun |].
  exact (proj1 (distortion_bounds sampleMath)
           (Fin 3.0) (Fin 0.1) (Fin 10) dragSample
           (mounted [] (Fin 31) (Fin 1000)) I I Hpos eq_refl eq_refl Hrun).
Defined.

(** ** The velocity tracker along a run *)

Lemma sum_NaN (h : list num) :
  fold_left (fun sum val => sum + val) h NaN = NaN.
Proof. induction h as [| x r IH]; [reflexivity | exact IH]. Qed.

Lemma sum_cases (h : list num) :
  Forall sampled h ->
  forall a : Q, (0 <= a)%Q ->
    (In NaN h /\ fold_left (fun sum val => sum + val) h (Fin a) = NaN)
    \/ (~ In NaN h
        /\ exists b : Q,
            fold_left (fun sum val => sum + val) h (Fin a) = Fin b
            /\ (0 <= b)%Q).
Proof.
  induction 1 as [| x r Hx Hr IH]; intros a Ha.
  - right. split; [intros [] |]. exists a. split; [reflexivity | exact Ha].
  - cbn [fold_left]. destruct Hx as [-> | Hx].
    + left. split; [now left |]. cbn [Num.add]. apply sum_NaN.
    + destruct (le_inv _ _ Hx) as (z & y & Hz & -> & Hy). injection Hz as <-.
      cbn [Num.add].
      destruct (IH (a + y)%Q ltac:(lra)) as [[Hin E] | [Hnin (b & E & Hb)]].
      * left. split; [now right | exact E].
      * right. split.
        -- intros [H | H]; [discriminate | contradiction].
        -- exists b. split; assumption.
Qed.

Lemma average_cases (h : list num) :
  Forall sampled h -> length h = 5%nat ->
  (In NaN h /\ average h = NaN)
  \/ (~ In NaN h /\ Num.le (Fin 0) (average h)).
Proof.
  intros Hh Hlen. unfold average, Num.of_nat. rewrite Hlen.
  destruct (sum_cases h Hh 0 ltac:(lra)) as [[Hin E] | [Hnin (b & E & Hb)]];
    rewrite E.
  - left. split; [exact Hin | reflexivity].
  - right. split; [exact Hnin |].
    rewrite div_fin by (intros H; discriminate H).
    cbn [Num.le]. change (inject_Z (Z.of_nat 5)) with 5%Q.
    unfold Qdiv. change (/ 5)%Q with (1 # 5)%Q. lra.
Qed.

Lemma pushShift_sampled (h : list num) (v : num) :
  Forall sampled h -> length h = 5%nat -> sampled v ->
  Forall sampled (pushShift h v)
  /\ length (pushShift h v) = 5%nat
  /\ (In NaN (pushShift h v) -> In NaN h \/ v = NaN).
Proof.
  intros Hh Hlen Hv. unfold pushShift.
  destruct h as [| x r]; [discriminate |]. cbn [app tl].
  inversion Hh as [| ? ? Hx Hr]; subst.
  split; [| split].
  - apply Forall_app. split; [exact Hr |].
    constructor; [exact Hv | constructor].
  - rewrite length_app. cbn in *. lia.
  - intros Hin. apply in_app_or in Hin. destruct Hin as [Hin | [Hin | []]].
    + left. now right.
    + right. now symmetry.
Qed.

(** The tracker part of a frame: the velocity of the frame is a sample,
    and it is [NaN] only with the peak at zero. *)
Lemma tracker_frame (h : list num) (peak v : num) :
  Forall sampled h -> length h = 5%nat ->
  Num.le (Fin 0) peak -> (In NaN h -> peak =~ Fin 0) ->
  sampled v -> (v = NaN -> peak =~ Fin 0) ->
  let h' := pushShift h v in
  let avg := average h' in
  let peak1 := raisePeak avg peak in
  Num.finite (velocityRatio avg peak1)
  /\ Forall sampled h' /\ length h' = 5%nat
  /\ Num.le (Fin 0) (peak1 * Fin 0.99)
  /\ (In NaN h' -> peak1 * Fin 0.99 =~ Fin 0).
Proof.
  intros Hh Hlen Hp Hnan Hv Hvnan h' avg peak1.
  destruct (pushShift_sampled h v Hh Hlen Hv) as (Hh' & Hlen' & Hin').
  fold h' in Hh', Hlen', Hin'.
  destruct (le_inv _ _ Hp) as (z & p & Hz & Ep & Hp'). injection Hz as <-.
  subst peak.
  destruct (average_cases h' Hh' Hlen') as [[Hin E] | [Hnin Havg]];
    fold avg in E || fold avg in Havg.
  - assert (Hp0 : (p == 0)%Q)
      by (destruct (Hin' Hin) as [H | H]; [now apply Hnan | now apply Hvnan]).
    assert (E1 : peak1 = Fin p) by (unfold peak1; rewrite E; reflexivity).
    rewrite E1.
    split; [rewrite velocityRatio_guarded; [exact I | cbn [Num.le]; lra] |].
    split; [exact Hh' |]. split; [exact Hlen' |].
    cbn [Num.mul Num.le Num.eq]. split; [lra |]. intros _. lra.
  - destruct (le_inv _ _ Havg) as (z & a & Hz & Ea & Ha). injection Hz as <-.
    assert (exists q, peak1 = Fin q /\ (0 <= q)%Q) as (q & E1 & Hq).
    { unfold peak1. rewrite Ea. unfold raisePeak. cbn [Num.gt].
      destruct (Num.Qltb p a); eauto. }
    rewrite E1, Ea.
    split; [apply velocityRatio_finite; exact I |].
    split; [exact Hh' |]. split; [exact Hlen' |].
    cbn [Num.mul Num.le]. split; [lra |].
    intros Hin. contradiction.
Qed.

Lemma scale_inf_zero (positive : bool) (x : Q) :
  (x == 0)%Q -> Num.scale_inf positive x = NaN.
Proof.
  intros H. unfold Num.scale_inf. apply Qeq_alt in H. now rewrite H.
Qed.

(** The velocity of a frame in which nothing moves: [NaN] when [deltaTime]
    is zero. *)
Lemma idle_velocity (c : Q) (dt : num) :
  dt =~ Fin 0 ->
  let cur' := approach (Fin c) (Fin c) settings.smoothing in
  let v := Num.abs (cur' - Fin c) / dt in
  v = NaN /\ Num.max (Fin 0) v = NaN.
Proof.
  intros Hdt cur' v. unfold v, cur', approach, settings.smoothing.
  cbn [Num.add Num.sub Num.neg Num.mul Num.abs].
  set (z := Qabs (c + (c + - c) * 0.1 + - c)).
  assert (Hz : (z == 0)%Q).
  { unfold z. setoid_replace (c + (c + - c) * 0.1 + - c)%Q with 0%Q by ring.
    reflexivity. }
  destruct dt as [d | | |]; simpl in Hdt; try tauto.
  assert (E : Fin z / Fin d = NaN).
  { cbn [Num.div]. apply Qeqb0_true in Hdt. rewrite Hdt.
    now apply scale_inf_zero. }
  rewrite E. split; reflexivity.
Qed.

Lemma mount_deltaTime (slides : list Mesh) (T now : num) :
  Num.finite now ->
  deltaTimeOf now (mounted slides T now) =~ Fin 0
  \/ Num.lt (Fin 0) (deltaTimeOf now (mounted slides T now)).
Proof.
  intros H. destruct (finite_inv _ H) as [n ->].
  unfold deltaTimeOf, mounted. cbn [lastTime Num.truthy].
  destruct (Num.Qeqb0 n); cbn [negb].
  - right. cbn. lra.
  - left. cbn [Num.sub Num.add Num.neg]. rewrite div_fin by lra.
    cbn [Num.eq]. field.
Qed.

(** Decay and smoothing from zero stay at zero. *)
Lemma idle_distortion (rate : num) (b : bool) (c : Q) :
  rate = (if b then settings.distortionDecay
          else settings.distortionDecay * Fin c) ->
  in_unit (Fin 0 * rate)
  /\ in_unit (approach (Fin 0) (Fin 0 * rate) settings.distortionSmoothing).
Proof.
  intros ->.
  unfold settings.distortionDecay, settings.distortionSmoothing, approach.
  destruct b; cbn [Num.mul Num.add Num.sub Num.neg];
    split; apply in_unit_fin; lra.
Qed.

Lemma tracked_frame (s s' : Refs) (f : Frame) :
  tracked s -> bounded s' ->
  velocityHistory s'
  = pushShift (velocityHistory s) (frame_currentVelocity f) ->
  frame_avgVelocity f = average (velocityHistory s') ->
  frame_peak f = raisePeak (frame_avgVelocity f) (peakVelocity s) ->
  peakVelocity s' = frame_peak f * Fin 0.99 ->
  sampled (frame_currentVelocity f) ->
  (frame_currentVelocity f = NaN -> peakVelocity s =~ Fin 0) ->
  Num.finite (velocityRatio (frame_avgVelocity f) (frame_peak f))
  /\ tracked s'.
Proof.
  intros (Hb & Hp & Hh & Hlen & Hnan) Hb' Eh Ea Ep Ep' Hv Hvnan.
  pose proof (tracker_frame _ _ _ Hh Hlen Hp Hnan Hv Hvnan) as T.
  cbv zeta in T. rewrite <- Eh, <- Ea, <- Ep, <- Ep' in T.
  destruct T as (T1 & T2 & T3 & T4 & T5).
  split; [exact T1 |].
  exact (conj Hb' (conj T4 (conj T2 (conj T3 T5)))).
Qed.

Lemma mounted_tracked (slides : list Mesh) (T : Q) (now : num) :
  tracked (mounted slides (Fin T) now).
Proof.
  unfold tracked, bounded, positioned, mounted.
  cbn [currentPosition targetPosition autoScrollSpeed touchStartX touchLastX
       dragStartX dragLastX targetDistortionFactor currentDistortionFactor
       peakVelocity velocityHistory Num.neg].
  rewrite div_fin_2.
  repeat split; try exact I; try (cbn; lra).
  repeat (constructor; [right; cbn; lra |]). constructor.
Qed.

Lemma Draggable_frame_tracked (Math : MathObject) (slideWidth gap slideCount : num)
    (time : num) (s : Refs) :
  tracked s -> Num.lt (Fin 0) (deltaTimeOf time s) ->
  let f := Draggable.frame Math slideWidth gap slideCount time s in
  Num.finite (velocityRatio (frame_avgVelocity f) (frame_peak f))
  /\ tracked (Draggable.animate Math slideWidth gap slideCount time s).
Proof.
  intros Ht Hdt f.
  pose proof Ht as (Hb & _).
  destruct (Draggable_frame_bounded Math slideWidth gap slideCount time s Hb Hdt)
    as [Hb' _].
  pose proof (Draggable_frame_spec Math slideWidth gap slideCount time s)
    as (_ & _ & _ & Hv & Eh & Ea & Ep & Ep' & _).
  fold f in Hv, Eh, Ea, Ep, Ep'.
  assert (Hvel : Num.le (Fin 0) (frame_currentVelocity f)).
  { rewrite Hv. destruct Hb as ((Hc & _) & _), Hb' as ((Hc' & _) & _).
    now apply velocity_nonneg. }
  apply (tracked_frame s _ f); try assumption.
  - now right.
  - intros E. rewrite E in Hvel. destruct Hvel.
Qed.

Lemma Slider_frame_tracked (Math : MathObject) (slideWidth gap slideCount : num)
    (time : num) (s : Refs) :
  tracked s -> Num.lt (Fin 0) (deltaTimeOf time s) ->
  let f := Slider.frame Math slideWidth gap slideCount time s in
  Num.finite (velocityRatio (frame_avgVelocity f) (frame_peak f))
  /\ tracked (Slider.animate Math slideWidth gap slideCount time s).
Proof.
  intros Ht Hdt f.
  pose proof Ht as (Hb & _).
  destruct (Slider_frame_bounded Math slideWidth gap slideCount time s Hb Hdt)
    as [Hb' _].
  pose proof (Slider_frame_spec Math slideWidth gap slideCount time s)
    as (_ & _ & _ & Hv & Eh & Ea & Ep & Ep' & _).
  fold f in Hv, Eh, Ea, Ep, Ep'.
  assert (Hvel : Num.le (Fin 0) (frame_currentVelocity f)).
  { rewrite Hv. destruct Hb as ((Hc & _) & _), Hb' as ((Hc' & _) & _).
    now apply velocity_nonneg. }
  apply (tracked_frame s _ f); try assumption.
  - now right.
  - intros E. rewrite E in Hvel. destruct Hvel.
Qed.

Lemma Legacy_frame_tracked (Math : MathObject) (time : num) (s : Refs) :
  tracked s -> Num.lt (Fin 0) (deltaTimeOf time s) ->
  let f := Legacy.frame Math time s in
  Num.finite (velocityRatio (frame_avgVelocity f) (frame_peak f))
  /\ tracked (Legacy.animate Math time s).
Proof.
  intros Ht Hdt f.
  pose proof Ht as (Hb & _).
  destruct (Legacy_frame_bounded Math time s Hb Hdt) as [Hb' _].
  pose proof (Legacy_frame_spec Math time s)
    as (_ & _ & _ & Hv & Eh & Ea & Ep & Ep' & _).
  fold f in Hv, Eh, Ea, Ep, Ep'.
  assert (Hvel : Num.le (Fin 0) (frame_currentVelocity f)).
  { rewrite Hv. destruct Hb as ((Hc & _) & _), Hb' as ((Hc' & _) & _).
    now apply velocity_nonneg. }
  apply (tracked_frame s _ f); try assumption.
  - now right.
  - intros E. rewrite E in Hvel. destruct Hvel.
Qed.







(** The frame that mount itself runs, with [deltaTime = 0]. *)
Lemma mount_frame_tracked (slides : list Mesh) (T : Q) (now : num)
    (s' : Refs) (f : Frame) (b : bool) (c : Q) :
  let s := mounted slides (Fin T) now in
  deltaTimeOf now s =~ Fin 0 ->
  (targetPosition s', autoScrollSpeed s') = (targetPosition s, Fin 0) ->
  currentPosition s'
  = approach (currentPosition s) (targetPosition s') settings.smoothing ->
  (frame_currentVelocity f
   = Num.abs (currentPosition s' - currentPosition s) / deltaTimeOf now s
   \/ frame_currentVelocity f
      = Num.max (Fin 0)
          (Num.abs (currentPosition s' - currentPosition s)
           / deltaTimeOf now s)) ->
  velocityHistory s'
  = pushShift (velocityHistory s) (frame_currentVelocity f) ->
  frame_avgVelocity f = average (velocityHistory s') ->
  frame_peak f = raisePeak (frame_avgVelocity f) (peakVelocity s) ->
  peakVelocity s' = frame_peak f * Fin 0.99 ->
  (frame_currentVelocity f = NaN -> frame_targetAfterRise f = Fin 0) ->
  frame_decayRate f
  = (if b then settings.distortionDecay
     else settings.distortionDecay * Fin c) ->
  targetDistortionFactor s' = frame_targetAfterRise f * frame_decayRate f ->
  currentDistortionFactor s'
  = approach (currentDistortionFactor s) (targetDistortionFactor s')
      settings.distortionSmoothing ->
  (touchStartX s' = touchStartX s /\ touchLastX s' = touchLastX s
   /\ dragStartX s' = dragStartX s /\ dragLastX s' = dragLastX s) ->
  Num.finite (velocityRatio (frame_avgVelocity f) (frame_peak f))
  /\ tracked s'.
Proof.
  intros s Hdt Hm Hc Hv Eh Ea Ep Ep' Hrise Hrate Ht Hcd (I1 & I2 & I3 & I4).
  injection Hm as Htp Ha.
  assert (Hc2 : currentPosition s'
                = approach (Fin (- T / 2)) (Fin (- T / 2)) settings.smoothing)
    by (rewrite Hc, Htp; reflexivity).
  destruct (idle_velocity (- T / 2) _ Hdt) as [V1 V2]. cbv zeta in V1, V2.
  assert (Vnan : frame_currentVelocity f = NaN).
  { destruct Hv as [-> | ->]; rewrite Hc2;
      change (currentPosition s) with (Fin (- T / 2)); assumption. }
  rewrite (Hrise Vnan) in Ht.
  destruct (idle_distortion _ b c Hrate) as [D1 D2].
  assert (Hb' : bounded s').
  { split; [| split].
    - unfold positioned. rewrite Hc2, Htp, Ha, I1, I2, I3, I4.
      repeat split; exact I.
    - now rewrite Ht.
    - now rewrite Hcd, Ht. }
  apply (tracked_frame s s' f); try assumption.
  - apply mounted_tracked.
  - left. exact Vnan.
  - intros _. cbn. lra.
Qed.

Ltac mount_frame spec frame_tracked :=
  intros Hnow; cbv zeta;
  match goal with
  | |- context [mounted ?slides (Fin ?T) ?now] =>
      destruct (mount_deltaTime slides (Fin T) now Hnow) as [H0 | Hpos];
      [| apply frame_tracked; [apply mounted_tracked | exact Hpos]];
      pose proof spec
        as (_ & Hm & Hc & Hv & Eh & Ea & Ep & Ep' & _ & Hmd & Hr & Hrate
            & Ht & Hcd & _ & _ & I1 & I2 & I3 & I4 & _);
      cbv zeta in *;
      eapply (mount_frame_tracked slides T now);
      [ exact H0 | exact Hm | exact Hc | | exact Eh | exact Ea | exact Ep
      | exact Ep' | | exact Hrate | exact Ht | exact Hcd
      | exact (conj I1 (conj I2 (conj I3 I4))) ];
      [ first [left; exact Hv | right; exact Hv]
      | intros E; rewrite Hr, E; reflexivity ]
  end.

Lemma Draggable_mount_tracked (Math : MathObject) (slideWidth gap slideCount : num)
    (slides : list Mesh) (T : Q) (now : num) :
  Num.finite now ->
  let s := mounted slides (Fin T) now in
  let f := Draggable.frame Math slideWidth gap slideCount now s in
  Num.finite (velocityRatio (frame_avgVelocity f) (frame_peak f))
  /\ tracked (Draggable.animate Math slideWidth gap slideCount now s).
Proof.
  mount_frame
    (Draggable_frame_spec Math slideWidth gap slideCount now
       (mounted slides (Fin T) now))
    Draggable_frame_tracked.
Qed.

Lemma Slider_mount_tracked (Math : MathObject) (slideWidth gap slideCount : num)
    (slides : list Mesh) (T : Q) (now : num) :
  Num.finite now ->
  let s := mounted slides (Fin T) now in
  let f := Slider.frame Math slideWidth gap slideCount now s in
  Num.finite (velocityRatio (frame_avgVelocity f) (frame_peak f))
  /\ tracked (Slider.animate Math slideWidth gap slideCount now s).
Proof.
  mount_frame
    (Slider_frame_spec Math slideWidth gap slideCount now
       (mounted slides (Fin T) now))
    Slider_frame_tracked.
Qed.

Lemma Legacy_mount_tracked (Math : MathObject)
    (slides : list Mesh) (T : Q) (now : num) :
  Num.finite now ->
  let s := mounted slides (Fin T) now in
  let f := Legacy.frame Math now s in
  Num.finite (velocityRatio (frame_avgVelocity f) (frame_peak f))
  /\ tracked (Legacy.animate Math now s).
Proof.
  mount_frame
    (Legacy_frame_spec Math now (mounted slides (Fin T) now))
    Legacy_frame_tracked.
Qed.



(** * Further properties of the code *)

(** ** The wrap layout as arithmetic modulo [totalWidth] *)

Section WrapAlgebra.

Variables w g n : Q.
Hypothesis Hpos : (0 < n * (w + g))%Q.

Let T : Q := (n * (w + g))%Q.






End WrapAlgebra.





(** ** Creating the slides *)

Lemma Qrem_nat (a k : nat) :
  (0 < k)%nat ->
  (Num.Qrem (inject_Z (Z.of_nat a)) (inject_Z (Z.of_nat k))
   == inject_Z (Z.of_nat (a mod k)))%Q.
Proof.
  intros Hk.
  set (A := inject_Z (Z.of_nat a)). set (K := inject_Z (Z.of_nat k)).
  assert (HK : (0 < K)%Q).
  { unfold K. change 0%Q with (inject_Z 0). rewrite <- Zlt_Qlt. lia. }
  assert (HA : (0 <= A)%Q).
  { unfold A. change 0%Q with (inject_Z 0). rewrite <- Zle_Qle. lia. }
  destruct (Qrem_nonneg A K HK HA) as [R0 R1].
  pose proof (Nat.mod_upper_bound a k ltac:(lia)) as Hm.
  assert (M0 : (0 <= inject_Z (Z.of_nat (a mod k)))%Q).
  { change 0%Q with (inject_Z 0). rewrite <- Zle_Qle. lia. }
  assert (M1 : (inject_Z (Z.of_nat (a mod k)) < K)%Q).
  { unfold K. rewrite <- Zlt_Qlt. lia. }
  assert (EA : (A == K * inject_Z (Z.of_nat (a / k))
                     + inject_Z (Z.of_nat (a mod k)))%Q).
  { unfold A, K. rewrite <- inject_Z_mult, <- inject_Z_plus.
    apply inject_Z_injective.
    rewrite <- Nat2Z.inj_mul, <- Nat2Z.inj_add. f_equal.
    apply Nat.div_mod_eq. }
  apply (multiple_small _ _ K
           (Z.of_nat (a / k) - Num.Qtrunc (A / K))); try assumption.
  unfold Z.sub. rewrite inject_Z_plus, inject_Z_opp.
  unfold Num.Qrem. rewrite EA at 1. ring.
Qed.

(** X3. The image of a slide: with [imagesCount >= 1] images available,
    the number in the image path of slide [index] is [index mod imagesCount
    + 1], so it lies between 1 and [imagesCount], and it repeats every
    [imagesCount] slides. *)
Theorem imageIndex_cycles (imagesCount index : nat) :
  (0 < imagesCount)%nat ->
  imageIndex (Num.of_nat imagesCount) index
  =~ Num.of_nat (index mod imagesCount + 1)
  /\ Num.le (Fin 1) (imageIndex (Num.of_nat imagesCount) index)
  /\ Num.le (imageIndex (Num.of_nat imagesCount) index)
       (Num.of_nat imagesCount)
  /\ imageIndex (Num.of_nat imagesCount) (index + imagesCount)
     =~ imageIndex (Num.of_nat imagesCount) index.
Proof.
  intros Hk.
  assert (HK : ~ (inject_Z (Z.of_nat imagesCount) == 0)%Q).
  { change 0%Q with (inject_Z 0). rewrite inject_Z_injective. lia. }
  assert (E : forall i,
             imageIndex (Num.of_nat imagesCount) i
             = Fin (Num.Qrem (inject_Z (Z.of_nat i))
                      (inject_Z (Z.of_nat imagesCount)) + 1)).
  { intros i. unfold imageIndex, Num.of_nat. now rewrite rem_fin. }
  pose proof (Nat.mod_upper_bound index imagesCount ltac:(lia)) as Hm.
  assert (V : (Num.Qrem (inject_Z (Z.of_nat index))
                 (inject_Z (Z.of_nat imagesCount)) + 1
               == inject_Z (Z.of_nat (index mod imagesCount + 1)))%Q).
  { rewrite (Qrem_nat index imagesCount Hk).
    rewrite Nat2Z.inj_add, inject_Z_plus. reflexivity. }
  rewrite !E. unfold Num.of_nat. cbn [Num.eq Num.le].
  split; [exact V |]. split; [| split].
  - rewrite V. change 1%Q with (inject_Z 1). rewrite <- Zle_Qle. lia.
  - rewrite V. rewrite <- Zle_Qle. lia.
  - rewrite !Qrem_nat by exact Hk.
    replace ((index + imagesCount) mod imagesCount)%nat
      with (index mod imagesCount)%nat; [reflexivity |].
    rewrite <- (Nat.Div0.add_mod_idemp_r index imagesCount).
    rewrite Nat.Div0.mod_same, Nat.add_0_r. reflexivity.
Qed.

Lemma imageIndex_cycles_witness :
  imageIndex (Num.of_nat 5) 7 =~ Num.of_nat (7 mod 5 + 1).
Proof.
  exact (proj1 (imageIndex_cycles 5 7 ltac:(lia))).
Defined.

(** ** Fitting the image *)

Lemma Qdiv_pos (a b : Q) : (0 < a)%Q -> (0 < b)%Q -> (0 < a / b)%Q.
Proof.
  intros Ha Hb. unfold Qdiv. pose proof (Qinv_lt_0_compat b Hb). nra.
Qed.

Lemma Qdiv_mult (a b : Q) : (0 < b)%Q -> (a / b * b == a)%Q.
Proof. intros Hb. field. lra. Qed.

(** The two scales the callback can set, for positive sizes: the ratio of
    the aspects and its inverse. *)
Lemma fit_ratio (w h iw ih : Q) :
  (0 < w)%Q -> (0 < h)%Q -> (0 < iw)%Q -> (0 < ih)%Q ->
  let S := (w / h)%Q in
  let A := (iw / ih)%Q in
  Fin S / Fin A = Fin (S / A) /\ Fin A / Fin S = Fin (A / S)
  /\ Fin iw / Fin ih = Fin A /\ Fin w / Fin h = Fin S
  /\ (0 < S / A)%Q /\ (0 < A / S)%Q
  /\ (S < A -> S / A <= 1 /\ 1 <= A / S)%Q
  /\ (A <= S -> A / S <= 1 /\ 1 <= S / A)%Q
  /\ (w * 1 * ih == h * (S / A) * iw)%Q
  /\ (w * (A / S) * ih == h * 1 * iw)%Q.
Proof.
  intros Hw Hh Hiw Hih S A.
  assert (HS : (0 < S)%Q) by now apply Qdiv_pos.
  assert (HA : (0 < A)%Q) by now apply Qdiv_pos.
  pose proof (Qdiv_mult S A HA) as E1. pose proof (Qdiv_mult A S HS) as E2.
  pose proof (Qdiv_pos S A HS HA) as P1. pose proof (Qdiv_pos A S HA HS) as P2.
  repeat split; try (apply div_fin; lra); try assumption; try nra.
  - unfold S, A. field. repeat split; lra.
  - unfold S, A. field. repeat split; lra.
Qed.

(** X4. Image fit, [contain]: for positive slide and image sizes the
    callback leaves both scales in [(0, 1]], one of them at 1, and the
    scaled slide has the aspect of the image: [slideWidth * scale.x] is to
    [slideHeight * scale.y] as the image width is to the image height.
    Nothing else of the mesh changes. *)
Theorem fit_contain (w h iw ih : Q) (mesh : Mesh) :
  (0 < w)%Q -> (0 < h)%Q -> (0 < iw)%Q -> (0 < ih)%Q ->
  let mesh' := onTextureLoad contain (Fin w) (Fin h) (Fin iw) (Fin ih) mesh in
  exists sx sy : Q,
    mesh' = with_scale_y (with_scale_x mesh (Fin sx)) (Fin sy)
    /\ (0 < sx <= 1)%Q /\ (0 < sy <= 1)%Q
    /\ (sx = 1%Q \/ sy = 1%Q)
    /\ (w * sx * ih == h * sy * iw)%Q.
Proof.
  intros Hw Hh Hiw Hih.
  destruct (fit_ratio w h iw ih Hw Hh Hiw Hih)
    as (D1 & D2 & D3 & D4 & P1 & P2 & L1 & L2 & A1 & A2).
  cbv zeta in *. unfold onTextureLoad. rewrite D3, D4. cbn [Num.gt].
  destruct (Num.Qltb (w / h) (iw / ih)) eqn:E;
    [apply Qltb_true in E | apply Qltb_false in E].
  - exists 1%Q, ((w / h) / (iw / ih))%Q. rewrite D1.
    split; [reflexivity |]. destruct (L1 E).
    repeat split; try lra. now left.
  - exists ((iw / ih) / (w / h))%Q, 1%Q. rewrite D2.
    split; [reflexivity |]. destruct (L2 E).
    repeat split; try lra. now right.
Qed.

Lemma fit_contain_witness :
  exists sx sy : Q,
    onTextureLoad contain (Fin 3.0) (Fin 1.5) (Fin 1600) (Fin 1200)
      (slideAt 0 (Fin 0))
    = with_scale_y (with_scale_x (slideAt 0 (Fin 0)) (Fin sx)) (Fin sy)
    /\ (0 < sx <= 1)%Q /\ (0 < sy <= 1)%Q
    /\ (sx = 1%Q \/ sy = 1%Q)
    /\ (3.0 * sx * 1200 == 1.5 * sy * 1600)%Q.
Proof.
  exact (fit_contain 3.0 1.5 1600 1200 (slideAt 0 (Fin 0))
           eq_refl eq_refl eq_refl eq_refl).
Defined.

(** X5. Image fit, [cover]: for positive sizes the callback leaves both
    scales at 1 or above, one of them at 1, and again gives the scaled slide
    the aspect of the image. *)
Theorem fit_cover (w h iw ih : Q) (mesh : Mesh) :
  (0 < w)%Q -> (0 < h)%Q -> (0 < iw)%Q -> (0 < ih)%Q ->
  let mesh' := onTextureLoad cover (Fin w) (Fin h) (Fin iw) (Fin ih) mesh in
  exists sx sy : Q,
    mesh' = with_scale_y (with_scale_x mesh (Fin sx)) (Fin sy)
    /\ (1 <= sx)%Q /\ (1 <= sy)%Q
    /\ (sx = 1%Q \/ sy = 1%Q)
    /\ (w * sx * ih == h * sy * iw)%Q.
Proof.
  intros Hw Hh Hiw Hih.
  destruct (fit_ratio w h iw ih Hw Hh Hiw Hih)
    as (D1 & D2 & D3 & D4 & P1 & P2 & L1 & L2 & A1 & A2).
  cbv zeta in *. unfold onTextureLoad. rewrite D3, D4. cbn [Num.gt].
  destruct (Num.Qltb (w / h) (iw / ih)) eqn:E;
    [apply Qltb_true in E | apply Qltb_false in E].
  - exists ((iw / ih) / (w / h))%Q, 1%Q. rewrite D2.
    split; [reflexivity |]. destruct (L1 E).
    repeat split; try lra. now right.
  - exists 1%Q, ((w / h) / (iw / ih))%Q. rewrite D1.
    split; [reflexivity |]. destruct (L2 E).
    repeat split; try lra. now left.
Qed.

Lemma fit_cover_witness :
  exists sx sy : Q,
    onTextureLoad cover (Fin 1.2) (Fin 2.0) (Fin 1600) (Fin 1200)
      (slideAt 0 (Fin 0))
    = with_scale_y (with_scale_x (slideAt 0 (Fin 0)) (Fin sx)) (Fin sy)
    /\ (1 <= sx)%Q /\ (1 <= sy)%Q
    /\ (sx = 1%Q \/ sy = 1%Q)
    /\ (1.2 * sx * 1200 == 2.0 * sy * 1600)%Q.
Proof.
  exact (fit_cover 1.2 2.0 1600 1200 (slideAt 0 (Fin 0))
           eq_refl eq_refl eq_refl eq_refl).
Defined.

(** ** Hit testing *)

(** X6. The pointer in device coordinates: for a canvas rectangle of
    positive width and height, [checkSlideIntersection] hands the ray caster
    a point whose x lies in [[-1, 1]] exactly when the pointer is between
    the left and the right edge, and whose y lies in [[-1, 1]] exactly when
    it is between the top and the bottom edge; the top left corner goes to
    [(-1, 1)].  With no camera or no slide it answers [false] without
    asking the ray caster, and otherwise it answers whether the ray caster
    found a slide at that point. *)
Theorem pointer_in_canvas (left top width height x y : Q)
    (slides : list Mesh)
    (intersectObjects : num * num -> list Mesh -> list Mesh) :
  (0 < width)%Q -> (0 < height)%Q ->
  let rect := mkRect (Fin left) (Fin top) (Fin width) (Fin height) in
  exists nx ny : Q,
    pointerNDC rect (Fin x) (Fin y) = (Fin nx, Fin ny)
    /\ ((-1 <= nx <= 1)%Q <-> (left <= x <= left + width)%Q)
    /\ ((-1 <= ny <= 1)%Q <-> (top <= y <= top + height)%Q)
    /\ (x == left -> nx == -1)%Q /\ (y == top -> ny == 1)%Q
    /\ checkSlideIntersection false slides (Some rect) intersectObjects
         (Fin x) (Fin y) = false
    /\ checkSlideIntersection true [] (Some rect) intersectObjects
         (Fin x) (Fin y) = false
    /\ (slides <> [] ->
        checkSlideIntersection true slides (Some rect) intersectObjects
          (Fin x) (Fin y)
        = negb (length (intersectObjects (Fin nx, Fin ny) slides) =? 0)%nat).
Proof.
  intros Hw Hh rect.
  exists ((x + - left) / width * 2 + - (1))%Q,
         (- ((y + - top) / height) * 2 + 1)%Q.
  assert (E : pointerNDC rect (Fin x) (Fin y)
              = (Fin ((x + - left) / width * 2 + - (1)),
                 Fin (- ((y + - top) / height) * 2 + 1))).
  { unfold pointerNDC, rect. cbn [rect_left rect_top rect_width rect_height].
    cbn [Num.sub Num.add Num.neg]. rewrite !div_fin by lra. reflexivity. }
  pose proof (Qdiv_mult (x + - left) width Hw) as Ex.
  pose proof (Qdiv_mult (y + - top) height Hh) as Ey.
  split; [exact E |].
  split; [split; intros; split; nra |].
  split; [split; intros; split; nra |].
  split; [intros; nra |]. split; [intros; nra |].
  split; [reflexivity |]. split; [reflexivity |].
  intros Hs. unfold checkSlideIntersection.
  assert (Hl : (length slides =? 0)%nat = false)
    by (destruct slides; [contradiction | reflexivity]).
  assert (Zw : isZero (rect_width rect) = false)
    by (cbn; apply Qeqb0_false; lra).
  assert (Zh : isZero (rect_height rect) = false)
    by (cbn; apply Qeqb0_false; lra).
  rewrite Hl, Zw, Zh. cbn [negb orb]. rewrite E.
  destruct (length (intersectObjects _ _)); reflexivity.
Qed.

Lemma pointer_in_canvas_witness :
  exists nx ny : Q,
    pointerNDC (mkRect (Fin 10) (Fin 20) (Fin 800) (Fin 450))
      (Fin 410) (Fin 20)
    = (Fin nx, Fin ny)
    /\ ((-1 <= nx <= 1)%Q <-> (10 <= 410 <= 10 + 800)%Q).
Proof.
  destruct (pointer_in_canvas 10 20 800 450 410 20 [] (fun _ l => l)
              eq_refl eq_refl) as (nx & ny & E & Hx & _).
  exists nx, ny. split; [exact E | exact Hx].
Defined.

(** ** The slides stay in the band of the strip *)

Lemma mapi_from_Forall2 {A B : Type} (P : A -> Prop) (Q : B -> Prop)
    (f : A -> nat -> B) :
  (forall x i, P x -> Q (f x i)) ->
  forall l k, Forall P l -> Forall Q (mapi_from f k l).
Proof.
  intros H l. induction l as [| x r IH]; intros k Hl; simpl; constructor;
    inversion Hl; subst; auto.
Qed.

Lemma mapi_from_length {A B : Type} (f : A -> nat -> B) (l : list A) (k : nat) :
  length (mapi_from f k l) = length l.
Proof. revert k. induction l as [| x r IH]; intros k; simpl; auto. Qed.

(** One slide through the [forEach] callback: it stays in the band, the
    culling test passes, and the mesh is moved and displaced. *)
Lemma updateSlide_inBand (w g n p : Q) (uc : Mesh -> num -> num -> Mesh)
    (d : num) (slide : Mesh) (i : nat) :
  (0 < n * (w + g))%Q -> (0 <= w)%Q ->
  (forall m x y, currentX (uc m x y) = currentX m) ->
  (forall m x y, position_x (uc m x y) = position_x m) ->
  let T := totalWidth (Fin w) (Fin g) (Fin n) in
  inBand T slide ->
  let slide' := updateSlide (Fin w) (Fin g) (Fin n) uc (Fin p) d slide i in
  inBand T slide'
  /\ position_x slide' = currentX slide'
  /\ (Num.abs (currentX slide') <? (T / Fin 2 + Fin w) * Fin 1.5) = true.
Proof.
  intros Hpos Hw Hc Hx T [B1 B2] slide'.
  destruct (Qbase_range w g n Hpos i p) as [R1 R2].
  unfold T, totalWidth in B1, B2. cbn [Num.add Num.mul] in B1, B2.
  rewrite div_fin_2 in B1, B2. cbn [Num.neg] in B1.
  destruct (currentX slide) as [c | | |] eqn:Ec; simpl in B1, B2;
    try contradiction.
  set (b := Qbase w g n i p) in *.
  set (h := (n * (w + g) / 2)%Q) in *.
  assert (Hh : (0 < h)%Q).
  { unfold h. unfold Qdiv. change (/ 2)%Q with (1 # 2)%Q. lra. }
  (* the eased position, whichever branch the wrap test takes *)
  assert (exists cx : Q,
             snd (easeSlide (Fin w) (Fin b) slide) = Fin cx
             /\ (- h <= cx <= h)%Q) as (cx & Ecx & Hcx).
  { unfold easeSlide, settings.slideLerp. cbn [snd]. rewrite Ec.
    destruct (Num.abs (Fin b - targetX slide) >? Fin w * Fin 2).
    - eexists. split; [reflexivity |]. lra.
    - eexists. split; [reflexivity |]. lra. }
  assert (Etest : (Num.abs (Fin cx) <? (T / Fin 2 + Fin w) * Fin 1.5) = true).
  { unfold T, totalWidth. cbn [Num.add Num.mul]. rewrite div_fin_2.
    cbn [Num.add Num.mul Num.abs Num.ltb Num.gt]. fold h.
    apply Qltb_true. apply Qabs_case; intros; lra. }
  unfold slide', updateSlide. rewrite (wrapBase_fin w g n Hpos). fold b.
  rewrite (surjective_pairing (easeSlide (Fin w) (Fin b) slide)).
  rewrite Ecx.
  cbn [with_layout with_position_x currentX position_x].
  fold T. rewrite Etest.
  rewrite Hc, Hx. cbn [currentX position_x].
  split; [| split; [reflexivity | exact Etest]].
  unfold inBand, T, totalWidth. cbn [Num.add Num.mul]. rewrite div_fin_2.
  rewrite Hc. cbn [Num.neg Num.le currentX with_position_x with_layout].
  fold h. lra.
Qed.

Lemma updateCurve_keeps_currentX (Math : MathObject) (m : Mesh) (x d : num) :
  currentX (updateCurve Math m x d) = currentX m.
Proof. reflexivity. Qed.

Lemma updateCurve_keeps_position_x (Math : MathObject) (m : Mesh) (x d : num) :
  position_x (updateCurve Math m x d) = position_x m.
Proof. reflexivity. Qed.

Lemma forEach_drawn (w g n p : Q) (uc : Mesh -> num -> num -> Mesh)
    (d : num) (slides : list Mesh) :
  (0 < n * (w + g))%Q -> (0 <= w)%Q ->
  (forall m x y, currentX (uc m x y) = currentX m) ->
  (forall m x y, position_x (uc m x y) = position_x m) ->
  let T := totalWidth (Fin w) (Fin g) (Fin n) in
  Forall (inBand T) slides ->
  Forall (drawn (Fin w) T)
    (forEach (updateSlide (Fin w) (Fin g) (Fin n) uc (Fin p) d) slides).
Proof.
  intros Hpos Hw Hc Hx T Hs. unfold forEach.
  apply mapi_from_Forall2 with (P := inBand T); [| exact Hs].
  intros m i Hm. now apply updateSlide_inBand.
Qed.

Lemma drawn_inBand (w T : num) (slides : list Mesh) :
  Forall (drawn w T) slides -> Forall (inBand T) slides.
Proof. apply Forall_impl. now intros m [H _]. Qed.

Lemma Draggable_handler_slides (Math : MathObject) (slideWidth gap slideCount : num)
    (s : Refs) (e : Event) :
  ~ isFrame e ->
  slides (Draggable.step Math slideWidth gap slideCount s e) = slides s.
Proof.
  destruct e; cbn [Draggable.step isFrame]; intros He;
    try reflexivity; try (now destruct He).
  - destruct key; reflexivity.
  - unfold Draggable.handleMouseDown. destruct intersects; reflexivity.
  - unfold Draggable.handleMouseMove. destruct (isDragging s); reflexivity.
  - unfold Draggable.handleMouseUpOrLeave.
    destruct (isDragging s); [| reflexivity].
    match goal with |- context [if ?c then _ else _] => destruct c end;
      reflexivity.
Qed.

Lemma Slider_handler_slides (Math : MathObject) (slideWidth gap slideCount : num)
    (s : Refs) (e : Event) :
  ~ isFrame e ->
  slides (Slider.step Math slideWidth gap slideCount s e) = slides s.
Proof.
  destruct e; cbn [Slider.step isFrame]; intros He;
    try reflexivity; try (now destruct He).
  - destruct key; reflexivity.
  - unfold Slider.handleTouchEnd.
    match goal with |- context [if ?c then _ else _] => destruct c end;
      reflexivity.
Qed.

Lemma Legacy_handler_slides (Math : MathObject) (s : Refs) (e : Event) :
  ~ isFrame e ->
  slides (Legacy.step Math s e) = slides s.
Proof.
  destruct e; cbn [Legacy.step isFrame]; intros He;
    try reflexivity; try (now destruct He).
  - destruct key; reflexivity.
  - unfold Legacy.handleTouchEnd.
    match goal with |- context [if ?c then _ else _] => destruct c end;
      reflexivity.
Qed.

Lemma isFrame_dec (e : Event) : {isFrame e} + {~ isFrame e}.
Proof. destruct e; cbn; auto. Qed.

Lemma Draggable_frame_drawn_at (Math : MathObject) (w g n : Q) (time : num)
    (s : Refs) :
  (0 < n * (w + g))%Q -> (0 <= w)%Q ->
  let T := totalWidth (Fin w) (Fin g) (Fin n) in
  Num.finite
    (currentPosition (Draggable.animate Math (Fin w) (Fin g) (Fin n) time s)) ->
  Forall (inBand T) (slides s) ->
  Forall (drawn (Fin w) T)
    (slides (Draggable.animate Math (Fin w) (Fin g) (Fin n) time s)).
Proof.
  intros Hpos Hw T Hp Hs.
  rewrite Draggable_slides.
  destruct (finite_inv _ Hp) as (p & ->).
  apply forEach_drawn; auto.
Qed.

Lemma Draggable_frame_drawn (Math : MathObject) (w g n : Q) (time : num) (s : Refs) :
  (0 < n * (w + g))%Q -> (0 <= w)%Q ->
  let T := totalWidth (Fin w) (Fin g) (Fin n) in
  bounded s -> deliverable s (AnimationFrame time) ->
  Forall (inBand T) (slides s) ->
  Forall (drawn (Fin w) T)
    (slides (Draggable.animate Math (Fin w) (Fin g) (Fin n) time s)).
Proof.
  intros Hpos Hw T Hb Hd Hs.
  destruct (Draggable_frame_bounded Math (Fin w) (Fin g) (Fin n) time s Hb Hd)
    as [((Hp & _) & _) _].
  now apply Draggable_frame_drawn_at.
Qed.

Lemma Slider_frame_drawn (Math : MathObject) (w g n : Q) (time : num) (s : Refs) :
  (0 < n * (w + g))%Q -> (0 <= w)%Q ->
  let T := totalWidth (Fin w) (Fin g) (Fin n) in
  bounded s -> deliverable s (AnimationFrame time) ->
  Forall (inBand T) (slides s) ->
  Forall (drawn (Fin w) T)
    (slides (Slider.animate Math (Fin w) (Fin g) (Fin n) time s)).
Proof.
  intros Hpos Hw T Hb Hd Hs.
  destruct (Slider_frame_bounded Math (Fin w) (Fin g) (Fin n) time s Hb Hd)
    as [((Hp & _) & _) _].
  rewrite Slider_slides.
  destruct (finite_inv _ Hp) as (p & ->).
  apply forEach_drawn; auto.
Qed.

Section BandTrace.

Variable T : num.
Variable step : Refs -> Event -> Refs.

Hypothesis step_bounded :
  forall s e, bounded s -> deliverable s e -> bounded (step s e).

Hypothesis step_band :
  forall s e,
    bounded s -> deliverable s e ->
    Forall (inBand T) (slides s) -> Forall (inBand T) (slides (step s e)).

Lemma run_inBand (events : list Event) :
  forall s,
    bounded s -> Forall (inBand T) (slides s) ->
    deliverableRun step s events ->
    bounded (run step s events)
    /\ Forall (inBand T) (slides (run step s events)).
Proof.
  induction events as [| e r IH]; intros s Hb Hs Hd; cbn [run fold_left].
  - now split.
  - destruct Hd as [He Hr]. apply IH; auto.
Qed.

End BandTrace.

(** X7. No slide ever leaves the strip, so the culling test of [animate]
    never skips one.  In the draggable slider and in the wheel slider with
    slides of width [w >= 0] and a positive total width [T], start with
    every slide at a [currentX] in [[-T/2, T/2]] (as after mount) and with
    the position refs holding numbers, and deliver any events with numbers
    for coordinates and frames with [deltaTime > 0].  After one more frame
    every slide again has [currentX] in [[-T/2, T/2]], its
    [|currentX|] is below the culling threshold [(T/2 + w) * 1.5], and its
    mesh has been moved to [currentX]. *)
Theorem slides_stay_in_band (Math : MathObject) (w g n : Q) (s : Refs)
    (events : list Event) (time : num) :
  (0 < n * (w + g))%Q -> (0 <= w)%Q ->
  let T := totalWidth (Fin w) (Fin g) (Fin n) in
  bounded s -> Forall (inBand T) (slides s) ->
  (let step := Draggable.step Math (Fin w) (Fin g) (Fin n) in
   deliverableRun step s events ->
   deliverable (run step s events) (AnimationFrame time) ->
   Forall (drawn (Fin w) T)
     (slides (Draggable.animate Math (Fin w) (Fin g) (Fin n) time
                (run step s events))))
  /\ (let step := Slider.step Math (Fin w) (Fin g) (Fin n) in
      deliverableRun step s events ->
      deliverable (run step s events) (AnimationFrame time) ->
      Forall (drawn (Fin w) T)
        (slides (Slider.animate Math (Fin w) (Fin g) (Fin n) time
                   (run step s events)))).
Proof.
  intros Hpos Hw T Hb Hs. split; intros step Hd Hf.
  - assert (Hrun : bounded (run step s events)
                   /\ Forall (inBand T) (slides (run step s events))).
    { apply run_inBand; auto.
      - intros s0 e Hb0 He0.
        now apply (Draggable_step_bounded Math (Fin w) (Fin g) (Fin n) s0 e).
      - intros s0 e Hb0 He0 Hs0. destruct (isFrame_dec e) as [F | F].
        + destruct e; try (now destruct F). cbn [step Draggable.step].
          apply drawn_inBand with (w := Fin w).
          now apply Draggable_frame_drawn.
        + unfold step. now rewrite Draggable_handler_slides. }
    destruct Hrun as [Hb' Hs']. now apply Draggable_frame_drawn.
  - assert (Hrun : bounded (run step s events)
                   /\ Forall (inBand T) (slides (run step s events))).
    { apply run_inBand; auto.
      - intros s0 e Hb0 He0.
        now apply (Slider_step_bounded Math (Fin w) (Fin g) (Fin n) s0 e).
      - intros s0 e Hb0 He0 Hs0. destruct (isFrame_dec e) as [F | F].
        + destruct e; try (now destruct F). cbn [step Slider.step].
          apply drawn_inBand with (w := Fin w).
          now apply Slider_frame_drawn.
        + unfold step. now rewrite Slider_handler_slides. }
    destruct Hrun as [Hb' Hs']. now apply Slider_frame_drawn.
Qed.

Lemma slides_stay_in_band_witness :
  let s := mounted (mountSlides (Fin 3.0) (Fin 0.1) [Fin (-1.5); Fin 0.75; Fin 0] 10)
             (Fin 31) (Fin 1000) in
  let T := totalWidth (Fin 3.0) (Fin 0.1) (Fin 10) in
  Forall (drawn (Fin 3.0) T)
    (slides (Draggable.animate sampleMath (Fin 3.0) (Fin 0.1) (Fin 10) (Fin 1048)
               (run (Draggable.step sampleMath (Fin 3.0) (Fin 0.1) (Fin 10))
                  s dragSample)))
  /\ Forall (drawn (Fin 3.0) T)
       (slides (Slider.animate sampleMath (Fin 3.0) (Fin 0.1) (Fin 10) (Fin 1048)
                  (run (Slider.step sampleMath (Fin 3.0) (Fin 0.1) (Fin 10))
                     s dragSample))).
Proof.
  intros s T.
  assert (Hpos : (0 < 10 * (3.0 + 0.1))%Q) by reflexivity.
  assert (Hw : (0 <= 3.0)%Q) by discriminate.
  assert (Hb : bounded s) by (vm_compute; repeat split; discriminate).
  assert (Hs : Forall (inBand T) (slides s))
    by (repeat constructor; vm_compute; discriminate).
  destruct (slides_stay_in_band sampleMath 3.0 0.1 10 s dragSample (Fin 1048)
              Hpos Hw Hb Hs) as [HD HS].
  split.
  - apply HD; vm_compute; repeat split.
  - apply HS; vm_compute; repeat split.
Defined.

Lemma Legacy_frame_drawn (Math : MathObject) (time : num) (s : Refs) :
  bounded s -> deliverable s (AnimationFrame time) ->
  Forall (inBand Legacy.totalWidth) (slides s) ->
  Forall (drawn Legacy.slideWidth Legacy.totalWidth)
    (slides (Legacy.animate Math time s)).
Proof.
  intros Hb Hd Hs.
  destruct (Legacy_frame_bounded Math time s Hb Hd) as [((Hp & _) & _) _].
  rewrite Legacy_slides.
  destruct (finite_inv _ Hp) as (p & ->).
  apply (forEach_drawn 3.0 0.1 10 p (Legacy.updateCurve Math)); auto.
  - reflexivity.
  - discriminate.
Qed.

(** X8. The same for the first slider of [ThreeSlider.tsx], whose
    dimensions are constants: along any run of deliverable events from a
    state with numbers in the position refs and every slide in the band,
    the next frame finds every slide in the band, below the culling
    threshold, and moves its mesh to [currentX]. *)
Theorem legacy_slides_stay_in_band (Math : MathObject) (s : Refs)
    (events : list Event) (time : num) :
  bounded s -> Forall (inBand Legacy.totalWidth) (slides s) ->
  deliverableRun (Legacy.step Math) s events ->
  deliverable (run (Legacy.step Math) s events) (AnimationFrame time) ->
  Forall (drawn Legacy.slideWidth Legacy.totalWidth)
    (slides (Legacy.animate Math time (run (Legacy.step Math) s events))).
Proof.
  intros Hb Hs Hd Hf.
  assert (Hrun : bounded (run (Legacy.step Math) s events)
                 /\ Forall (inBand Legacy.totalWidth)
                      (slides (run (Legacy.step Math) s events))).
  { apply run_inBand; auto.
    - intros s0 e Hb0 He0. now apply (Legacy_step_bounded Math s0 e).
    - intros s0 e Hb0 He0 Hs0. destruct (isFrame_dec e) as [F | F].
      + destruct e; try (now destruct F). cbn [Legacy.step].
        apply drawn_inBand with (w := Legacy.slideWidth).
        now apply Legacy_frame_drawn.
      + now rewrite Legacy_handler_slides. }
  destruct Hrun as [Hb' Hs']. now apply Legacy_frame_drawn.
Qed.

Lemma legacy_slides_stay_in_band_witness :
  let s := mounted (mountSlides (Fin 3.0) (Fin 0.1) [Fin (-1.5); Fin 0.75; Fin 0] 10)
             (Fin 31) (Fin 1000) in
  Forall (drawn Legacy.slideWidth Legacy.totalWidth)
    (slides (Legacy.animate sampleMath (Fin 1048)
               (run (Legacy.step sampleMath) s
                  [Wheel (Fin 120); AnimationFrame (Fin 1016);
                   KeyDown ArrowLeft; AnimationFrame (Fin 1032)]))).
Proof.
  intros s.
  assert (Hb : bounded s) by (vm_compute; repeat split; discriminate).
  assert (Hs : Forall (inBand Legacy.totalWidth) (slides s))
    by (repeat constructor; vm_compute; discriminate).
  apply (legacy_slides_stay_in_band sampleMath s _ (Fin 1048) Hb Hs);
    vm_compute; repeat split.
Defined.

(** ** Mount *)

Lemma of_nat_le (i j : nat) :
  (i <= j)%nat -> (inject_Z (Z.of_nat i) <= inject_Z (Z.of_nat j))%Q.
Proof. intros H. rewrite <- Zle_Qle. lia. Qed.

Lemma mountSlides_length (slideWidth gap : num) (geometry : list num) (count : nat) :
  length (mountSlides slideWidth gap geometry count) = count.
Proof. unfold mountSlides. now rewrite !length_map, length_seq. Qed.


(** The slides as mount leaves them lie in the band. *)
Lemma mountSlides_inBand (w g : Q) (geometry : list num) (count : nat) :
  (0 < w + g)%Q ->
  Forall (inBand (totalWidth (Fin w) (Fin g) (Num.of_nat count)))
    (mountSlides (Fin w) (Fin g) geometry count).
Proof.
  intros Hu. unfold mountSlides. rewrite map_map. apply Forall_map.
  apply Forall_forall. intros i Hi. apply in_seq in Hi.
  assert (H0 : (0 <= inject_Z (Z.of_nat i))%Q)
    by (apply (of_nat_le 0 i); lia).
  assert (H1 : (inject_Z (Z.of_nat i) <= inject_Z (Z.of_nat count))%Q)
    by (apply of_nat_le; lia).
  unfold inBand, centreSlide, createSlide, totalWidth, slideUnit, Num.of_nat.
  cbn [with_layout with_position_x position_x currentX Num.add Num.mul Num.sub
       Num.neg].
  rewrite div_fin_2. cbn [Num.add Num.neg Num.le].
  set (a := inject_Z (Z.of_nat i)) in *.
  set (c := inject_Z (Z.of_nat count)) in *.
  unfold Qdiv. change (/ 2)%Q with (1 # 2)%Q.
  split; nra.
Qed.

(** The scroll position after the frame that mount runs. *)
Lemma Draggable_mount_position (Math : MathObject) (slideWidth gap slideCount : num)
    (slides : list Mesh) (T : Q) (now : num) :
  let s' := Draggable.animate Math slideWidth gap slideCount now
              (mounted slides (Fin T) now) in
  currentPosition s' = Fin (- T / 2 + (- T / 2 + - (- T / 2)) * 0.1)
  /\ targetPosition s' = Fin (- T / 2)
  /\ autoScrollSpeed s' = Fin 0
  /\ isDragging s' = false.
Proof. repeat split; reflexivity. Qed.

(** X9. Mount of the draggable slider.  With a container of zero width or
    height the effect returns before it builds anything: the refs, the
    camera and renderer and the listeners stay as they were, whatever the
    window size it took as a fallback.  Otherwise, for [count > 0] slides
    with [slideWidth >= 0] and [slideWidth + gap > 0], a first mount
    registers the listeners and runs one frame, after which there are
    [count] slides, each drawn inside the band [[-T/2, T/2]], the velocity
    tracker and the distortion factors satisfy their invariant, and the
    strip rests centred: [currentPosition] and [targetPosition] are [-T/2],
    there is no momentum and no drag. *)
Theorem mount_starts_the_slider (Math : MathObject) (w g : Q) (count : nat)
    (geometry : list num) (clientWidth clientHeight devicePixelRatio now : num) :
  let T := totalWidth (Fin w) (Fin g) (Num.of_nat count) in
  let mount :=
    DraggableHost.mount Math (Fin w) (Fin g) count geometry
      clientWidth clientHeight devicePixelRatio now in
  (forall h,
      (isZero clientWidth || isZero clientHeight) = true ->
      host_refs (mount h) = host_refs h
      /\ host_view (mount h) = host_view h
      /\ host_listening (mount h) = host_listening h)
  /\ ((isZero clientWidth || isZero clientHeight) = false ->
      (0 < count)%nat -> (0 < w + g)%Q -> (0 <= w)%Q -> Num.finite now ->
      let s := host_refs (mount initialHost) in
      host_listening (mount initialHost) = true
      /\ length (slides s) = count
      /\ Forall (drawn (Fin w) T) (slides s)
      /\ tracked s
      /\ currentPosition s =~ - T / Fin 2
      /\ targetPosition s =~ - T / Fin 2
      /\ autoScrollSpeed s = Fin 0
      /\ isDragging s = false).
Proof.
  intros T mount. split.
  - intros h Hz. unfold mount, DraggableHost.mount. rewrite Hz.
    repeat split.
  - intros Hz Hc Hu Hw Hnow s.
    set (n := inject_Z (Z.of_nat count)).
    assert (Hn : (0 < n)%Q).
    { unfold n. change 0%Q with (inject_Z 0). rewrite <- Zlt_Qlt. lia. }
    assert (Hpos : (0 < n * (w + g))%Q) by nra.
    set (ms := mountSlides (Fin w) (Fin g) geometry count).
    assert (Es : s = Draggable.animate Math (Fin w) (Fin g) (Fin n) now
                       (mounted ms (Fin (n * (w + g))) now)).
    { unfold s, mount, DraggableHost.mount. rewrite Hz. reflexivity. }
    destruct (Draggable_mount_position Math (Fin w) (Fin g) (Fin n) ms
                (n * (w + g)) now) as (Ecp & Etp & Ea & Ed).
    cbv zeta in Ecp, Etp, Ea, Ed. rewrite <- Es in Ecp, Etp, Ea, Ed.
    split; [| split; [| split; [| split; [| split; [| split; [| split]]]]]].
    + unfold mount, DraggableHost.mount. rewrite Hz. reflexivity.
    + rewrite Es, Draggable_slides. unfold forEach.
      rewrite mapi_from_length. apply mountSlides_length.
    + rewrite Es.
      apply (Draggable_frame_drawn_at Math w g n now); auto.
      * rewrite <- Es, Ecp. exact I.
      * apply (mountSlides_inBand w g geometry count Hu).
    + rewrite Es.
      apply (Draggable_mount_tracked Math (Fin w) (Fin g) (Fin n) ms
               (n * (w + g)) now Hnow).
    + rewrite Ecp. unfold T, totalWidth, Num.of_nat. fold n.
      cbn [Num.add Num.mul Num.neg]. rewrite div_fin_2. cbn [Num.eq].
      field.
    + rewrite Etp. unfold T, totalWidth, Num.of_nat. fold n.
      cbn [Num.add Num.mul Num.neg]. rewrite div_fin_2. cbn [Num.eq].
      field.
    + exact Ea.
    + exact Ed.
Qed.

Lemma mount_starts_the_slider_witness :
  let h := DraggableHost.mount sampleMath (Fin 3.0) (Fin 0.1) 10
             [Fin (-1.5); Fin 0.75; Fin 0]
             (Fin 1280) (Fin 720) (Fin 3) (Fin 1000) initialHost in
  length (slides (host_refs h)) = 10%nat
  /\ Forall (drawn (Fin 3.0) (totalWidth (Fin 3.0) (Fin 0.1) (Num.of_nat 10)))
       (slides (host_refs h))
  /\ tracked (host_refs h).
Proof.
  intros h.
  destruct (proj2 (mount_starts_the_slider sampleMath 3.0 0.1 10
                     [Fin (-1.5); Fin 0.75; Fin 0]
                     (Fin 1280) (Fin 720) (Fin 3) (Fin 1000)))
    as (_ & Hl & Hd & Ht & _).
  - reflexivity.
  - lia.
  - reflexivity.
  - discriminate.
  - exact I.
  - exact (conj Hl (conj Hd Ht)).
Defined.




(** ** Dragging *)

Section Drag.

Variable Math : MathObject.
Variables slideWidth gap slideCount : num.

Let step := Draggable.step Math slideWidth gap slideCount.

(** One event of a drag under way: the target follows the pointer, and
    the drag goes on with the momentum it had. *)
Lemma drag_step (s : Refs) (e : Event) :
  isDragging s = true ->
  Num.finite (targetPosition s) -> Num.finite (dragLastX s) ->
  dragging e ->
  isDragging (step s e) = true
  /\ Num.finite (targetPosition (step s e))
  /\ Num.finite (dragLastX (step s e))
  /\ dragStartX (step s e) = dragStartX s
  /\ autoScrollSpeed (step s e) = autoScrollSpeed s
  /\ targetPosition (step s e) + dragLastX (step s e) * settings.dragSensitivity
     =~ targetPosition s + dragLastX s * settings.dragSensitivity.
Proof.
  intros Hd Ht Hl He. unfold step.
  destruct e; cbn [Draggable.step dragging] in *; try contradiction.
  - unfold Draggable.handleMouseMove. rewrite Hd. refs_simpl.
    destruct (finite_inv _ Ht) as (t & Et), (finite_inv _ Hl) as (l & El),
      (finite_inv _ He) as (x & ->).
    rewrite Et, El. unfold settings.dragSensitivity.
    cbn [Num.add Num.sub Num.neg Num.mul Num.eq Num.finite].
    repeat split; auto. ring.
  - pose proof (Draggable_frame_spec Math slideWidth gap slideCount time s)
      as (_ & Hm & _ & _ & _ & _ & _ & _ & _ & _ & _ & _ & _ & _
          & D1 & _ & _ & _ & D2 & D3 & _).
    cbv zeta in Hm, D1, D2, D3. rewrite Hd in Hm. cbn [negb andb] in Hm.
    injection Hm as Etp Ea.
    rewrite D1, D2, D3, Etp, Ea.
    repeat split; auto. apply num_eq_refl; auto with numfin.
Qed.

Lemma drag_run (events : list Event) :
  forall s,
    isDragging s = true ->
    Num.finite (targetPosition s) -> Num.finite (dragLastX s) ->
    Forall dragging events ->
    let s' := run step s events in
    isDragging s' = true
    /\ Num.finite (targetPosition s')
    /\ Num.finite (dragLastX s')
    /\ dragStartX s' = dragStartX s
    /\ autoScrollSpeed s' = autoScrollSpeed s
    /\ targetPosition s' + dragLastX s' * settings.dragSensitivity
       =~ targetPosition s + dragLastX s * settings.dragSensitivity.
Proof.
  induction events as [| e r IH]; intros s Hd Ht Hl He; cbn [run fold_left].
  - repeat split; auto. apply num_eq_refl; auto with numfin.
  - inversion He as [| ? ? He1 He2]; subst.
    destruct (drag_step s e Hd Ht Hl He1) as (D1 & T1 & L1 & S1 & A1 & E1).
    destruct (IH (step s e) D1 T1 L1 He2) as (D2 & T2 & L2 & S2 & A2 & E2).
    cbv zeta in *. fold (run step (step s e) r) in *.
    repeat split; auto; try congruence.
    eapply num_eq_trans; [exact E2 | exact E1].
Qed.

End Drag.

(** X11. The strip follows the pointer.  In the draggable slider, while a
    drag is under way, deliver any pointer moves (with numbers for
    coordinates) and frames, in any order: the drag stays under way, the
    momentum is untouched, and [targetPosition] has moved by the net travel
    of the pointer times [dragSensitivity], against the pointer:
    [targetPosition' = targetPosition - (dragLastX' - dragLastX) * 0.02].
    Neither the path of the pointer nor the frames in between change
    where the target ends up. *)
Theorem drag_follows_pointer (Math : MathObject) (slideWidth gap slideCount : num)
    (events : list Event) (s : Refs) :
  isDragging s = true ->
  Num.finite (targetPosition s) -> Num.finite (dragLastX s) ->
  Forall dragging events ->
  let s' := run (Draggable.step Math slideWidth gap slideCount) s events in
  isDragging s' = true
  /\ autoScrollSpeed s' = autoScrollSpeed s
  /\ targetPosition s'
     =~ targetPosition s
        - (dragLastX s' - dragLastX s) * settings.dragSensitivity.
Proof.
  intros Hd Ht Hl He s'.
  destruct (drag_run Math slideWidth gap slideCount events s Hd Ht Hl He)
    as (D & T & L & _ & A & E).
  cbv zeta in *. fold s' in D, T, L, A, E.
  split; [exact D | split; [exact A |]].
  destruct (finite_inv _ Ht) as (t & Et), (finite_inv _ Hl) as (l & El),
    (finite_inv _ T) as (t' & Et'), (finite_inv _ L) as (l' & El').
  rewrite Et, El, Et', El' in *. unfold settings.dragSensitivity in *.
  cbn [Num.add Num.sub Num.neg Num.mul Num.eq] in *. lra.
Qed.

Lemma drag_follows_pointer_witness :
  let s := Draggable.step sampleMath (Fin 3.0) (Fin 0.1) (Fin 10)
             (mounted [] (Fin 31) (Fin 1000)) (MouseDown (Fin 100) true) in
  let s' := run (Draggable.step sampleMath (Fin 3.0) (Fin 0.1) (Fin 10)) s
              [MouseMove (Fin 150); AnimationFrame (Fin 1016);
               MouseMove (Fin 90); MouseMove (Fin 300)] in
  targetPosition s'
  =~ targetPosition s - (dragLastX s' - dragLastX s) * settings.dragSensitivity.
Proof.
  intros s s'.
  apply (drag_follows_pointer sampleMath (Fin 3.0) (Fin 0.1) (Fin 10)
           [MouseMove (Fin 150); AnimationFrame (Fin 1016);
            MouseMove (Fin 90); MouseMove (Fin 300)] s).
  - reflexivity.
  - exact I.
  - exact I.
  - repeat constructor.
Defined.

(** X12. A whole drag gesture: a press that hits a slide at [x0], any
    pointer moves and frames, and the release.  Afterwards no drag is
    under way, [targetPosition] has moved by [-(xl - x0) * 0.02] where
    [xl] is the last pointer position, and the momentum is decided by the
    net travel alone: [-(xl - x0) * 0.0005] if the pointer ended more
    than 100 pixels from where it was pressed, and zero otherwise,
    whatever momentum there was before the press. *)
Theorem drag_gesture (Math : MathObject) (slideWidth gap slideCount : num)
    (x0 : num) (moves : list Event) (s : Refs) :
  Num.finite (targetPosition s) -> Num.finite x0 ->
  Forall dragging moves ->
  let s' := run (Draggable.step Math slideWidth gap slideCount) s
              (MouseDown x0 true :: moves ++ [MouseUp]) in
  let travel := dragLastX s' - x0 in
  isDragging s' = false
  /\ targetPosition s' =~ targetPosition s - travel * Fin 0.02
  /\ (if Num.abs travel >? Fin 100
      then autoScrollSpeed s' =~ - travel * Fin 0.0005
      else autoScrollSpeed s' = Fin 0).
Proof.
  intros Ht Hx Hm s' travel.
  set (step := Draggable.step Math slideWidth gap slideCount) in *.
  set (s0 := step s (MouseDown x0 true)).
  set (s1 := run step s0 moves).
  assert (Es' : s' = step s1 MouseUp).
  { unfold s', run. cbn [fold_left]. rewrite fold_left_app. reflexivity. }
  destruct (drag_run Math slideWidth gap slideCount moves s0)
    as (D & T & L & S & A & E); try assumption; try reflexivity.
  cbv zeta in D, T, L, S, A, E. fold step in D, T, L, S, A, E.
  fold s1 in D, T, L, S, A, E.
  change (dragStartX s0) with x0 in S.
  change (autoScrollSpeed s0) with (Fin 0) in A.
  change (targetPosition s0) with (targetPosition s) in E.
  change (dragLastX s0) with x0 in E.
  assert (El : dragLastX s' = dragLastX s1).
  { rewrite Es'. unfold step. cbn [Draggable.step].
    unfold Draggable.handleMouseUpOrLeave. rewrite D.
    match goal with |- context [if ?c then _ else _] => destruct c end;
      reflexivity. }
  unfold travel. rewrite El. rewrite Es'. clear Es' El travel.
  unfold step. cbn [Draggable.step].
  unfold Draggable.handleMouseUpOrLeave. rewrite D.
  cbn [dragStartX dragLastX set_isDragging]. rewrite S.
  destruct (finite_inv _ Ht) as (t & Et), (finite_inv _ Hx) as (x & Ex),
    (finite_inv _ T) as (t1 & Et1), (finite_inv _ L) as (l1 & El1).
  rewrite Et, Ex, Et1, El1 in *.
  unfold settings.dragSensitivity, settings.momentumMultiplier,
    settings.distortionSensitivity in *.
  cbn [Num.add Num.sub Num.neg Num.mul Num.eq Num.abs Num.gt Num.ltb] in *.
  destruct (Num.Qltb 0.5 (Qabs ((l1 + - x) * 0.005))) eqn:V;
    destruct (Num.Qltb 100 (Qabs (l1 + - x))) eqn:W;
    refs_simpl; rewrite ?Et1, ?A;
    cbn [Num.add Num.sub Num.neg Num.mul Num.eq];
    repeat split; try lra.
  - apply Qltb_true in V. apply Qltb_false in W. exfalso.
    revert V W. apply Qabs_case; apply Qabs_case; intros; lra.
  - apply Qltb_false in V. apply Qltb_true in W. exfalso.
    revert V W. apply Qabs_case; apply Qabs_case; intros; lra.
Qed.

Lemma drag_gesture_witness :
  let s' := run (Draggable.step sampleMath (Fin 3.0) (Fin 0.1) (Fin 10))
              (mounted [] (Fin 31) (Fin 1000))
              (MouseDown (Fin 100) true
               :: [MouseMove (Fin 150); AnimationFrame (Fin 1016);
                   MouseMove (Fin 300)] ++ [MouseUp]) in
  isDragging s' = false
  /\ targetPosition s'
     =~ Fin (- (31) / 2) - (dragLastX s' - Fin 100) * Fin 0.02.
Proof.
  intros s'.
  destruct (drag_gesture sampleMath (Fin 3.0) (Fin 0.1) (Fin 10) (Fin 100)
              [MouseMove (Fin 150); AnimationFrame (Fin 1016);
               MouseMove (Fin 300)]
              (mounted [] (Fin 31) (Fin 1000)))
    as (D & T & _).
  - exact I.
  - exact I.
  - repeat constructor.
  - split; [exact D | exact T].
Defined.

(** ** Arrow keys *)

Lemma of_nat_succ (k : nat) :
  (inject_Z (Z.of_nat (S k)) == inject_Z (Z.of_nat k) + 1)%Q.
Proof.
  rewrite Nat2Z.inj_succ. unfold Z.succ. rewrite inject_Z_plus. reflexivity.
Qed.

Lemma of_nat_nonneg (k : nat) : (0 <= inject_Z (Z.of_nat k))%Q.
Proof. change 0%Q with (inject_Z 0). rewrite <- Zle_Qle. lia. Qed.

Section Keys.

Variable step : Refs -> Event -> Refs.
Variable u : Q.

Hypothesis key_target :
  forall s key,
    targetPosition (step s (KeyDown key))
    = match key with
      | ArrowLeft => targetPosition s + Fin u
      | ArrowRight => targetPosition s - Fin u
      | OtherKey => targetPosition s
      end.

Hypothesis key_distortion :
  forall s key,
    targetDistortionFactor (step s (KeyDown key))
    = match key with
      | OtherKey => targetDistortionFactor s
      | _ => Num.min (Fin 1.0) (targetDistortionFactor s + Fin 0.3)
      end.

Hypothesis key_rest :
  forall s key,
    currentPosition (step s (KeyDown key)) = currentPosition s
    /\ autoScrollSpeed (step s (KeyDown key)) = autoScrollSpeed s.

Lemma key_run (keys : list Key) :
  forall s t d,
    targetPosition s = Fin t -> targetDistortionFactor s = Fin d ->
    (0 <= d <= 1)%Q ->
    let s' := run step s (map KeyDown keys) in
    let left := inject_Z (Z.of_nat (countKey ArrowLeft keys)) in
    let right := inject_Z (Z.of_nat (countKey ArrowRight keys)) in
    targetPosition s' =~ Fin (t + (left - right) * u)
    /\ targetDistortionFactor s'
       =~ Num.min (Fin 1.0) (Fin (d + 0.3 * (left + right)))
    /\ currentPosition s' = currentPosition s
    /\ autoScrollSpeed s' = autoScrollSpeed s.
Proof.
  induction keys as [| key r IH]; intros s t d Et Ed Hd;
    cbn [map run fold_left countKey].
  - rewrite Et, Ed, min_fin. cbn [Num.eq].
    change (inject_Z (Z.of_nat 0)) with 0%Q.
    repeat split; [ring | qtest; lra].
  - pose proof (key_target s key) as Kt.
    pose proof (key_distortion s key) as Kd.
    destruct (key_rest s key) as [Kc Ka].
    rewrite Et in Kt. rewrite Ed in Kd.
    pose proof (of_nat_nonneg (countKey ArrowLeft r)) as Nl.
    pose proof (of_nat_nonneg (countKey ArrowRight r)) as Nr.
    destruct key; cbn [Num.add Num.sub Num.neg] in Kt, Kd;
      try rewrite min_fin in Kd.
    + assert (Hd1 : (0 <= (if Num.Qltb (d + 0.3) 1.0 then d + 0.3 else 1.0) <= 1)%Q)
        by (qtest; lra).
      destruct (IH _ _ _ Kt Kd Hd1) as (I1 & I2 & I3 & I4).
      cbv zeta in *. fold (run step (step s (KeyDown ArrowLeft)) (map KeyDown r)) in *.
      set (s' := run step (step s (KeyDown ArrowLeft)) (map KeyDown r)) in *.
      rewrite I3, I4, Kc, Ka. split; [| split; [| split; reflexivity]].
      * destruct (targetPosition s'); cbn [Num.eq] in I1 |- *; try contradiction.
        rewrite I1, of_nat_succ. ring.
      * rewrite min_fin in I2 |- *.
        destruct (targetDistortionFactor s'); cbn [Num.eq] in I2 |- *; try contradiction.
        pose proof (of_nat_succ (countKey ArrowLeft r)) as Hs.
        set (l1 := inject_Z (Z.of_nat (S (countKey ArrowLeft r)))) in *.
        set (l := inject_Z (Z.of_nat (countKey ArrowLeft r))) in *.
        set (q1 := inject_Z (Z.of_nat (countKey ArrowRight r))) in *.
        repeat qtest; lra.
    + assert (Hd1 : (0 <= (if Num.Qltb (d + 0.3) 1.0 then d + 0.3 else 1.0) <= 1)%Q)
        by (qtest; lra).
      destruct (IH _ _ _ Kt Kd Hd1) as (I1 & I2 & I3 & I4).
      cbv zeta in *. fold (run step (step s (KeyDown ArrowRight)) (map KeyDown r)) in *.
      set (s' := run step (step s (KeyDown ArrowRight)) (map KeyDown r)) in *.
      rewrite I3, I4, Kc, Ka. split; [| split; [| split; reflexivity]].
      * destruct (targetPosition s'); cbn [Num.eq] in I1 |- *; try contradiction.
        rewrite I1, of_nat_succ. ring.
      * rewrite min_fin in I2 |- *.
        destruct (targetDistortionFactor s'); cbn [Num.eq] in I2 |- *; try contradiction.
        pose proof (of_nat_succ (countKey ArrowRight r)) as Hs.
        set (q2 := inject_Z (Z.of_nat (S (countKey ArrowRight r)))) in *.
        set (l := inject_Z (Z.of_nat (countKey ArrowLeft r))) in *.
        set (q1 := inject_Z (Z.of_nat (countKey ArrowRight r))) in *.
        repeat qtest; lra.
    + destruct (IH _ _ _ Kt Kd Hd) as (I1 & I2 & I3 & I4).
      cbv zeta in *. rewrite Kc, Ka in *. auto.
Qed.

End Keys.

(** X13. Arrow keys add up.  In each of the three components, after any
    sequence of key presses with [l] presses of the left arrow and [r] of
    the right arrow (and any other keys in between), [targetPosition] has
    moved by [(l - r) * slideUnit], whatever the order of the presses;
    [targetDistortionFactor], if it started in [[0, 1]], is
    [min(1, start + 0.3 * (l + r))]; and neither [currentPosition] nor
    the momentum has changed, so the strip only moves with the next
    frame. *)
Theorem arrow_keys_add_up (Math : MathObject) (w g : Q) (slideCount : num)
    (keys : list Key) (s : Refs) :
  Num.finite (targetPosition s) -> in_unit (targetDistortionFactor s) ->
  let left := Num.of_nat (countKey ArrowLeft keys) in
  let right := Num.of_nat (countKey ArrowRight keys) in
  let holds (slideUnit : num) (s' : Refs) : Prop :=
    targetPosition s' =~ targetPosition s + (left - right) * slideUnit
    /\ targetDistortionFactor s'
       =~ Num.min (Fin 1.0)
            (targetDistortionFactor s + Fin 0.3 * (left + right))
    /\ currentPosition s' = currentPosition s
    /\ autoScrollSpeed s' = autoScrollSpeed s in
  holds (Fin w + Fin g)
    (run (Draggable.step Math (Fin w) (Fin g) slideCount) s (map KeyDown keys))
  /\ holds (Fin w + Fin g)
       (run (Slider.step Math (Fin w) (Fin g) slideCount) s (map KeyDown keys))
  /\ holds Legacy.slideUnit
       (run (Legacy.step Math) s (map KeyDown keys)).
Proof.
  intros Ht Hd left right holds.
  destruct (finite_inv _ Ht) as (t & Et).
  destruct (in_unit_inv _ Hd) as (d & Ed & Hd').
  unfold holds, left, right, Num.of_nat. rewrite Et, Ed.
  cbn [Num.add Num.sub Num.neg Num.mul].
  split; [| split].
  - apply (key_run (Draggable.step Math (Fin w) (Fin g) slideCount) (w + g));
      auto; intros s0 key; destruct key; try split; reflexivity.
  - apply (key_run (Slider.step Math (Fin w) (Fin g) slideCount) (w + g));
      auto; intros s0 key; destruct key; try split; reflexivity.
  - apply (key_run (Legacy.step Math) (3.0 + 0.1));
      auto; intros s0 key; destruct key; try split; reflexivity.
Qed.

Lemma arrow_keys_add_up_witness :
  let s' := run (Draggable.step sampleMath (Fin 3.0) (Fin 0.1) (Fin 10))
              (mounted [] (Fin 31) (Fin 1000))
              (map KeyDown [ArrowLeft; ArrowRight; OtherKey; ArrowLeft; ArrowLeft]) in
  targetPosition s'
  =~ Fin (- (31) / 2) + (Num.of_nat 3 - Num.of_nat 1) * (Fin 3.0 + Fin 0.1).
Proof.
  intros s'.
  destruct (arrow_keys_add_up sampleMath 3.0 0.1 (Fin 10)
              [ArrowLeft; ArrowRight; OtherKey; ArrowLeft; ArrowLeft]
              (mounted [] (Fin 31) (Fin 1000)))
    as ((T & _) & _).
  - exact I.
  - split; vm_compute; discriminate.
  - exact T.
Defined.

(** ** Momentum and convergence *)

Lemma Qpow_pos (q : Q) (k : nat) : (0 <= q)%Q -> (0 <= Qpow q k)%Q.
Proof.
  intros Hq. induction k as [| k IH]; cbn [Qpow]; [lra |].
  apply Qmult_le_0_compat; assumption.
Qed.

(** The momentum branch of a frame, taken or not: the momentum shrinks by
    at least 3 percent, and the target moves by no more than 100/3 of
    what the momentum lost. *)
Lemma momentum_contracts (t v : Q) (b : bool) :
  exists t' v' : Q,
    (if b then applyMomentum (Fin t) (Fin v) else (Fin t, Fin 0))
    = (Fin t', Fin v')
    /\ (Qabs v' <= 0.97 * Qabs v)%Q
    /\ (Qabs (t' - t) * 0.03 <= Qabs v - Qabs v')%Q.
Proof.
  pose proof (Qabs_nonneg v) as Hv.
  destruct b.
  - destruct (applyMomentum_fin t v) as (k & Ek & ->).
    assert (Hk : (0.92 <= k <= 0.97)%Q).
    { rewrite Ek. apply Q.max_case_strong; intros; lra. }
    assert (Et : (Qabs (t + v - t) == Qabs v)%Q).
    { apply Qabs_wd. ring. }
    assert (Ea : (Qabs (v * k) == Qabs v * k)%Q).
    { rewrite Qabs_Qmult. rewrite (Qabs_pos k); [reflexivity | lra]. }
    destruct (Num.Qltb (Qabs (v * k)) 0.001).
    + exists (t + v)%Q, 0%Q. split; [reflexivity |].
      rewrite Et. change (Qabs 0) with 0%Q. split; lra.
    + exists (t + v)%Q, (v * k)%Q. split; [reflexivity |].
      rewrite Et, Ea. split; nra.
  - exists t, 0%Q. split; [reflexivity |].
    assert (Et : (Qabs (t - t) == 0)%Q).
    { rewrite (Qabs_wd (t - t) 0) by ring. reflexivity. }
    rewrite Et. change (Qabs 0) with 0%Q. split; lra.
Qed.

Section Coast.

Variable step : Refs -> Event -> Refs.
Variable idle : Refs -> Prop.

Hypothesis frame_idle :
  forall s time, idle s -> idle (step s (AnimationFrame time)).

Hypothesis frame_momentum :
  forall s time,
    idle s ->
    exists b : bool,
      (targetPosition (step s (AnimationFrame time)),
       autoScrollSpeed (step s (AnimationFrame time)))
      = (if b then applyMomentum (targetPosition s) (autoScrollSpeed s)
         else (targetPosition s, Fin 0)).

Lemma coast_run (times : list num) :
  forall s t v,
    idle s -> targetPosition s = Fin t -> autoScrollSpeed s = Fin v ->
    exists t' v' : Q,
      targetPosition (run step s (map AnimationFrame times)) = Fin t'
      /\ autoScrollSpeed (run step s (map AnimationFrame times)) = Fin v'
      /\ (Qabs v' <= Qpow 0.97 (length times) * Qabs v)%Q
      /\ (Qabs (t' - t) * 0.03 <= Qabs v - Qabs v')%Q.
Proof.
  induction times as [| time r IH]; intros s t v Hi Et Ev;
    cbn [map run fold_left length Qpow].
  - exists t, v. repeat split; auto; try lra.
    rewrite (Qabs_wd (t - t) 0) by ring. change (Qabs 0) with 0%Q. lra.
  - destruct (frame_momentum s time Hi) as (b & Hm).
    rewrite Et, Ev in Hm.
    destruct (momentum_contracts t v b) as (t1 & v1 & E1 & V1 & T1).
    rewrite E1 in Hm. injection Hm as Et1 Ev1.
    destruct (IH _ t1 v1 (frame_idle s time Hi) Et1 Ev1)
      as (t' & v' & Et' & Ev' & V' & T').
    exists t', v'. split; [exact Et' | split; [exact Ev' |]].
    pose proof (Qpow_pos 0.97 (length r)) as Hp.
    pose proof (Qabs_nonneg v) as N0.
    pose proof (Qabs_nonneg v1) as N1.
    pose proof (Qabs_nonneg v') as N2.
    split.
    + assert (Hp' : (0 <= Qpow 0.97 (length r))%Q) by (apply Hp; lra).
      nra.
    + assert (Tri : (Qabs (t' - t) <= Qabs (t' - t1) + Qabs (t1 - t))%Q).
      { rewrite (Qabs_wd (t' - t) ((t' - t1) + (t1 - t))) by ring.
        apply Qabs_triangle. }
      lra.
Qed.

End Coast.

(** X14. Momentum dies out, and it carries the strip a bounded way.  Over
    any number [k] of frames with no input in between (and, in the
    draggable slider, no drag under way), whatever the frame times:
    [|autoScrollSpeed|] is at most [0.97^k] times what it was, and
    [targetPosition] has moved by at most [|autoScrollSpeed| / 0.03], a
    hundred thirds of the momentum the run started with. *)
Theorem momentum_dies_out (Math : MathObject) (slideWidth gap slideCount : num)
    (times : list num) (s : Refs) :
  Num.finite (targetPosition s) -> Num.finite (autoScrollSpeed s) ->
  let frames := map AnimationFrame times in
  let coasts (s' : Refs) : Prop :=
    Num.le (Num.abs (autoScrollSpeed s'))
      (Fin (Qpow 0.97 (length times)) * Num.abs (autoScrollSpeed s))
    /\ Num.le (Num.abs (targetPosition s' - targetPosition s) * Fin 0.03)
         (Num.abs (autoScrollSpeed s)) in
  (isDragging s = false ->
   coasts (run (Draggable.step Math slideWidth gap slideCount) s frames))
  /\ coasts (run (Slider.step Math slideWidth gap slideCount) s frames).
Proof.
  intros Ht Ha frames coasts.
  destruct (finite_inv _ Ht) as (t & Et), (finite_inv _ Ha) as (v & Ev).
  unfold coasts, frames. rewrite Et, Ev.
  split; [intros Hd |].
  - destruct (coast_run (Draggable.step Math slideWidth gap slideCount)
                (fun s => isDragging s = false)) with
      (times := times) (s := s) (t := t) (v := v)
      as (t' & v' & -> & -> & V & T); auto.
    + intros s0 time H0.
      pose proof (Draggable_frame_spec Math slideWidth gap slideCount time s0)
        as (_ & _ & _ & _ & _ & _ & _ & _ & _ & _ & _ & _ & _ & _ & D & _).
      cbv zeta in D. cbn [Draggable.step]. now rewrite D.
    + intros s0 time H0.
      pose proof (Draggable_frame_spec Math slideWidth gap slideCount time s0)
        as (_ & Hm & _).
      cbv zeta in Hm. rewrite H0 in Hm. cbn [negb andb] in Hm.
      cbn [Draggable.step].
      exists (Num.abs (autoScrollSpeed s0) >? Fin 0.001). exact Hm.
    + cbn [Num.abs Num.mul Num.sub Num.add Num.neg Num.le].
      pose proof (Qabs_nonneg v'). unfold Qminus in T. split; [exact V | lra].
  - destruct (coast_run (Slider.step Math slideWidth gap slideCount)
                (fun _ => True)) with
      (times := times) (s := s) (t := t) (v := v)
      as (t' & v' & -> & -> & V & T); auto.
    + intros s0 time _.
      pose proof (Slider_frame_spec Math slideWidth gap slideCount time s0)
        as (_ & Hm & _).
      cbv zeta in Hm. cbn [Slider.step].
      exists (isScrolling s0 && (Num.abs (autoScrollSpeed s0) >? Fin 0.001)).
      exact Hm.
    + cbn [Num.abs Num.mul Num.sub Num.add Num.neg Num.le].
      pose proof (Qabs_nonneg v'). unfold Qminus in T. split; [exact V | lra].
Qed.

Lemma momentum_dies_out_witness :
  let s := sampleRefs (Fin 0) (Fin 0) (Fin 0.05) true false (Fin 1000)
             (Fin 0) (Fin 0) (Fin 0) [Fin 0; Fin 0; Fin 0; Fin 0; Fin 0] in
  let s' := run (Draggable.step sampleMath (Fin 3.0) (Fin 0.1) (Fin 10)) s
              (map AnimationFrame [Fin 1016; Fin 1032; Fin 1048]) in
  Num.le (Num.abs (autoScrollSpeed s'))
    (Fin (Qpow 0.97 3) * Num.abs (autoScrollSpeed s))
  /\ Num.le (Num.abs (targetPosition s' - targetPosition s) * Fin 0.03)
       (Num.abs (autoScrollSpeed s)).
Proof.
  intros s s'.
  apply (proj1 (momentum_dies_out sampleMath (Fin 3.0) (Fin 0.1) (Fin 10)
                  [Fin 1016; Fin 1032; Fin 1048] s I I)).
  reflexivity.
Defined.

Section Settle.

Variable step : Refs -> Event -> Refs.

Hypothesis frame_rest :
  forall s time t,
    targetPosition s = Fin t -> autoScrollSpeed s = Fin 0 ->
    exists t' : Q,
      targetPosition (step s (AnimationFrame time)) = Fin t'
      /\ (t' == t)%Q
      /\ autoScrollSpeed (step s (AnimationFrame time)) = Fin 0.

Hypothesis frame_position :
  forall s time,
    currentPosition (step s (AnimationFrame time))
    = approach (currentPosition s)
        (targetPosition (step s (AnimationFrame time))) settings.smoothing.

Lemma settle_run (times : list num) :
  forall s t c,
    targetPosition s = Fin t -> currentPosition s = Fin c ->
    autoScrollSpeed s = Fin 0 ->
    exists t' c' : Q,
      targetPosition (run step s (map AnimationFrame times)) = Fin t'
      /\ currentPosition (run step s (map AnimationFrame times)) = Fin c'
      /\ (t' == t)%Q
      /\ (c' - t == Qpow 0.9 (length times) * (c - t))%Q.
Proof.
  induction times as [| time r IH]; intros s t c Et Ec Ea;
    cbn [map run fold_left length Qpow].
  - exists t, c. repeat split; auto; ring.
  - destruct (frame_rest s time t Et Ea) as (t1 & Et1 & Ht1 & Ea1).
    pose proof (frame_position s time) as Ec1.
    rewrite Et1, Ec in Ec1. unfold approach, settings.smoothing in Ec1.
    cbn [Num.add Num.sub Num.neg Num.mul] in Ec1.
    destruct (IH _ _ _ Et1 Ec1 Ea1) as (t' & c' & Et' & Ec' & Ht' & Hc').
    exists t', c'. split; [exact Et' | split; [exact Ec' | split]].
    + now rewrite Ht'.
    + set (k := Qpow 0.9 (length r)) in *.
      assert (H : (c' - t == c' - t1 + (t1 - t))%Q) by ring.
      rewrite H, Hc', Ht1. ring.
Qed.

End Settle.

(** X15. With no momentum and no input the strip closes a tenth of its
    distance to the target with every frame, whatever the times of the
    frames: after [k] frames [targetPosition] is where it was and
    [currentPosition - targetPosition] is [0.9^k] times what it was, in
    each of the three components. *)
Theorem position_settles (Math : MathObject) (slideWidth gap slideCount : num)
    (times : list num) (s : Refs) :
  Num.finite (targetPosition s) -> Num.finite (currentPosition s) ->
  autoScrollSpeed s = Fin 0 ->
  let frames := map AnimationFrame times in
  let settles (s' : Refs) : Prop :=
    targetPosition s' =~ targetPosition s
    /\ currentPosition s' - targetPosition s
       =~ Fin (Qpow 0.9 (length times))
          * (currentPosition s - targetPosition s) in
  settles (run (Draggable.step Math slideWidth gap slideCount) s frames)
  /\ settles (run (Slider.step Math slideWidth gap slideCount) s frames)
  /\ settles (run (Legacy.step Math) s frames).
Proof.
  intros Ht Hc Ha frames settles.
  destruct (finite_inv _ Ht) as (t & Et), (finite_inv _ Hc) as (c & Ec).
  unfold settles, frames. rewrite Et, Ec.
  split; [| split].
  - destruct (settle_run (Draggable.step Math slideWidth gap slideCount))
      with (times := times) (s := s) (t := t) (c := c)
      as (t' & c' & -> & -> & T & C); auto.
    + intros s0 time t0 E0 A0.
      pose proof (Draggable_frame_spec Math slideWidth gap slideCount time s0)
        as (_ & Hm & _).
      cbv zeta in Hm. rewrite E0, A0 in Hm. cbn [Draggable.step].
      exists t0. destruct (isDragging s0); cbn in Hm;
        injection Hm as -> ->; repeat split; reflexivity.
    + intros s0 time.
      pose proof (Draggable_frame_spec Math slideWidth gap slideCount time s0)
        as (_ & _ & Hp & _).
      exact Hp.
  - destruct (settle_run (Slider.step Math slideWidth gap slideCount))
      with (times := times) (s := s) (t := t) (c := c)
      as (t' & c' & -> & -> & T & C); auto.
    + intros s0 time t0 E0 A0.
      pose proof (Slider_frame_spec Math slideWidth gap slideCount time s0)
        as (_ & Hm & _).
      cbv zeta in Hm. rewrite E0, A0 in Hm. cbn [Slider.step].
      exists t0. destruct (isScrolling s0); cbn in Hm;
        injection Hm as -> ->; repeat split; reflexivity.
    + intros s0 time.
      pose proof (Slider_frame_spec Math slideWidth gap slideCount time s0)
        as (_ & _ & Hp & _).
      exact Hp.
  - destruct (settle_run (Legacy.step Math))
      with (times := times) (s := s) (t := t) (c := c)
      as (t' & c' & -> & -> & T & C); auto.
    + intros s0 time t0 E0 A0.
      pose proof (Legacy_frame_spec Math time s0) as (_ & Hm & _).
      cbv zeta in Hm. rewrite E0, A0 in Hm. cbn [Legacy.step].
      destruct (isScrolling s0); cbn in Hm; injection Hm as -> ->.
      * exists (t0 + 0)%Q. repeat split; try reflexivity. ring.
      * exists t0. repeat split; reflexivity.
    + intros s0 time.
      pose proof (Legacy_frame_spec Math time s0) as (_ & _ & Hp & _).
      exact Hp.
Qed.

Lemma position_settles_witness :
  let s := sampleRefs (Fin 0) (Fin 1) (Fin 0) false false (Fin 1000)
             (Fin 0) (Fin 0) (Fin 0) [Fin 0; Fin 0; Fin 0; Fin 0; Fin 0] in
  let s' := run (Draggable.step sampleMath (Fin 3.0) (Fin 0.1) (Fin 10)) s
              (map AnimationFrame [Fin 1016; Fin 1032]) in
  currentPosition s' - targetPosition s
  =~ Fin (Qpow 0.9 2) * (currentPosition s - targetPosition s).
Proof.
  intros s s'.
  apply (proj1 (position_settles sampleMath (Fin 3.0) (Fin 0.1) (Fin 10)
                  [Fin 1016; Fin 1032] s I I eq_refl)).
Defined.

(** ** The wheel *)

(** The momentum that [handleWheel] sets for a [deltaY] of more than two
    units: it has the sign of [deltaY], and it is above the threshold of
    the momentum branch. *)
Lemma wheel_speed (dy : Q) :
  (2 < Qabs dy)%Q ->
  exists a : Q,
    Num.min (Num.abs (Fin dy) * Fin 0.0005) (Fin 0.05) * Num.sign (Fin dy)
    = Fin a
    /\ (0.001 < Qabs a)%Q /\ (Qabs a <= 0.05)%Q /\ (0 < a * dy)%Q.
Proof.
  intros Hdy. cbn [Num.abs Num.mul Num.sign]. rewrite min_fin.
  destruct (Qcompare_spec dy 0) as [E | L | G]; cbn [Num.mul].
  - rewrite E in Hdy. change (Qabs 0) with 0%Q in Hdy. lra.
  - eexists. split; [reflexivity |].
    pose proof (Qabs_neg dy) as H. set (m := Qabs dy) in *.
    assert (Hm : (m == - dy)%Q) by (apply H; lra). clear H.
    qtest; repeat split; try (apply Qabs_case; intros); nra.
  - eexists. split; [reflexivity |].
    pose proof (Qabs_pos dy) as H. set (m := Qabs dy) in *.
    assert (Hm : (m == dy)%Q) by (apply H; lra). clear H.
    qtest; repeat split; try (apply Qabs_case; intros); nra.
Qed.

(** X16. The momentum of the wheel runs against the scroll.  In both
    sliders of [ThreeSlider.tsx], a wheel event with [|deltaY| > 2] moves
    [targetPosition] by [-deltaY * wheelSensitivity] and sets a momentum
    of at most 0.05 that has the sign of [deltaY]; the next frame adds
    that momentum to [targetPosition], which so moves back towards
    where it was before the event. *)
Theorem wheel_momentum_direction (Math : MathObject)
    (slideWidth gap slideCount : num) (dy : Q) (time : num) (s : Refs) :
  Num.finite (targetPosition s) -> (2 < Qabs dy)%Q ->
  let rebounds (s1 s2 : Refs) : Prop :=
    targetPosition s1
    =~ targetPosition s - Fin dy * settings.wheelSensitivity
    /\ Num.lt (Fin 0) (autoScrollSpeed s1 * Fin dy)
    /\ Num.le (Num.abs (autoScrollSpeed s1)) (Fin 0.05)
    /\ targetPosition s2 =~ targetPosition s1 + autoScrollSpeed s1 in
  (let step := Slider.step Math slideWidth gap slideCount in
   rebounds (step s (Wheel (Fin dy)))
     (step (step s (Wheel (Fin dy))) (AnimationFrame time)))
  /\ (let step := Legacy.step Math in
      rebounds (step s (Wheel (Fin dy)))
        (step (step s (Wheel (Fin dy))) (AnimationFrame time))).
Proof.
  intros Ht Hdy rebounds.
  destruct (finite_inv _ Ht) as (t & Et).
  destruct (wheel_speed dy Hdy) as (a & Ea & A1 & A2 & A3).
  split; intros step; unfold rebounds, step.
  - cbn [Slider.step].
    set (s1 := Slider.handleWheel (Fin dy) s).
    assert (E1 : targetPosition s1 = Fin (t + - (dy * 0.01)))
      by (unfold s1, Slider.handleWheel; refs_simpl; now rewrite Et).
    assert (E2 : autoScrollSpeed s1 = Fin a)
      by (unfold s1, Slider.handleWheel; refs_simpl; exact Ea).
    assert (E3 : isScrolling s1 = true) by reflexivity.
    pose proof (Slider_frame_spec Math slideWidth gap slideCount time s1)
      as (_ & Hm & _).
    cbv zeta in Hm. rewrite E1, E2, E3 in Hm.
    cbn [Num.abs Num.gt Num.ltb andb] in Hm.
    rewrite (proj2 (Qltb_true _ _) A1) in Hm.
    destruct (applyMomentum_fin (t + - (dy * 0.01)) a) as (k & _ & Hk).
    rewrite Hk in Hm. injection Hm as Htp _.
    rewrite Htp, E1, E2, Et. unfold settings.wheelSensitivity.
    cbn [Num.eq Num.lt Num.le Num.add Num.sub Num.neg Num.mul Num.abs].
    repeat split; try lra; reflexivity.
  - cbn [Legacy.step].
    set (s1 := Legacy.handleWheel (Fin dy) s).
    assert (E1 : targetPosition s1 = Fin (t + - (dy * 0.01)))
      by (unfold s1, Legacy.handleWheel; refs_simpl; now rewrite Et).
    assert (E2 : autoScrollSpeed s1 = Fin a)
      by (unfold s1, Legacy.handleWheel; refs_simpl; exact Ea).
    assert (E3 : isScrolling s1 = true) by reflexivity.
    pose proof (Legacy_frame_spec Math time s1) as (_ & Hm & _).
    cbv zeta in Hm. rewrite E1, E2, E3 in Hm.
    destruct (applyMomentum_fin (t + - (dy * 0.01)) a) as (k & _ & Hk).
    rewrite Hk in Hm. injection Hm as Htp _.
    rewrite Htp, E1, E2, Et. unfold settings.wheelSensitivity.
    cbn [Num.eq Num.lt Num.le Num.add Num.sub Num.neg Num.mul Num.abs].
    repeat split; try lra; reflexivity.
Qed.

Lemma wheel_momentum_direction_witness :
  let step := Slider.step sampleMath (Fin 3.0) (Fin 0.1) (Fin 10) in
  let s := mounted [] (Fin 31) (Fin 1000) in
  Num.lt (Fin 0) (autoScrollSpeed (step s (Wheel (Fin 120))) * Fin 120)
  /\ targetPosition (step (step s (Wheel (Fin 120))) (AnimationFrame (Fin 1016)))
     =~ targetPosition (step s (Wheel (Fin 120)))
        + autoScrollSpeed (step s (Wheel (Fin 120))).
Proof.
  intros step s.
  assert (Hdy : (2 < Qabs 120)%Q) by reflexivity.
  destruct (proj1 (wheel_momentum_direction sampleMath (Fin 3.0) (Fin 0.1)
                     (Fin 10) 120 (Fin 1016) s I Hdy))
    as (_ & H1 & _ & H2).
  split; [exact H1 | exact H2].
Defined.

(** ** Touch *)

Section Touch.

Variable step : Refs -> Event -> Refs.

Hypothesis touch_move :
  forall s x,
    touchLastX (step s (TouchMove x)) = x
    /\ touchStartX (step s (TouchMove x)) = touchStartX s
    /\ autoScrollSpeed (step s (TouchMove x)) = autoScrollSpeed s
    /\ targetPosition (step s (TouchMove x))
       = targetPosition s - (x - touchLastX s) * settings.touchSensitivity.

Hypothesis touch_frame :
  forall s time t,
    targetPosition s = Fin t -> autoScrollSpeed s = Fin 0 ->
    exists t' : Q,
      targetPosition (step s (AnimationFrame time)) = Fin t'
      /\ (t' == t)%Q
      /\ autoScrollSpeed (step s (AnimationFrame time)) = Fin 0
      /\ touchStartX (step s (AnimationFrame time)) = touchStartX s
      /\ touchLastX (step s (AnimationFrame time)) = touchLastX s.

Hypothesis touch_timer :
  forall s,
    targetPosition (step s TimerFired) = targetPosition s
    /\ autoScrollSpeed (step s TimerFired) = autoScrollSpeed s
    /\ touchStartX (step s TimerFired) = touchStartX s
    /\ touchLastX (step s TimerFired) = touchLastX s.

Lemma touch_run (events : list Event) :
  forall s t l,
    targetPosition s = Fin t -> touchLastX s = Fin l ->
    autoScrollSpeed s = Fin 0 ->
    Forall touching events ->
    exists t' l' : Q,
      targetPosition (run step s events) = Fin t'
      /\ touchLastX (run step s events) = Fin l'
      /\ autoScrollSpeed (run step s events) = Fin 0
      /\ touchStartX (run step s events) = touchStartX s
      /\ (t' + l' * 0.01 == t + l * 0.01)%Q.
Proof.
  induction events as [| e r IH]; intros s t l Et El Ea He;
    cbn [run fold_left].
  - exists t, l.
    split; [exact Et | split; [exact El | split; [exact Ea | split; reflexivity]]].
  - inversion He as [| ? ? He1 He2]; subst.
    destruct e; cbn [touching] in He1; try contradiction.
    + destruct (finite_inv _ He1) as (x & ->).
      destruct (touch_move s (Fin x)) as (M1 & M2 & M3 & M4).
      rewrite Et, El in M4. unfold settings.touchSensitivity in M4.
      cbn [Num.add Num.sub Num.neg Num.mul] in M4. rewrite Ea in M3.
      destruct (IH _ _ _ M4 M1 M3 He2) as (t' & l' & R1 & R2 & R3 & R4 & R5).
      exists t', l'. split; [exact R1 | split; [exact R2 | split; [exact R3 | split; [etransitivity; [exact R4 | assumption] |]]]].
      rewrite R5. ring.
    + destruct (touch_timer s) as (M1 & M2 & M3 & M4).
      rewrite Et in M1. rewrite Ea in M2. rewrite El in M4.
      destruct (IH _ _ _ M1 M4 M2 He2) as (t' & l' & R1 & R2 & R3 & R4 & R5).
      exists t', l'. split; [exact R1 | split; [exact R2 | split; [exact R3 | split; [etransitivity; [exact R4 | assumption] |]]]].
      exact R5.
    + destruct (touch_frame s time t Et Ea) as (t1 & M1 & Ht1 & M2 & M3 & M4).
      rewrite El in M4.
      destruct (IH _ _ _ M1 M4 M2 He2) as (t' & l' & R1 & R2 & R3 & R4 & R5).
      exists t', l'. split; [exact R1 | split; [exact R2 | split; [exact R3 | split; [etransitivity; [exact R4 | assumption] |]]]].
      rewrite R5, Ht1. reflexivity.
Qed.

End Touch.

(** X17. A whole touch gesture in the two sliders of [ThreeSlider.tsx]:
    a touch that starts at [x0], any moves of the finger, frames and
    scroll-end timeouts, and the end of the touch.  [targetPosition] has
    moved by [-(xl - x0) * touchSensitivity], where [xl] is the last
    position of the finger, whatever the path and the frames in between;
    and the momentum is [-(xl - x0) * 0.0005] if the finger ended more
    than 100 pixels from where it started, and zero otherwise, whatever
    momentum there was before the touch. *)
Theorem touch_gesture (Math : MathObject) (slideWidth gap slideCount : num)
    (x0 : num) (moves : list Event) (s : Refs) :
  Num.finite (targetPosition s) -> Num.finite x0 ->
  Forall touching moves ->
  let gesture := TouchStart x0 :: moves ++ [TouchEnd] in
  let flicked (s' : Refs) : Prop :=
    let travel := touchLastX s' - x0 in
    targetPosition s' =~ targetPosition s - travel * settings.touchSensitivity
    /\ (if Num.abs travel >? Fin 100
        then autoScrollSpeed s' =~ - travel * Fin 0.0005
        else autoScrollSpeed s' = Fin 0) in
  flicked (run (Slider.step Math slideWidth gap slideCount) s gesture)
  /\ flicked (run (Legacy.step Math) s gesture).
Proof.
  intros Ht Hx Hm gesture flicked.
  destruct (finite_inv _ Ht) as (t & Et), (finite_inv _ Hx) as (x & ->).
  unfold flicked, gesture, run. cbn [fold_left]. rewrite !fold_left_app.
  cbn [fold_left]. rewrite Et. unfold settings.touchSensitivity.
  split.
  - set (step := Slider.step Math slideWidth gap slideCount).
    set (s0 := step s (TouchStart (Fin x))).
    destruct (touch_run step) with (events := moves) (s := s0) (t := t) (l := x)
      as (t1 & l1 & R1 & R2 & R3 & R4 & R5);
      [ intros s1 x1; repeat split; reflexivity
      |
      | intros s1; repeat split; reflexivity
      | unfold s0, step; cbn; now rewrite Et
      | reflexivity | reflexivity | exact Hm | ].
    + intros s1 time t1 E1 A1.
      pose proof (Slider_frame_spec Math slideWidth gap slideCount time s1)
        as (_ & M & _ & _ & _ & _ & _ & _ & _ & _ & _ & _ & _ & _
            & _ & _ & S1 & L1 & _).
      cbv zeta in M, S1, L1. rewrite E1, A1 in M.
      exists t1. unfold step. cbn [Slider.step].
      assert (M' : (targetPosition
                      (Slider.animate Math slideWidth gap slideCount time s1),
                    autoScrollSpeed
                      (Slider.animate Math slideWidth gap slideCount time s1))
                   = (Fin t1, Fin 0))
        by (rewrite M; now destruct (isScrolling s1)).
      injection M' as M1 M2. rewrite M1, M2.
      split; [reflexivity | split; [reflexivity | split; [reflexivity |]]].
      split; assumption.
    + fold (run step s0 moves) in *. set (s1 := run step s0 moves) in *.
      change (touchStartX s0) with (Fin x) in R4.
      set (s' := step s1 TouchEnd).
      assert (L' : touchLastX s' = Fin l1).
      { unfold s', step. cbn [Slider.step]. unfold Slider.handleTouchEnd.
        match goal with |- context [if ?c then _ else _] => destruct c end;
          exact R2. }
      assert (T' : targetPosition s' = Fin t1).
      { unfold s', step. cbn [Slider.step]. unfold Slider.handleTouchEnd.
        match goal with |- context [if ?c then _ else _] => destruct c end;
          exact R1. }
      assert (A' : autoScrollSpeed s'
                   = if Num.Qltb 0.5 (Qabs ((l1 + - x) * 0.005))
                     then Fin (- ((l1 + - x) * 0.005) * 2 * 0.05)
                     else Fin 0).
      { unfold s', step. cbn [Slider.step]. unfold Slider.handleTouchEnd.
        rewrite R2, R4. unfold settings.momentumMultiplier.
        cbn [Num.add Num.sub Num.neg Num.mul Num.abs Num.gt Num.ltb].
        destruct (Num.Qltb 0.5 (Qabs ((l1 + - x) * 0.005)));
          [reflexivity | exact R3]. }
      rewrite L', T', A'.
      cbn [Num.add Num.sub Num.neg Num.mul Num.abs Num.gt Num.ltb Num.eq].
      split; [lra |].
      destruct (Num.Qltb 0.5 (Qabs ((l1 + - x) * 0.005))) eqn:V;
        destruct (Num.Qltb 100 (Qabs (l1 + - x))) eqn:W;
        cbn [Num.eq]; try reflexivity; try lra; exfalso;
        [ apply Qltb_true in V; apply Qltb_false in W
        | apply Qltb_false in V; apply Qltb_true in W ];
        revert V W; apply Qabs_case; apply Qabs_case; intros; lra.
  - set (step := Legacy.step Math).
    set (s0 := step s (TouchStart (Fin x))).
    destruct (touch_run step) with (events := moves) (s := s0) (t := t) (l := x)
      as (t1 & l1 & R1 & R2 & R3 & R4 & R5);
      [ intros s1 x1; repeat split; reflexivity
      |
      | intros s1; repeat split; reflexivity
      | unfold s0, step; cbn; now rewrite Et
      | reflexivity | reflexivity | exact Hm | ].
    + intros s1 time t1 E1 A1.
      pose proof (Legacy_frame_spec Math time s1)
        as (_ & M & _ & _ & _ & _ & _ & _ & _ & _ & _ & _ & _ & _
            & _ & _ & S1 & L1 & _).
      cbv zeta in M, S1, L1. rewrite E1, A1 in M.
      unfold step. cbn [Legacy.step].
      destruct (isScrolling s1).
      * change (applyMomentum (Fin t1) (Fin 0)) with (Fin (t1 + 0), Fin 0) in M.
        injection M as M1 M2. rewrite M1, M2. exists (t1 + 0)%Q.
        split; [reflexivity | split; [ring | split; [reflexivity |]]].
        split; assumption.
      * injection M as M1 M2. rewrite M1, M2. exists t1.
        split; [reflexivity | split; [reflexivity | split; [reflexivity |]]].
        split; assumption.
    + fold (run step s0 moves) in *. set (s1 := run step s0 moves) in *.
      change (touchStartX s0) with (Fin x) in R4.
      set (s' := step s1 TouchEnd).
      assert (L' : touchLastX s' = Fin l1).
      { unfold s', step. cbn [Legacy.step]. unfold Legacy.handleTouchEnd.
        match goal with |- context [if ?c then _ else _] => destruct c end;
          exact R2. }
      assert (T' : targetPosition s' = Fin t1).
      { unfold s', step. cbn [Legacy.step]. unfold Legacy.handleTouchEnd.
        match goal with |- context [if ?c then _ else _] => destruct c end;
          exact R1. }
      assert (A' : autoScrollSpeed s'
                   = if Num.Qltb 0.5 (Qabs ((l1 + - x) * 0.005))
                     then Fin (- ((l1 + - x) * 0.005) * 2 * 0.05)
                     else Fin 0).
      { unfold s', step. cbn [Legacy.step]. unfold Legacy.handleTouchEnd.
        rewrite R2, R4. unfold settings.momentumMultiplier.
        cbn [Num.add Num.sub Num.neg Num.mul Num.abs Num.gt Num.ltb].
        destruct (Num.Qltb 0.5 (Qabs ((l1 + - x) * 0.005)));
          [reflexivity | exact R3]. }
      rewrite L', T', A'.
      cbn [Num.add Num.sub Num.neg Num.mul Num.abs Num.gt Num.ltb Num.eq].
      split; [lra |].
      destruct (Num.Qltb 0.5 (Qabs ((l1 + - x) * 0.005))) eqn:V;
        destruct (Num.Qltb 100 (Qabs (l1 + - x))) eqn:W;
        cbn [Num.eq]; try reflexivity; try lra; exfalso;
        [ apply Qltb_true in V; apply Qltb_false in W
        | apply Qltb_false in V; apply Qltb_true in W ];
        revert V W; apply Qabs_case; apply Qabs_case; intros; lra.
Qed.

Lemma touch_gesture_witness :
  let s' := run (Slider.step sampleMath (Fin 3.0) (Fin 0.1) (Fin 10))
              (mounted [] (Fin 31) (Fin 1000))
              (TouchStart (Fin 200)
               :: [TouchMove (Fin 150); AnimationFrame (Fin 1016); TimerFired;
                   TouchMove (Fin 40)] ++ [TouchEnd]) in
  targetPosition s'
  =~ Fin (- (31) / 2) - (touchLastX s' - Fin 200) * settings.touchSensitivity.
Proof.
  intros s'.
  destruct (touch_gesture sampleMath (Fin 3.0) (Fin 0.1) (Fin 10) (Fin 200)
              [TouchMove (Fin 150); AnimationFrame (Fin 1016); TimerFired;
               TouchMove (Fin 40)]
              (mounted [] (Fin 31) (Fin 1000)))
    as ((T & _) & _).
  - exact I.
  - exact I.
  - repeat constructor.
  - exact T.
Defined.

(** ** Pointer events without a drag *)

(** X18. In the draggable slider, with no drag under way, pointer moves,
    releases, and presses that hit no slide change nothing: after any run
    of such events every ref has the value it had. *)
Theorem hovering_changes_nothing (Math : MathObject)
    (slideWidth gap slideCount : num) (events : list Event) (s : Refs) :
  isDragging s = false -> Forall hovering events ->
  run (Draggable.step Math slideWidth gap slideCount) s events = s.
Proof.
  intros Hd He. induction He as [| e r He _ IH]; [reflexivity |].
  cbn [run fold_left].
  assert (E : Draggable.step Math slideWidth gap slideCount s e = s).
  { destruct e; cbn [hovering] in He; try contradiction; cbn [Draggable.step].
    - destruct intersects; [contradiction | reflexivity].
    - unfold Draggable.handleMouseMove. now rewrite Hd.
    - unfold Draggable.handleMouseUpOrLeave. now rewrite Hd. }
  rewrite E. exact IH.
Qed.

Lemma hovering_changes_nothing_witness :
  run (Draggable.step sampleMath (Fin 3.0) (Fin 0.1) (Fin 10))
    (mounted [] (Fin 31) (Fin 1000))
    [MouseMove (Fin 10); MouseDown (Fin 20) false; MouseUp; MouseMove NaN]
  = mounted [] (Fin 31) (Fin 1000).
Proof.
  apply hovering_changes_nothing; [reflexivity | repeat constructor].
Defined.

(** ** Resize *)

Lemma handleResize_consistent (container : option (num * num))
    (devicePixelRatio : num) (h : Host) :
  let h' := DraggableHost.handleResize container devicePixelRatio h in
  host_refs h' = host_refs h
  /\ host_listening h' = host_listening h
  /\ (forall v,
         host_view h = Some v ->
         view_aspect v = view_width v / view_height v ->
         (isZero (view_width v) || isZero (view_height v)) = false ->
         exists v',
           host_view h' = Some v'
           /\ view_aspect v' = view_width v' / view_height v'
           /\ (isZero (view_width v') || isZero (view_height v')) = false).
Proof.
  unfold DraggableHost.handleResize.
  assert (Same : host_refs h = host_refs h
                 /\ host_listening h = host_listening h
                 /\ (forall v,
                        host_view h = Some v ->
                        view_aspect v = view_width v / view_height v ->
                        (isZero (view_width v) || isZero (view_height v)) = false ->
                        exists v',
                          host_view h = Some v'
                          /\ view_aspect v' = view_width v' / view_height v'
                          /\ (isZero (view_width v') || isZero (view_height v'))
                             = false)).
  { split; [reflexivity | split; [reflexivity |]].
    intros v Hv Ha Hn. exists v. split; [exact Hv | split; assumption]. }
  destruct container as [[width height] |]; [| exact Same].
  destruct (host_view h) as [v0 |] eqn:Ev; [| rewrite Ev; exact Same].
  destruct (isZero width || isZero height) eqn:Z; [rewrite Ev; exact Same |].
  cbn [host_refs host_listening host_view].
  split; [reflexivity | split; [reflexivity |]].
  intros v _ _ _. eexists. split; [reflexivity |].
  cbn [view_aspect view_width view_height].
  split; [reflexivity | exact Z].
Qed.

(** X19. Camera and renderer never disagree.  After a mount of the
    draggable slider with a container of non-zero size and any sequence
    of resize notifications, with the container at any size or gone, the
    aspect of the camera is the width of the renderer over its height,
    neither of which is zero; and the resizes have not touched the refs
    of the animation. *)
Theorem view_stays_consistent (Math : MathObject) (slideWidth gap : num)
    (count : nat) (geometry : list num)
    (clientWidth clientHeight devicePixelRatio now : num)
    (resizes : list (option (num * num) * num)) :
  (isZero clientWidth || isZero clientHeight) = false ->
  let h0 := DraggableHost.mount Math slideWidth gap count geometry
              clientWidth clientHeight devicePixelRatio now initialHost in
  let h := fold_left
             (fun h r => DraggableHost.handleResize (fst r) (snd r) h)
             resizes h0 in
  host_refs h = host_refs h0
  /\ host_listening h = true
  /\ exists v,
       host_view h = Some v
       /\ view_aspect v = view_width v / view_height v
       /\ (isZero (view_width v) || isZero (view_height v)) = false.
Proof.
  intros Hz h0 h.
  assert (H0 : host_listening h0 = true
               /\ exists v,
                    host_view h0 = Some v
                    /\ view_aspect v = view_width v / view_height v
                    /\ (isZero (view_width v) || isZero (view_height v)) = false).
  { unfold h0, DraggableHost.mount. rewrite Hz. split; [reflexivity |].
    eexists. split; [reflexivity |]. split; [reflexivity | exact Hz]. }
  unfold h. clearbody h0. clear h Hz.
  revert h0 H0. induction resizes as [| [c d] r IH]; intros h0 (L & v & V1 & V2 & V3);
    cbn [fold_left fst snd].
  - split; [reflexivity | split; [exact L |]]. now exists v.
  - destruct (handleResize_consistent c d h0) as (E1 & E2 & E3).
    cbv zeta in E1, E2, E3.
    destruct (E3 v V1 V2 V3) as (v' & W1 & W2 & W3).
    destruct (IH (DraggableHost.handleResize c d h0)) as (I1 & I2 & I3).
    + split; [now rewrite E2 |]. now exists v'.
    + split; [now rewrite I1 | split; [exact I2 | exact I3]].
Qed.

Lemma view_stays_consistent_witness :
  let h0 := DraggableHost.mount sampleMath (Fin 3.0) (Fin 0.1) 10 []
              (Fin 1280) (Fin 720) (Fin 3) (Fin 1000) initialHost in
  let h := fold_left
             (fun h r => DraggableHost.handleResize (fst r) (snd r) h)
             [(Some (Fin 800, Fin 600), Fin 1); (Some (Fin 0, Fin 600), Fin 1);
              (None, Fin 2)] h0 in
  exists v,
    host_view h = Some v
    /\ view_aspect v = view_width v / view_height v
    /\ (isZero (view_width v) || isZero (view_height v)) = false.
Proof.
  intros h0 h.
  apply (view_stays_consistent sampleMath (Fin 3.0) (Fin 0.1) 10 []
           (Fin 1280) (Fin 720) (Fin 3) (Fin 1000)
           [(Some (Fin 800, Fin 600), Fin 1); (Some (Fin 0, Fin 600), Fin 1);
            (None, Fin 2)]).
  reflexivity.
Defined.

(** ** Mount of the two sliders of [ThreeSlider.tsx] *)

(** X20. The effect of the two sliders of [ThreeSlider.tsx] builds the
    same strip: after a first mount of [count > 0] slides with
    [slideWidth >= 0] and [slideWidth + gap > 0] and the frame it runs,
    there are [count] slides, each drawn inside the band [[-T/2, T/2]],
    the velocity tracker and the distortion factors satisfy their
    invariant, and [currentPosition] is [-T/2].  The first slider does so
    with its constants: ten slides of width 3 with a gap of 0.1. *)
Theorem wheel_sliders_mount (Math : MathObject) (w g : Q) (count : nat)
    (geometry : list num) (now : num) :
  (0 < count)%nat -> (0 < w + g)%Q -> (0 <= w)%Q -> Num.finite now ->
  let started (slideWidth T : num) (n : nat) (s : Refs) : Prop :=
    length (slides s) = n
    /\ Forall (drawn slideWidth T) (slides s)
    /\ tracked s
    /\ currentPosition s =~ - T / Fin 2 in
  (let T := totalWidth (Fin w) (Fin g) (Num.of_nat count) in
   started (Fin w) T count
     (Slider.animate Math (Fin w) (Fin g) (Num.of_nat count) now
        (mountRefs (mountSlides (Fin w) (Fin g) geometry count) T now
           initialRefs)))
  /\ started Legacy.slideWidth Legacy.totalWidth 10%nat
       (Legacy.animate Math now
          (mountRefs (mountSlides Legacy.slideWidth Legacy.gap geometry 10%nat)
             Legacy.totalWidth now initialRefs)).
Proof.
  intros Hc Hu Hw Hnow started. split.
  - intros T. set (n := inject_Z (Z.of_nat count)).
    assert (Hn : (0 < n)%Q).
    { unfold n. change 0%Q with (inject_Z 0). rewrite <- Zlt_Qlt. lia. }
    assert (Hpos : (0 < n * (w + g))%Q) by nra.
    set (ms := mountSlides (Fin w) (Fin g) geometry count).
    set (s := Slider.animate Math (Fin w) (Fin g) (Fin n) now
                (mounted ms (Fin (n * (w + g))) now)).
    change (started (Fin w) T count s).
    set (p := (- (n * (w + g)) / 2
               + (- (n * (w + g)) / 2 + - (- (n * (w + g)) / 2)) * 0.1)%Q).
    assert (Ecp : currentPosition s = Fin p) by reflexivity.
    assert (Hsl : slides s
                  = forEach (updateSlide (Fin w) (Fin g) (Fin n)
                               (updateCurve Math)
                               (Fin p) (currentDistortionFactor s)) ms)
      by (apply (Slider_slides Math (Fin w) (Fin g) (Fin n) now
                   (mounted ms (Fin (n * (w + g))) now))).
    split; [| split; [| split]].
    + rewrite Hsl. unfold forEach. rewrite mapi_from_length.
      apply mountSlides_length.
    + rewrite Hsl. apply forEach_drawn; auto.
      apply (mountSlides_inBand w g geometry count Hu).
    + apply (Slider_mount_tracked Math (Fin w) (Fin g) (Fin n) ms
               (n * (w + g)) now Hnow).
    + rewrite Ecp. unfold T, totalWidth, Num.of_nat. fold n.
      cbn [Num.add Num.mul Num.neg]. rewrite div_fin_2. cbn [Num.eq].
      unfold p. field.
  - set (ms := mountSlides Legacy.slideWidth Legacy.gap geometry 10).
    set (s := Legacy.animate Math now (mounted ms (Fin (10 * (3.0 + 0.1))) now)).
    change (started Legacy.slideWidth Legacy.totalWidth 10%nat s).
    set (p := (- (10 * (3.0 + 0.1)) / 2
               + (- (10 * (3.0 + 0.1)) / 2 + - (- (10 * (3.0 + 0.1)) / 2))
                 * 0.1)%Q).
    assert (Ecp : currentPosition s = Fin p) by reflexivity.
    assert (Hsl : slides s
                  = forEach (updateSlide (Fin 3.0) (Fin 0.1) (Fin 10)
                               (Legacy.updateCurve Math)
                               (Fin p) (currentDistortionFactor s)) ms)
      by (apply (Legacy_slides Math now
                   (mounted ms (Fin (10 * (3.0 + 0.1))) now))).
    split; [| split; [| split]].
    + rewrite Hsl. unfold forEach. rewrite mapi_from_length.
      apply mountSlides_length.
    + rewrite Hsl.
      apply (forEach_drawn 3.0 0.1 10 p (Legacy.updateCurve Math)).
      * reflexivity.
      * discriminate.
      * intros m x y. reflexivity.
      * intros m x y. reflexivity.
      * apply (mountSlides_inBand 3.0 0.1 geometry 10%nat). reflexivity.
    + apply (Legacy_mount_tracked Math ms (10 * (3.0 + 0.1)) now Hnow).
    + rewrite Ecp. vm_compute. reflexivity.
Qed.

Lemma wheel_sliders_mount_witness :
  let T := totalWidth (Fin 1.2) (Fin 0.05) (Num.of_nat 8%nat) in
  let s := Slider.animate sampleMath (Fin 1.2) (Fin 0.05) (Num.of_nat 8%nat)
             (Fin 1000)
             (mountRefs (mountSlides (Fin 1.2) (Fin 0.05)
                           [Fin (-0.6); Fin 0.4; Fin 0] 8%nat)
                T (Fin 1000) initialRefs) in
  length (slides s) = 8%nat /\ Forall (drawn (Fin 1.2) T) (slides s).
Proof.
  intros T s.
  destruct (proj1 (wheel_sliders_mount sampleMath 1.2 0.05 8%nat
                     [Fin (-0.6); Fin 0.4; Fin 0] (Fin 1000)
                     ltac:(lia) eq_refl ltac:(discriminate) I))
    as (L & D & _).
  split; [exact L | exact D].
Defined.
